(** * Reconciliation and metrics pipeline of the support dashboard (app.py)

    A shallow embedding of [generate_synthetic_data],
    [transform_logs_to_sessions], [combine_postgres_and_mongo_data] and
    [compute_metrics], followed by the properties of the pipeline.

    Conventions of the embedding:
    - a pandas timestamp is an integer number of nanoseconds ([Z]); NaT
      is [None], and so is a null field of an output row;
    - an [int64] column holds integers ([Z]) and its [sum()] wraps around
      at 64 bits;
    - Python's float results are exact rationals ([Q]); rounding is not
      modelled, so a [Q] stands for the real number the float
      approximates;
    - Python [str] values are UTF-8 encoded [string]s;
    - a raw log frame is its list of column names together with its rows,
      each row a finite map from column name to (string) cell; a null cell
      is NaN, or a stored [None] where the row says so; the [timestamp]
      cell is kept apart, already converted to a timestamp;
    - the numpy generators are an interface ([Generator]) threaded through
      the code as explicit state. *)

From Stdlib Require Import Ascii String QArith Qround Lqa.
From stdpp Require Import gmap strings list sorting pretty.

Open Scope Z_scope.

(* ===================================================================== *)
(** * Definitions *)
(* ===================================================================== *)

(** ** Time *)

Definition minute : Z := 60000000000.
Definition hour : Z := 60 * minute.
Definition day : Z := 24 * hour.

(** [ts + timedelta], NaT absorbing. *)
Definition add_delta (t : option Z) (d : Z) : option Z :=
  match t with Some x => Some (x + d) | None => None end.

(** [Series.min()] of a timestamp column: nulls are skipped, the result is
    NaT when nothing is left. *)
Definition ts_min (l : list (option Z)) : option Z :=
  foldr (fun x acc =>
           match x, acc with
           | Some a, Some b => Some (Z.min a b)
           | Some a, None => Some a
           | None, _ => acc
           end) None l.

(** ** Strings *)

(** [pat in s] for a literal pattern: what [str.contains] computes for a
    pattern without regular-expression operators. *)
Fixpoint str_contains (pat s : string) : bool :=
  String.prefix pat s ||
  match s with
  | EmptyString => false
  | String _ s' => str_contains pat s'
  end.

Definition ascii_lower (c : ascii) : ascii :=
  let n := nat_of_ascii c in
  if (Nat.leb 65 n && Nat.leb n 90)%bool then ascii_of_nat (n + 32) else c.

(** [str.lower()] on text whose cased letters are ASCII: the letters A-Z
    are mapped, every other byte is kept.  (On a string with a cased
    letter outside ASCII Python maps that letter too; properties about
    lower-casing are stated for ASCII strings.) *)
Fixpoint str_lower (s : string) : string :=
  match s with
  | EmptyString => EmptyString
  | String c s' => String (ascii_lower c) (str_lower s')
  end.

(** Case folding as [re.IGNORECASE] applies it to the letters that occur in
    the completion pattern: ASCII letters, U+00CD/U+00ED (the accented i,
    bytes C3 8D / C3 AD) and the two other code points that match [i]
    (U+0130 and U+0131, bytes C4 B0 / C4 B1). *)
Fixpoint casefold (s : string) : string :=
  match s with
  | EmptyString => EmptyString
  | String c s' =>
      match s' with
      | String d s'' =>
          if (Nat.eqb (nat_of_ascii c) 195 && Nat.eqb (nat_of_ascii d) 141)%bool
          then String c (String (ascii_of_nat 173) (casefold s''))
          else if (Nat.eqb (nat_of_ascii c) 196 &&
                   (Nat.eqb (nat_of_ascii d) 176 || Nat.eqb (nat_of_ascii d) 177))%bool
          then String "i"%char (casefold s'')
          else String (ascii_lower c) (casefold s')
      | EmptyString => String (ascii_lower c) EmptyString
      end
  end.

(** [str.contains(p1|p2|..., case=False)] for literal alternatives. *)
Definition str_contains_any_ci (pats : list string) (s : string) : bool :=
  existsb (fun p => str_contains (casefold p) (casefold s)) pats.

Definition str_le (a b : string) : Prop := String.leb a b = true.

#[global] Instance str_le_dec a b : Decision (str_le a b).
Proof. unfold str_le. apply _. Defined.

(** The distinct keys of a [groupby], in the sorted order pandas yields. *)
Definition sorted_unique (l : list string) : list string :=
  merge_sort str_le (remove_dups l).

(** Python truthiness of an optional string ([None] and [''] are false). *)
Definition truthy (o : option string) : bool :=
  match o with Some s => negb (String.eqb s "") | None => false end.

(** [x or default] on an optional string. *)
Definition or_default (o : option string) (d : string) : string :=
  match o with Some s => if String.eqb s "" then d else s | None => d end.

(** ** The canonical output row *)

Record ConversationRecord := mkRecord {
  conversation_id : string;
  channel : string;
  uf : option string;
  priority : option string;
  created_at : option Z;
  completed_at : option Z;
  notification_sent_at : option Z;
  fallback : bool;
  fallback_phrase : option string;
  slots_filled : Z;
  slots_total : Z;
  escalated : bool;
  abandoned : bool;
  intent_final : string;
  protocol : string
}.

(** ** Metrics Engine: [compute_metrics] *)

Record Metrics := mkMetrics {
  total_conv : Z;
  fallback_rate : Q;
  slot_fill_rate : Q;
  avg_completion_min : option Q;
  escalation_rate : Q;
  abandonment_rate : Q;
  reports_by_channel : list (string * Z);
  reports_by_uf : list (string * Z);
  pct_high_priority : Q;
  avg_notif_delay_min : option Q
}.

(** [df[col].nunique()] *)
Definition nunique (l : list string) : Z := Z.of_nat (length (remove_dups l)).

(** [df[mask].shape[0]] *)
Definition count_rows (p : ConversationRecord -> bool) (df : list ConversationRecord) : Z :=
  Z.of_nat (length (filter (fun r => p r = true) df)).

(** The sum of a list of integers, in [Z]. *)
Definition sum_Z (l : list Z) : Z := foldr Z.add 0 l.

(** A signed 64-bit integer: the two's-complement value of [z]. *)
Definition wrap_int64 (z : Z) : Z := (z + 2 ^ 63) mod 2 ^ 64 - 2 ^ 63.

(** [Series.sum()] of an [int64] column: every addition wraps around. *)
Definition sum_int64 (l : list Z) : Z := foldr (fun x acc => wrap_int64 (x + acc)) 0 l.

Definition div_Q (a b : Z) : Q := (inject_Z a / inject_Z b)%Q.

(** [0 if total_conv == 0 else n / total_conv] *)
Definition rate (n total : Z) : Q :=
  if total =? 0 then 0%Q else div_Q n total.

(** [Series.mean()] over the non-null entries; NaN when there is none.
    The value is the exact mean: the float sum pandas forms, whose last
    digits depend on the order of the entries, is not modelled. *)
Definition mean (l : list Q) : option Q :=
  match l with
  | [] => None
  | _ => Some (foldr Qplus 0%Q l / inject_Z (Z.of_nat (length l)))%Q
  end.

(** [(b - a).dt.total_seconds() / 60.0], NaN when either side is NaT. *)
Definition minutes_between (a b : option Z) : option Q :=
  match a, b with
  | Some x, Some y => Some (div_Q (y - x) minute)
  | _, _ => None
  end.

(** [df.groupby(col).size()]: one count per non-null key, keys sorted. *)
Definition group_sizes (keys : list (option string)) : list (string * Z) :=
  let present := omap id keys in
  map (fun k => (k, Z.of_nat (length (filter (fun x => x = k) present))))
      (sorted_unique present).

Definition is_alta (p : option string) : bool :=
  match p with Some s => String.eqb s "Alta" | None => false end.

Definition compute_metrics (df : list ConversationRecord) : Metrics :=
  let total_conv := nunique (map conversation_id df) in
  let fallbacks := count_rows fallback df in
  let fallback_rate := rate fallbacks total_conv in
  let completed := filter (fun r => negb (abandoned r) = true) df in
  let slot_fill_rate :=
    match completed with
    | [] => 0%Q
    | _ =>
        let total_slots := sum_int64 (map slots_total completed) in
        let filled_slots := sum_int64 (map slots_filled completed) in
        if 0 <? total_slots then div_Q filled_slots total_slots else 0%Q
    end in
  let completed_times := filter (fun r => is_Some (completed_at r)) completed in
  let avg_completion :=
    mean (omap (fun r => minutes_between (created_at r) (completed_at r)) completed_times) in
  let escalation_rate := rate (count_rows escalated df) total_conv in
  let abandonment_rate := rate (count_rows abandoned df) total_conv in
  let reports_by_channel := group_sizes (map (fun r => Some (channel r)) df) in
  let reports_by_uf := group_sizes (map uf df) in
  let pct_high_priority := rate (count_rows (fun r => is_alta (priority r)) df) total_conv in
  let notif := filter (fun r => is_Some (notification_sent_at r)) df in
  let avg_notif_delay :=
    mean (omap (fun r => minutes_between (created_at r) (notification_sent_at r)) notif) in
  {| total_conv := total_conv;
     fallback_rate := fallback_rate;
     slot_fill_rate := slot_fill_rate;
     avg_completion_min := avg_completion;
     escalation_rate := escalation_rate;
     abandonment_rate := abandonment_rate;
     reports_by_channel := reports_by_channel;
     reports_by_uf := reports_by_uf;
     pct_high_priority := pct_high_priority;
     avg_notif_delay_min := avg_notif_delay |}.

(** ** Random generators

    [numpy.random.Generator] (and the legacy global [numpy.random]) as an
    interface: the two primitive draws the program uses, with the ranges
    numpy documents for them.  The state is threaded explicitly. *)

Class Generator (S : Type) := {
  (** [default_rng(seed)] *)
  default_rng : Z -> S;
  (** [rng.integers(low, high)]: an integer in the half-open [low, high) *)
  integers : Z -> Z -> S -> Z * S;
  (** [rng.random()]: a float in the half-open [0, 1) *)
  random : S -> Q * S;
  integers_range : forall lo hi s, lo < hi -> lo <= fst (integers lo hi s) < hi;
  random_range : forall s, (0 <= fst (random s) < 1)%Q
}.

Definition Rand (S A : Type) : Type := S -> A * S.

Definition rand_ret {S A} (a : A) : Rand S A := fun s => (a, s).

Definition rand_bind {S A B} (m : Rand S A) (k : A -> Rand S B) : Rand S B :=
  fun s => let '(a, s') := m s in k a s'.

Notation "'let*' x ':=' m 'in' k" := (rand_bind m (fun x => k))
  (at level 10, x name, m at level 100, k at level 200).

Fixpoint rand_map {S A B} (f : A -> Rand S B) (l : list A) : Rand S (list B) :=
  match l with
  | [] => rand_ret []
  | x :: l' =>
      let* y := f x in
      let* ys := rand_map f l' in
      rand_ret (y :: ys)
  end.

(** [n] successive draws of [m]: numpy's [size=n] argument. *)
Definition rand_repeat {S A} (m : Rand S A) (n : nat) : Rand S (list A) :=
  rand_map (fun _ => m) (seq 0 n).

(** [cdf.searchsorted(u, side='right')] over the running sum of the
    weights: the first item whose cumulated weight exceeds [u]. *)
Fixpoint pick_cdf {A} (acc : Q) (items : list (A * Q)) (u : Q) (last : A) : A :=
  match items with
  | [] => last
  | (a, p) :: rest =>
      if Qlt_le_dec u (acc + p) then a else pick_cdf (acc + p)%Q rest u a
  end.

Section Draws.
Context {S : Type} `{Generator S}.

(** [rng.choice(items, p=weights)] *)
Definition choice_p {A} (items : list (A * Q)) (dflt : A) : Rand S A :=
  let* u := random in
  rand_ret (pick_cdf 0%Q items u dflt).

(** [rng.choice(items)] *)
Definition choice {A} (items : list A) (dflt : A) : Rand S A :=
  let* i := integers 0 (Z.of_nat (length items)) in
  rand_ret (nth (Z.to_nat i) items dflt).

(** [rng.random() < p] *)
Definition bernoulli (p : Q) : Rand S bool :=
  let* u := random in
  rand_ret (if Qlt_le_dec u p then true else false).

(** [np.random.uniform(low, high)] *)
Definition uniform (low high : Q) : Rand S Q :=
  let* u := random in
  rand_ret (low + (high - low) * u)%Q.
End Draws.

(** A linear congruential generator: a concrete member of the interface,
    used to run the model. *)
Definition lcg_next (s : Z) : Z :=
  (s * 6364136223846793005 + 1442695040888963407) mod 2 ^ 64.

Definition lcg_integers (lo hi s : Z) : Z * Z :=
  let s' := lcg_next s in
  (if lo <? hi then lo + (s' / 2 ^ 33) mod (hi - lo) else lo, s').

Definition lcg_random (s : Z) : Q * Z :=
  let s' := lcg_next s in
  (Qmake (s' / 2 ^ 11) (2 ^ 53), s').

(** ** Calendar: [strftime('%Y%m%d')] *)

(** Year, month and day of a day count since 1970-01-01 (proleptic
    Gregorian calendar). *)
Definition civil_from_days (days : Z) : Z * Z * Z :=
  let z := days + 719468 in
  let era := z / 146097 in
  let doe := z - era * 146097 in
  let yoe := (doe - doe / 1460 + doe / 36524 - doe / 146096) / 365 in
  let doy := doe - (365 * yoe + yoe / 4 - yoe / 100) in
  let mp := (5 * doy + 2) / 153 in
  let d := doy - (153 * mp + 2) / 5 + 1 in
  let m := if mp <? 10 then mp + 3 else mp - 9 in
  let y := yoe + era * 400 + (if m <=? 2 then 1 else 0) in
  (y, m, d).

(** [f"{n:0{width}d}"] for a non-negative [n] *)
Definition zero_pad (width : nat) (n : Z) : string :=
  let s := pretty (Z.to_N n) in
  String.concat "" (replicate (width - String.length s) "0") +:+ s.

Definition strftime_Ymd (t : Z) : string :=
  let '(y, m, d) := civil_from_days (t / day) in
  zero_pad 4 y +:+ zero_pad 2 m +:+ zero_pad 2 d.

(** ** Synthetic Generator: [generate_synthetic_data] *)

Definition channels : list string := ["web"; "whatsapp"; "facebook"; "telegram"].
Definition ufs : list string := ["sp"; "rj"; "mg"; "rs"; "ba"].
Definition priorities : list (string * Q) :=
  [("Alta", 15 # 100); ("Média", 35 # 100); ("Baixa", 5 # 10)]%Q.
Definition sample_fallbacks : list string :=
  ["não entendi"; "poderia repetir"; "o que você quis dizer"; "erro"; "não sei"].

Section Synthetic.
Context {S : Type} `{Generator S}.

(** One iteration of the loop body, for row number [i]. *)
Definition synthetic_row (start : Z) (i : nat) : Rand S ConversationRecord :=
  let* d := integers 0 90 in
  let* h := integers 0 24 in
  let* m := integers 0 60 in
  let created := start + d * day + h * hour + m * minute in
  let* dur := integers 1 (60 * 48) in
  let completed := created + dur * minute in
  let* pr := choice_p priorities "Baixa" in
  let* notification_delay :=
    (if String.eqb pr "Alta" then
       let* fast := bernoulli (85 # 100) in
       if fast then
         let* n := integers 1 10 in rand_ret (Some (n * minute))
       else
         let* n := integers 11 (60 * 6) in rand_ret (Some (n * minute))
     else rand_ret None) in
  let notification_sent :=
    match notification_delay with
    | Some delay => if delay =? 0 then None else Some (created + delay)
    | None => None
    end in
  let slots_total := 6 in
  let* abandoned := bernoulli (8 # 100) in
  let* slots_filled :=
    (if abandoned then integers 0 slots_total
     else integers 3 (slots_total + 1)) in
  let* fallback := bernoulli (12 # 100) in
  let* fallback_phrase :=
    (if fallback then
       let* p := choice sample_fallbacks "" in rand_ret (Some p)
     else rand_ret None) in
  let* escalated :=
    (if String.eqb pr "Alta" then bernoulli (6 # 10) else rand_ret false) in
  let* channel := choice channels "" in
  let* uf := choice ufs "" in
  rand_ret
    {| conversation_id := "conv_" +:+ pretty i;
       channel := channel;
       uf := Some uf;
       priority := Some pr;
       created_at := Some created;
       completed_at := if abandoned then None else Some completed;
       notification_sent_at := notification_sent;
       fallback := fallback;
       fallback_phrase := fallback_phrase;
       slots_filled := slots_filled;
       slots_total := slots_total;
       escalated := escalated;
       abandoned := abandoned;
       intent_final := if abandoned then "fallback" else "create_report";
       protocol := "SUP-" +:+ strftime_Ymd created +:+ "-" +:+
                   zero_pad 5 (Z.of_nat i) |}.

(** [now] is the value of [datetime.now()]. *)
Definition generate_synthetic_data (now : Z) (num_rows : Z) : list ConversationRecord :=
  let rng := default_rng 42 in
  let start := now - 90 * day in
  fst (rand_map (synthetic_row start) (seq 0 (Z.to_nat num_rows)) rng).
End Synthetic.

(** ** Exceptions *)

Inductive PyError :=
| KeyError (key : string)
| AttributeError (msg : string).

Inductive result (A : Type) :=
| Ok (a : A)
| Raise (e : PyError).
Arguments Ok {A} a.
Arguments Raise {A} e.

Definition result_bind {A B} (m : result A) (k : A -> result B) : result B :=
  match m with Ok a => k a | Raise e => Raise e end.

Notation "'try*' x ':=' m 'in' k" := (result_bind m (fun x => k))
  (at level 10, x name, m at level 100, k at level 200).

(** A loop body run over a list, stopping at the first exception. *)
Fixpoint result_map {A B} (f : A -> result B) (l : list A) : result (list B) :=
  match l with
  | [] => Ok []
  | x :: l' =>
      try* y := f x in
      try* ys := result_map f l' in
      Ok (y :: ys)
  end.

(** ** Raw log frames *)

(** What a cell read from a row can be: a string, NaN (the document has
    no such field) or a stored [None] (the document holds a null there). *)
Inductive PyVal :=
| PNone
| PNaN
| PStr (s : string).

#[global] Instance PyVal_eq_dec : EqDecision PyVal.
Proof. solve_decision. Defined.

(** One log event.  [timestamp] is the cell of the [timestamp] column
    after [pd.to_datetime] (NaT is [None]); [cells] holds the non-null
    cells of the other columns; a null cell is a stored [None] when its
    column is in [none_cells], and NaN otherwise. *)
Record LogRow := mkLogRow {
  timestamp : option Z;
  cells : gmap string string;
  none_cells : gset string
}.

(** [row[col]], for a column of the frame *)
Definition get_cell (r : LogRow) (col : string) : PyVal :=
  match cells r !! col with
  | Some s => PStr s
  | None => if bool_decide (col ∈ none_cells r) then PNone else PNaN
  end.

(** A frame of log events with the default [RangeIndex]: a row's index
    label is its position in [rows]. *)
Record LogFrame := mkLogFrame {
  columns : list string;
  rows : list LogRow
}.

(** [pd.DataFrame()] *)
Definition empty_frame : LogFrame := mkLogFrame [] [].

(** [df.empty] *)
Definition frame_empty (df : LogFrame) : bool :=
  match rows df, columns df with
  | [], _ | _, [] => true
  | _, _ => false
  end.

(** [col in df.columns] *)
Definition has_col (df : LogFrame) (col : string) : bool :=
  bool_decide (col ∈ columns df).

(** [df[col].notna().any()] *)
Definition any_notna (df : LogFrame) (col : string) : bool :=
  existsb (fun r => bool_decide (is_Some (cells r !! col))) (rows df).

Definition set_cell (col : string) (v : PyVal) (r : LogRow) : LogRow :=
  mkLogRow (timestamp r)
           match v with
           | PStr s => <[col := s]> (cells r)
           | PNaN | PNone => delete col (cells r)
           end
           match v with
           | PNone => {[col]} ∪ none_cells r
           | PNaN | PStr _ => none_cells r ∖ {[col]}
           end.

Definition add_col (col : string) (cols : list string) : list string :=
  if bool_decide (col ∈ cols) then cols else cols ++ [col].

(** [df[dst] = df[src]] *)
Definition copy_col (dst src : string) (df : LogFrame) : LogFrame :=
  mkLogFrame (add_col dst (columns df))
             (map (fun r => set_cell dst (get_cell r src) r) (rows df)).

(** [df[dst] = df.index.astype(str)] *)
Definition index_col (dst : string) (df : LogFrame) : LogFrame :=
  mkLogFrame (add_col dst (columns df))
             (imap (fun i r => set_cell dst (PStr (pretty i)) r) (rows df)).

(** [Series.astype(str)] on a cell of a log row: NaN reads ["nan"], a
    stored [None] reads ["None"]. *)
Definition cell_str (r : LogRow) (col : string) : string :=
  match get_cell r col with
  | PStr s => s
  | PNaN => "nan"
  | PNone => "None"
  end.

(** [Series.astype(str)] on a field of an output row, where the two nulls
    are not told apart: a null reads ["nan"]. *)
Definition astype_str (o : option string) : string := default "nan" o.

(** Order of [sort_values('timestamp')]: ascending, NaT last. *)
Definition ts_le (a b : option Z) : bool :=
  match a, b with
  | Some x, Some y => x <=? y
  | _, None => true
  | None, Some _ => false
  end.

Fixpoint insert_by_ts (r : LogRow) (l : list LogRow) : list LogRow :=
  match l with
  | [] => [r]
  | x :: l' =>
      if ts_le (timestamp r) (timestamp x) then r :: l
      else x :: insert_by_ts r l'
  end.

(** [df.sort_values('timestamp')] on the rows.  Rows with equal timestamps
    keep their input order (what numpy's sort does on the short arrays on
    which it falls back to insertion; pandas promises no order there). *)
Definition sort_by_ts (l : list LogRow) : list LogRow :=
  foldr insert_by_ts [] l.

(** ** Session Aggregator: [transform_logs_to_sessions] *)

Definition possible_session_cols : list string :=
  ["dialogflowSessionId"; "session_id"; "sessionId";
   "context.dialogflowSessionId"; "context.session_id";
   "protocolo"].

Definition completion_patterns : list string := ["concluído"; "concluido"; "Fluxo"].

Definition no_astype : PyError :=
  AttributeError "'str' object has no attribute 'astype'".

(** The first candidate, in the fixed order, whose column exists and has a
    non-null cell: the [for col in possible_session_cols] loop up to its
    [break]. *)
Definition session_id_col (df : LogFrame) : option string :=
  List.find (fun col => has_col df col && any_notna df col) possible_session_cols.

(** The frame with its [session_id] column set. *)
Definition with_session_id (df : LogFrame) : LogFrame :=
  match session_id_col df with
  | Some col => copy_col "session_id" col df
  | None => index_col "session_id" df
  end.

(** [df[flat] = df['context.' + flat]] when the flat column is missing
    and the nested one exists. *)
Definition flatten_if_missing (flat : string) (df : LogFrame) : LogFrame :=
  if has_col df flat then df
  else if has_col df ("context." +:+ flat) then copy_col flat ("context." +:+ flat) df
  else df.

Definition normalize_context (df : LogFrame) : LogFrame :=
  foldl (fun d col => flatten_if_missing col d)
        (flatten_if_missing "queryText" (flatten_if_missing "intentName" df))
        ["protocolo"; "prioridade"; "uf"; "channel"].

(** [grp.get(col).dropna().iloc[0]] guarded by [col in grp.columns] and
    by the non-emptiness of the [dropna()]. *)
Definition first_notna (df : LogFrame) (col : string) (grp : list LogRow) : option string :=
  if has_col df col then head (omap (fun r => cells r !! col) grp) else None.

Definition is_fallback_intent (r : LogRow) : bool :=
  bool_decide (cells r !! "intentName" = Some "Default Fallback Intent").

Definition cell_contains (pat col : string) (r : LogRow) : bool :=
  str_contains pat (cell_str r col).

(** The body of the [for session_id, grp in grouped] loop for a group that
    is not skipped.  [df] is the normalized, sorted frame ([grp.columns]
    are its columns); [grp] are the rows of the group, in sorted order. *)
Definition summarize_session (df : LogFrame) (session_id : string) (grp : list LogRow)
  : result ConversationRecord :=
  let created := ts_min (map timestamp grp) in
  (* grp.get('message', '') is the str '' when the column is missing *)
  if negb (has_col df "message") then Raise no_astype else
  let completed_rows :=
    filter (fun r => str_contains_any_ci completion_patterns
                       (cell_str r "message") = true) grp in
  let completed :=
    match completed_rows with
    | [] => None
    | _ => ts_min (map timestamp completed_rows)
    end in
  let '(fallback_flag, phrase) :=
    if has_col df "intentName" && existsb is_fallback_intent grp then
      let q := filter (fun r => is_fallback_intent r = true) grp in
      (true,
       if has_col df "queryText"
       then r ← head q; cells r !! "queryText"
       else None)
    else if existsb (cell_contains "Fallback detectado" "message") grp then (true, None)
    else (false, None) in
  if negb (has_col df "component") then Raise no_astype else
  let notif_rows := filter (fun r => cell_contains "SendGrid" "component" r = true) grp in
  let notification_sent :=
    match notif_rows with
    | [] => None
    | _ => ts_min (map timestamp notif_rows)
    end in
  let priority := first_notna df "prioridade" grp in
  let uf := first_notna df "uf" grp in
  let channel := first_notna df "channel" grp in
  Ok {| conversation_id := session_id;
        channel := or_default channel "web";
        uf := Some (if truthy uf then str_lower (or_default uf "") else "sp");
        priority := Some (or_default priority "Média");
        created_at := created;
        completed_at := completed;
        notification_sent_at := notification_sent;
        fallback := fallback_flag;
        fallback_phrase := phrase;
        slots_filled := 6;
        slots_total := 6;
        escalated := bool_decide (is_Some notification_sent);
        abandoned := bool_decide (completed = None);
        intent_final := "AbrirChamadoSuporte";
        protocol :=
          match first_notna df "protocolo" grp with
          | Some p => p
          | None => "MONGO-" +:+ session_id
          end |}.

Definition session_of (r : LogRow) : option string := cells r !! "session_id".

(** The group keys [groupby('session_id')] iterates over (sorted, nulls
    dropped), without those the loop skips. *)
Definition session_keys (l : list LogRow) : list string :=
  filter (fun k => k <> "" /\ k <> "None") (sorted_unique (omap session_of l)).

Definition group_rows (key : string) (l : list LogRow) : list LogRow :=
  filter (fun r => session_of r = Some key) l.

Definition transform_logs_to_sessions (df_logs : LogFrame) : result (list ConversationRecord) :=
  let df := normalize_context (with_session_id df_logs) in
  if negb (has_col df "timestamp") then Raise (KeyError "timestamp") else
  let sorted := sort_by_ts (rows df) in
  result_map (fun key => summarize_session df key (group_rows key sorted))
             (session_keys sorted).

(** ** Readers *)

(** What a reader meets: no connection configured (or no driver), a query
    that raises, or the rows the query returns. *)
Inductive Source (A : Type) :=
| Unconfigured
| QueryFailed
| Loaded (a : A).
Arguments Unconfigured {A}.
Arguments QueryFailed {A}.
Arguments Loaded {A} a.

(** A row of the [denuncias] table, as the query selects it. *)
Record PgRow := mkPgRow {
  pg_protocolo : string;
  pg_nome : option string;
  pg_email : option string;
  pg_descricao : option string;
  pg_prioridade : option string;
  pg_status : option string;
  pg_uf : option string;
  pg_created_at : option Z;
  pg_titulo : option string;
  pg_data_ocorrido : option Z
}.

(** [load_denuncias_from_postgres], behind the configuration test of its
    caller: every failure is an empty frame. *)
Definition load_denuncias_from_postgres (src : Source (list PgRow)) : list PgRow :=
  match src with
  | Loaded rows => rows
  | Unconfigured | QueryFailed => []
  end.

(** [load_mongodb_logs]: every failure, and an empty result, is
    [pd.DataFrame()]. *)
Definition load_mongodb_logs (src : Source LogFrame) : LogFrame :=
  match src with
  | Loaded docs => match rows docs with [] => empty_frame | _ => docs end
  | Unconfigured | QueryFailed => empty_frame
  end.

(** ** Reconciler: [combine_postgres_and_mongo_data] *)

(** The returned frame: its rows and the [attrs['mongo_logs']] it carries
    on the structured path. *)
Record Reconciled := mkReconciled {
  records : list ConversationRecord;
  mongo_logs_attr : option LogFrame
}.

(** [log.get(col)] on a row of the frame: the cell, or [None] when the
    frame has no such column. *)
Definition series_get (df : LogFrame) (r : LogRow) (col : string) : PyVal :=
  if has_col df col then get_cell r col else PNone.

(** NaN is true, [None] and [''] are false. *)
Definition py_truthy (v : PyVal) : bool :=
  match v with
  | PNone => false
  | PNaN => true
  | PStr s => negb (String.eqb s "")
  end.

(** [log.get('protocolo') or log.get('context.protocolo')] *)
Definition log_protocol (df : LogFrame) (r : LogRow) : PyVal :=
  let p := series_get df r "protocolo" in
  if py_truthy p then p else series_get df r "context.protocolo".

(** [log.get('timestamp')], read for [pd.notna] *)
Definition log_timestamp (df : LogFrame) (r : LogRow) : option Z :=
  if has_col df "timestamp" then timestamp r else None.

Definition sample_phrases : list string := ["não entendi"; "poderia repetir"; "erro"].

(** [pd.to_timedelta(m, unit='minutes')] in nanoseconds *)
Definition to_timedelta_minutes (m : Q) : Z := Qfloor (m * inject_Z minute).

(** The field mapping of the structured rows, before enrichment;
    [completed_at] is no column of this frame. *)
Definition base_record (r : PgRow) : ConversationRecord :=
  {| conversation_id := pg_protocolo r;
     channel := "web";
     uf := pg_uf r;
     priority := pg_prioridade r;
     created_at := pg_created_at r;
     completed_at := None;
     notification_sent_at := None;
     fallback := false;
     fallback_phrase := None;
     slots_filled := 6;
     slots_total := 6;
     escalated := is_alta (pg_prioridade r);
     abandoned := false;
     intent_final := "AbrirChamadoSuporte";
     protocol := pg_protocolo r |}.

Definition set_fallback (fb : bool) (phrase : option string) (r : ConversationRecord) :=
  {| conversation_id := conversation_id r; channel := channel r; uf := uf r;
     priority := priority r; created_at := created_at r;
     completed_at := completed_at r;
     notification_sent_at := notification_sent_at r;
     fallback := fb; fallback_phrase := phrase;
     slots_filled := slots_filled r; slots_total := slots_total r;
     escalated := escalated r; abandoned := abandoned r;
     intent_final := intent_final r; protocol := protocol r |}.

Definition set_notification (t : option Z) (r : ConversationRecord) :=
  {| conversation_id := conversation_id r; channel := channel r; uf := uf r;
     priority := priority r; created_at := created_at r;
     completed_at := completed_at r;
     notification_sent_at := t;
     fallback := fallback r; fallback_phrase := fallback_phrase r;
     slots_filled := slots_filled r; slots_total := slots_total r;
     escalated := escalated r; abandoned := abandoned r;
     intent_final := intent_final r; protocol := protocol r |}.

(** [df.loc[mask, 'notification_sent_at'] = df.loc[mask, 'created_at'] +
    pd.to_timedelta(notif_minutes, unit='minutes')]: the drawn delays go,
    in order, to the rows of priority ["Alta"]. *)
Fixpoint assign_notifications (rs : list ConversationRecord) (ms : list Q)
  : list ConversationRecord :=
  match rs with
  | [] => []
  | r :: rs' =>
      if is_alta (priority r) then
        match ms with
        | m :: ms' =>
            set_notification (add_delta (created_at r) (to_timedelta_minutes m)) r
            :: assign_notifications rs' ms'
        | [] => r :: assign_notifications rs' []
        end
      else r :: assign_notifications rs' ms
  end.

Section Reconciler.
Context {L : Type} {legacy : Generator L}.
Context {S : Type} {pcg : Generator S}.

(** Enrichment of the structured rows from the logs (the branch
    [if not mongo_logs.empty]). *)
Definition enrich_from_logs (mongo_logs : LogFrame) (base : list ConversationRecord)
  : Rand L (result (list ConversationRecord)) :=
  if negb (has_col mongo_logs "message") then rand_ret (Raise no_astype) else
  let fallback_logs :=
    filter (fun r => cell_contains "Fallback detectado" "message" r
                     || (has_col mongo_logs "intentName" && is_fallback_intent r) = true)
           (rows mongo_logs) in
  let fallback_protocols :=
    filter (fun p => py_truthy p = true) (map (log_protocol mongo_logs) fallback_logs) in
  let* with_fallback :=
    rand_map (fun r =>
                if bool_decide (PStr (protocol r) ∈ fallback_protocols) then
                  let* phrase := choice sample_phrases "" in
                  rand_ret (set_fallback true (Some phrase) r)
                else rand_ret (set_fallback false None r))
             base in
  if negb (has_col mongo_logs "component") then rand_ret (Raise no_astype) else
  let notification_logs :=
    filter (fun r => cell_contains "SendGrid" "component" r = true) (rows mongo_logs) in
  (* notification_protocols[p]: the earliest timestamp logged for p *)
  let notified (p : string) : option Z :=
    ts_min (map (log_timestamp mongo_logs)
                (filter (fun r => log_protocol mongo_logs r = PStr p /\ p <> "")
                        notification_logs)) in
  rand_ret (Ok (map (fun r => set_notification (notified (protocol r)) r) with_fallback)).

(** Simulated conversation signals (the branch without logs). *)
Definition enrich_simulated (base : list ConversationRecord)
  : Rand L (list ConversationRecord) :=
  let* flags :=
    rand_repeat (choice_p [(true, 1 # 10); (false, 9 # 10)]%Q false) (length base) in
  let with_fallback := zip_with (fun fb r => set_fallback fb None r) flags base in
  let n_alta := length (filter (fun r => is_alta (priority r) = true) base) in
  let* notif_minutes :=
    (match n_alta with
     | O => rand_ret []
     | _ => rand_repeat (uniform 5 15) n_alta
     end) in
  rand_ret (assign_notifications with_fallback notif_minutes).

(** [now] is [datetime.now()], [g] the state of the global [np.random]. *)
Definition combine_postgres_and_mongo_data
    (now : Z) (database : Source (list PgRow)) (mongo : Source LogFrame)
  : Rand L (result Reconciled) :=
  let pg_data := load_denuncias_from_postgres database in
  let mongo_logs := load_mongodb_logs mongo in
  match pg_data with
  | _ :: _ =>
      let base := map base_record pg_data in
      if negb (frame_empty mongo_logs) then
        let* enriched := enrich_from_logs mongo_logs base in
        rand_ret (try* rs := enriched in Ok (mkReconciled rs (Some mongo_logs)))
      else
        let* rs := enrich_simulated base in
        rand_ret (Ok (mkReconciled rs (Some mongo_logs)))
  | [] =>
      let synthetic :=
        Ok (mkReconciled (generate_synthetic_data (S := S) now 500) None) in
      if negb (frame_empty mongo_logs) then
        match transform_logs_to_sessions mongo_logs with
        | Raise e => rand_ret (Raise e)
        | Ok sessions_df =>
            match sessions_df with
            | _ :: _ => rand_ret (Ok (mkReconciled sessions_df None))
            | [] => rand_ret synthetic
            end
        end
      else rand_ret synthetic
  end.
End Reconciler.

(** ** Configuration: [get_config] *)

(** A configuration value: a string, or a section (a value for which
    [isinstance(v, dict)] holds), whose entries are strings here. *)
Inductive ConfigValue :=
| CfgStr (s : string)
| CfgSection (entries : list (string * string)).

(** [d[key]] on a dict given by its items *)
Fixpoint dict_get {A} (key : string) (items : list (string * A)) : option A :=
  match items with
  | [] => None
  | (k, v) :: rest => if String.eqb k key then Some v else dict_get key rest
  end.

(** The loop over [st.secrets.values()]: the entry of the first section
    that has the key. *)
Fixpoint nested_get (key : string) (items : list (string * ConfigValue)) : option string :=
  match items with
  | [] => None
  | (_, CfgSection entries) :: rest =>
      match dict_get key entries with
      | Some v => Some v
      | None => nested_get key rest
      end
  | (_, CfgStr _) :: rest => nested_get key rest
  end.

(** [environ] is [os.environ]; [secrets] is [st.secrets], [None] when
    reading it raises (the [except Exception: pass]). *)
Definition get_config (environ : gmap string string)
    (secrets : option (list (string * ConfigValue)))
    (key : string) (default : option ConfigValue) : option ConfigValue :=
  let from_secrets :=
    match secrets with
    | Some items =>
        match dict_get key items with
        | Some v => Some v
        | None =>
            match nested_get key items with
            | Some v => Some (CfgStr v)
            | None => default
            end
        end
    | None => default
    end in
  match environ !! key with
  | Some val => if negb (String.eqb val "") then Some (CfgStr val) else from_secrets
  | None => from_secrets
  end.

(** ** The log database name (in [load_mongodb_logs]) *)

(** [s.split(sep)] for a one-character separator *)
Fixpoint split_on (sep : ascii) (s : string) : list string :=
  match s with
  | EmptyString => [EmptyString]
  | String c s' =>
      if Ascii.eqb c sep then EmptyString :: split_on sep s'
      else match split_on sep s' with
           | seg :: rest => String c seg :: rest
           | [] => [String c EmptyString]
           end
  end.

(** The database the reader opens: the segment of the URI after its last
    ['/'] up to the first ['?'], when the URI has both characters and the
    segment is not empty; ["logs_sprint4"] otherwise. *)
Definition mongo_db_name (mongo_uri : string) : string :=
  if str_contains "/" mongo_uri && str_contains "?" mongo_uri then
    let db_name := hd "" (split_on "?" (List.last (split_on "/" mongo_uri) "")) in
    if negb (String.eqb db_name "") then db_name else "logs_sprint4"
  else "logs_sprint4".

(** ** Cleaning: [clean_dataframe] *)

(** [df[col].astype(str).replace(['nan', 'None', ''], pd.NA).fillna(fill)] on a
    cell *)
Definition clean_text (fill : string) (o : option string) : string :=
  let s := astype_str o in
  if bool_decide (s ∈ ["nan"; "None"; ""]) then fill else s.

(** One row of the cleaned frame.  The time, boolean and numeric columns
    already have their types, so their coercions change nothing. *)
Definition clean_record (r : ConversationRecord) : ConversationRecord :=
  {| conversation_id := clean_text "unknown" (Some (conversation_id r));
     channel := clean_text "unknown" (Some (channel r));
     uf := Some (clean_text "N/I" (uf r));
     priority := Some (clean_text "N/I" (priority r));
     created_at := created_at r;
     completed_at := completed_at r;
     notification_sent_at := notification_sent_at r;
     fallback := fallback r;
     fallback_phrase := fallback_phrase r;
     slots_filled := slots_filled r;
     slots_total := slots_total r;
     escalated := escalated r;
     abandoned := abandoned r;
     intent_final := intent_final r;
     protocol := protocol r |}.

Definition clean_dataframe (df : list ConversationRecord) : list ConversationRecord :=
  map clean_record df.

(** ** Vocabulary of the properties *)

(** The range of a signed 64-bit integer. *)
Definition in_int64 (z : Z) : Prop := - 2 ^ 63 <= z < 2 ^ 63.

(** What each generated row satisfies. *)
Definition synthetic_row_ok (r : ConversationRecord) : Prop :=
  (abandoned r = true -> slots_filled r < slots_total r /\ completed_at r = None) /\
  (abandoned r = false -> 3 <= slots_filled r <= slots_total r) /\
  (escalated r = true -> priority r = Some "Alta") /\
  (notification_sent_at r <> None -> priority r = Some "Alta").

(** [post m P]: every run of [m] returns a value that satisfies [P]. *)
Definition post {S A} (m : Rand S A) (P : A -> Prop) : Prop :=
  forall s, P (fst (m s)).

Definition ts_sorted (l : list (option Z)) : Prop :=
  StronglySorted (fun a b => ts_le a b = true) l.

Definition row_le (a b : LogRow) : Prop := ts_le (timestamp a) (timestamp b) = true.

Definition open_case (r : ConversationRecord) : Prop :=
  abandoned r = false /\ completed_at r = None.

(** How a row of the simulated enrichment relates to the row it comes
    from: only [fallback] and, for priority ["Alta"], the notification
    time are set. *)
Definition simulated_from (b r : ConversationRecord) : Prop :=
  conversation_id r = conversation_id b /\
  channel r = channel b /\
  slots_total r = slots_total b /\
  abandoned r = abandoned b /\
  completed_at r = completed_at b /\
  fallback_phrase r = None /\
  created_at r = created_at b /\
  if is_alta (priority b)
  then exists d, 5 * minute <= d <= 15 * minute /\
                 notification_sent_at r = add_delta (created_at b) d
  else notification_sent_at r = notification_sent_at b.

Definition fallback_draws {L} `{Generator L} (n : nat) : Rand L (list bool) :=
  rand_repeat (choice_p [(true, 1 # 10); (false, 9 # 10)]%Q false) n.

(** On a frame with columns [cols], [F] maps one function over the rows;
    that function keeps the timestamp and the session identifier. *)
Definition rowwise (F : LogFrame -> LogFrame) : Prop :=
  forall cols, exists cols' h,
    (forall rs, F (mkLogFrame cols rs) = mkLogFrame cols' (map h rs)) /\
    (forall r, timestamp (h r) = timestamp r) /\
    (forall r, session_of (h r) = session_of r) /\
    (forall c, c ∈ cols -> c ∈ cols').

Definition is_digit (c : ascii) : bool :=
  (Nat.leb 48 (nat_of_ascii c) && Nat.leb (nat_of_ascii c) 57)%bool.

Fixpoint digits_only (s : string) : bool :=
  match s with
  | EmptyString => true
  | String c s' => is_digit c && digits_only s'
  end.

(** What the scenario expects of the aggregated batch. *)
Definition scenario_outcome (t2 : Z) (res : result (list ConversationRecord)) : Prop :=
  match res with
  | Ok [r] =>
      conversation_id r = "s1" /\
      fallback r = true /\
      fallback_phrase r = Some "não entendi" /\
      completed_at r = Some t2 /\
      abandoned r = false
  | _ => False
  end.

(** ** Sample inputs *)

Definition log_row (t : Z) (fields : list (string * string)) : LogRow :=
  mkLogRow (Some t) (list_to_map fields) ∅.

Definition row_ok : ConversationRecord :=
  mkRecord "c1" "web" (Some "sp") (Some "Alta") (Some 0) (Some minute) None
           true (Some "erro") 4 6 true false "create_report" "SUP-1".

(** A completed row with the given slot counts. *)
Definition row_slots (id : string) (filled total : Z) : ConversationRecord :=
  mkRecord id "web" (Some "sp") (Some "Baixa") (Some 0) (Some minute) None
           false None filled total false false "create_report" "SUP-0".

Definition row_abandoned : ConversationRecord :=
  mkRecord "c2" "web" (Some "rj") (Some "Baixa") (Some 0) None None
           false None 2 6 false true "fallback" "SUP-2".

(** Three entries of session ["s1"], the session identifier held in the
    column [c]; cells the scenario does not mention are null. *)
Definition scenario_logs (c : string) (t0 t1 t2 : Z) : LogFrame :=
  mkLogFrame
    ["timestamp"; "component"; "level"; "message"; c; "intentName"; "queryText"]
    [ log_row t0 [(c, "s1"); ("message", "iniciado")];
      log_row t1 [(c, "s1"); ("intentName", "Default Fallback Intent");
                  ("queryText", "não entendi")];
      log_row t2 [(c, "s1"); ("message", "Fluxo concluído")] ].

(** The same three entries read from documents that hold exactly the
    fields the scenario lists: the frame has no [component] column. *)
Definition scenario_documents (c : string) (t0 t1 t2 : Z) : LogFrame :=
  mkLogFrame [c; "timestamp"; "message"; "intentName"; "queryText"]
             (rows (scenario_logs c t0 t1 t2)).

Definition case_row (prot prio : string) (t : Z) : PgRow :=
  mkPgRow prot (Some "Ana") (Some "ana@example.org") (Some "sem acesso")
          (Some prio) (Some "aberto") (Some "sp") (Some t) (Some "Acesso") None.

(** A log batch none of whose documents has a [message] field. *)
Definition logs_without_message : LogFrame :=
  mkLogFrame ["_id"; "timestamp"; "dialogflowSessionId"]
             [log_row 0 [("_id", "65f0"); ("dialogflowSessionId", "s1")]].

Definition logs_only_result : Reconciled :=
  mkReconciled
    [ {| conversation_id := "s1"; channel := "web"; uf := Some "sp";
         priority := Some "Média"; created_at := Some 0;
         completed_at := Some (10 * minute); notification_sent_at := None;
         fallback := true; fallback_phrase := Some "não entendi";
         slots_filled := 6; slots_total := 6; escalated := false;
         abandoned := false; intent_final := "AbrirChamadoSuporte";
         protocol := "MONGO-s1" |} ]
    None.

(** Two events; the session identifier is missing from the second. *)
Definition logs_missing_session : LogFrame :=
  mkLogFrame ["timestamp"; "component"; "message"; "dialogflowSessionId"]
             [ log_row 0 [("dialogflowSessionId", "s1"); ("message", "oi")];
               log_row minute [("message", "sem identificador")] ].

Definition fallback_event (t : Z) (query : string) : LogRow :=
  log_row t [("session_id", "s1"); ("intentName", "Default Fallback Intent");
             ("queryText", query)].

Definition fallback_logs (rs : list LogRow) : LogFrame :=
  mkLogFrame ["timestamp"; "component"; "message"; "session_id"; "intentName"; "queryText"] rs.

Definition hits (x : string) (ks : list string) : Z :=
  Z.of_nat (length (filter (fun k => x = k) ks)).

Definition sum_counts (ks l : list string) : Z :=
  sum_Z (map (fun k => Z.of_nat (length (filter (fun x => x = k) l))) ks).

(** The batch has a group the aggregation loop does not skip: a usable
    value in the winning column or, without a winning column, a row. *)
Definition has_session (f : LogFrame) : Prop :=
  match session_id_col f with
  | Some c => exists r k, r ∈ rows f /\ cells r !! c = Some k /\ k <> "" /\ k <> "None"
  | None => rows f <> []
  end.

(** The time window of a generated row: opened within the 90 days before
    [now], completed between one minute and 48 hours later, notified
    between one minute and six hours later. *)
Definition synthetic_times_ok (now : Z) (r : ConversationRecord) : Prop :=
  exists c,
    created_at r = Some c /\
    now - 90 * day <= c < now /\
    (forall d, completed_at r = Some d -> c + minute <= d < c + 48 * hour) /\
    (forall t, notification_sent_at r = Some t -> c + minute <= t < c + 6 * hour).

(** The vocabularies a generated row draws from. *)
Definition synthetic_vocabulary_ok (r : ConversationRecord) : Prop :=
  channel r ∈ channels /\
  (exists u, uf r = Some u /\ u ∈ ufs) /\
  (exists p, priority r = Some p /\ p ∈ ["Alta"; "Média"; "Baixa"]) /\
  slots_total r = 6 /\
  match fallback_phrase r with
  | Some ph => fallback r = true /\ ph ∈ sample_fallbacks
  | None => fallback r = false
  end /\
  intent_final r = (if abandoned r then "fallback" else "create_report").

(** A returned structured row [r] against the case [p] it was built
    from: the fields the field mapping fixes. *)
Definition maps_case (p : PgRow) (r : ConversationRecord) : Prop :=
  conversation_id r = pg_protocolo p /\
  protocol r = pg_protocolo p /\
  priority r = pg_prioridade p /\
  uf r = pg_uf p /\
  created_at r = pg_created_at p /\
  channel r = "web" /\
  slots_filled r = 6 /\ slots_total r = 6 /\
  escalated r = is_alta (pg_prioridade p) /\
  abandoned r = false /\ completed_at r = None /\
  intent_final r = "AbrirChamadoSuporte".

(** A log row that signals a fallback: its message contains
    "Fallback detectado" or its intent is the fallback intent. *)
Definition is_fallback_log (logs : LogFrame) (l : LogRow) : Prop :=
  cell_contains "Fallback detectado" "message" l = true \/
  (has_col logs "intentName" = true /\
   cells l !! "intentName" = Some "Default Fallback Intent").

(** The log row [l] names the protocol [p]: [p] is not empty and is the
    row's [protocolo] cell or, when the frame has no [protocolo] column
    or that cell is the empty string or a stored [None] (but not when it
    is NaN, which Python takes for true), its [context.protocolo]
    cell. *)
Definition names_protocol (logs : LogFrame) (l : LogRow) (p : string) : Prop :=
  p <> "" /\
  ((has_col logs "protocolo" = true /\ cells l !! "protocolo" = Some p) \/
   ((has_col logs "protocolo" = false \/
     cells l !! "protocolo" = Some "" \/
     (cells l !! "protocolo" = None /\ "protocolo" ∈ none_cells l)) /\
    has_col logs "context.protocolo" = true /\
    cells l !! "context.protocolo" = Some p)).

(** A log row of the notification component that names protocol [p]. *)
Definition is_notification_of (logs : LogFrame) (p : string) (l : LogRow) : Prop :=
  l ∈ rows logs /\
  cell_contains "SendGrid" "component" l = true /\
  names_protocol logs l p.







(** [c in s] for a character *)
Fixpoint has_char (c : ascii) (s : string) : bool :=
  match s with
  | EmptyString => false
  | String d s' => Ascii.eqb d c || has_char c s'
  end.

(** The values [clean_dataframe] replaces in a text column. *)
Definition blank_texts : list string := ["nan"; "None"; ""].

(** A cleaned row: no text column is null or blank. *)
Definition cleaned (r : ConversationRecord) : Prop :=
  (conversation_id r ∉ blank_texts) /\
  (channel r ∉ blank_texts) /\
  (exists u, uf r = Some u /\ (u ∉ blank_texts)) /\
  (exists p, priority r = Some p /\ (p ∉ blank_texts)).

(* ===================================================================== *)
(** * Properties *)
(* ===================================================================== *)

Example casefold_ex : casefold "Fluxo CONCLUÍDO" = "fluxo concluído".
Proof. reflexivity. Qed.

(** ** Metrics Engine *)

Section Metrics.

Implicit Types (df : list ConversationRecord) (r : ConversationRecord).

Lemma rate_zero_total n : rate n 0 = 0%Q.
Proof. reflexivity. Qed.

Lemma rate_nonzero n total : total <> 0 -> rate n total = div_Q n total.
Proof. intros H. unfold rate. destruct (Z.eqb_spec total 0); congruence. Qed.

Lemma div_Q_unit_interval n total :
  0 <= n <= total -> 0 < total -> (0 <= div_Q n total <= 1)%Q.
Proof.
  intros [Hn Hle] Hpos. unfold div_Q.
  assert (Ht : (0 < inject_Z total)%Q) by (rewrite (Zlt_Qlt 0 total) in Hpos; exact Hpos).
  split.
  - apply Qle_shift_div_l; [exact Ht|]. rewrite Qmult_0_l.
    rewrite (Zle_Qle 0 n) in Hn. exact Hn.
  - apply Qle_shift_div_r; [exact Ht|]. rewrite Qmult_1_l.
    rewrite <- Zle_Qle. exact Hle.
Qed.

Lemma rate_unit_interval n total :
  0 <= n <= total -> (0 <= rate n total <= 1)%Q.
Proof.
  intros H. unfold rate. destruct (Z.eqb_spec total 0) as [->|Hne].
  - split; [apply Qle_refl | discriminate].
  - apply div_Q_unit_interval; lia.
Qed.

Lemma count_rows_bounds p df : 0 <= count_rows p df <= Z.of_nat (length df).
Proof.
  unfold count_rows. split; [lia|].
  apply inj_le, length_filter.
Qed.

Lemma nunique_NoDup (l : list string) : NoDup l -> nunique l = Z.of_nat (length l).
Proof.
  intros H. unfold nunique. f_equal.
  apply Permutation_length, NoDup_Permutation.
  - apply NoDup_remove_dups.
  - exact H.
  - intros x. apply elem_of_remove_dups.
Qed.

Lemma nunique_pair_same (a : string) : nunique [a; a] = 1.
Proof.
  unfold nunique. cbn [remove_dups].
  destruct (decide_rel elem_of a [a]) as [_|Hn]; [|exfalso; apply Hn; set_solver].
  destruct (decide_rel elem_of a []) as [He|_]; [set_solver|reflexivity].
Qed.

Lemma count_rows_pair p r1 r2 :
  p r1 = true -> p r2 = true -> count_rows p [r1; r2] = 2.
Proof.
  intros H1 H2. unfold count_rows.
  rewrite filter_cons_True by exact H1.
  rewrite filter_cons_True by exact H2. reflexivity.
Qed.

Lemma rate_unique_ids p df :
  NoDup (map conversation_id df) ->
  (0 <= rate (count_rows p df) (nunique (map conversation_id df)) <= 1)%Q.
Proof.
  intros H. apply rate_unit_interval.
  rewrite (nunique_NoDup _ H), length_map. apply count_rows_bounds.
Qed.

Lemma filter_not_abandoned df :
  filter (fun r => negb (abandoned r) = true) df = filter (fun r => abandoned r = false) df.
Proof.
  apply list_filter_iff. intros r. destruct (abandoned r); simpl; split; congruence.
Qed.

Lemma sum_Z_nonneg (l : list Z) : Forall (fun x => 0 <= x) l -> 0 <= sum_Z l.
Proof. induction 1; simpl; lia. Qed.

Lemma wrap_int64_exact z : in_int64 z -> wrap_int64 z = z.
Proof.
  unfold in_int64, wrap_int64. intros Hz.
  rewrite Z.mod_small by lia. lia.
Qed.

Lemma wrap_int64_add x y : wrap_int64 (x + wrap_int64 y) = wrap_int64 (x + y).
Proof.
  unfold wrap_int64. f_equal.
  replace (x + ((y + 2 ^ 63) mod 2 ^ 64 - 2 ^ 63) + 2 ^ 63)
    with (x + (y + 2 ^ 63) mod 2 ^ 64) by lia.
  rewrite Z.add_mod_idemp_r by lia. f_equal. lia.
Qed.

(** The wrapping sum is the exact sum reduced to 64 bits. *)
Lemma sum_int64_wrap (l : list Z) : sum_int64 l = wrap_int64 (sum_Z l).
Proof.
  induction l as [|x l IH]; [reflexivity|].
  cbn [sum_int64 sum_Z foldr]. fold (sum_int64 l). fold (sum_Z l).
  rewrite IH. apply wrap_int64_add.
Qed.

Lemma sum_int64_exact (l : list Z) : in_int64 (sum_Z l) -> sum_int64 l = sum_Z l.
Proof. intros Hl. rewrite sum_int64_wrap. apply wrap_int64_exact, Hl. Qed.

(** The slot fill rate, exactly as the code computes it. *)
Lemma slot_fill_rate_code df :
  slot_fill_rate (compute_metrics df) =
    if 0 <? sum_int64 (map slots_total (filter (fun r => abandoned r = false) df))
    then div_Q (sum_int64 (map slots_filled (filter (fun r => abandoned r = false) df)))
               (sum_int64 (map slots_total (filter (fun r => abandoned r = false) df)))
    else 0%Q.
Proof.
  unfold compute_metrics. cbn [slot_fill_rate]. rewrite filter_not_abandoned.
  destruct (filter (fun r => abandoned r = false) df) eqn:E; reflexivity.
Qed.

(** C4: on the empty record set [compute_metrics] returns
    [total_conv = 0] and the value 0 for every rate field (fallback,
    slot fill, escalation, abandonment, share of high priority). *)
Theorem compute_metrics_empty :
  let m := compute_metrics [] in
  total_conv m = 0 /\
  fallback_rate m = 0%Q /\
  slot_fill_rate m = 0%Q /\
  escalation_rate m = 0%Q /\
  abandonment_rate m = 0%Q /\
  pct_high_priority m = 0%Q.
Proof. repeat split. Qed.

(** C7, as the code has it: for a record set whose slot totals are
    non-negative (the type the data model gives them) and whose two sums
    over the non-abandoned rows fit in a signed 64-bit integer,
    [slot_fill_rate] is the sum of [slots_filled] over the non-abandoned
    rows divided by the sum of [slots_total] over the non-abandoned rows,
    and it is 0 when that denominator is zero, which includes the case
    of no non-abandoned row. *)
Theorem slot_fill_rate_spec df :
  Forall (fun r => 0 <= slots_total r) df ->
  let completed := filter (fun r => abandoned r = false) df in
  let den := sum_Z (map slots_total completed) in
  let num := sum_Z (map slots_filled completed) in
  in_int64 den -> in_int64 num ->
  (den <> 0 -> slot_fill_rate (compute_metrics df) = div_Q num den) /\
  (den = 0 -> slot_fill_rate (compute_metrics df) = 0%Q) /\
  (completed = [] -> slot_fill_rate (compute_metrics df) = 0%Q).
Proof.
  intros Hnn completed den num Hden64 Hnum64.
  pose proof (slot_fill_rate_code df) as Hc.
  fold completed in Hc.
  rewrite (sum_int64_exact _ Hden64), (sum_int64_exact _ Hnum64) in Hc.
  fold den in Hc. fold num in Hc.
  assert (Hden : 0 <= den).
  { apply sum_Z_nonneg, Forall_map. unfold completed.
    apply Forall_forall. intros r Hr.
    apply list_elem_of_filter in Hr as [_ Hr].
    rewrite Forall_forall in Hnn. apply Hnn, Hr. }
  rewrite Hc. repeat split.
  - intros Hne. destruct (Z.ltb_spec 0 den); [reflexivity | lia].
  - intros ->. reflexivity.
  - intros Hem. subst den. rewrite Hem. reflexivity.
Qed.

Lemma slot_fill_rate_spec_witness :
  slot_fill_rate (compute_metrics [row_ok; row_abandoned]) = div_Q 4 6.
Proof.
  refine (proj1 (slot_fill_rate_spec [row_ok; row_abandoned] _ _ _) _).
  - repeat constructor; simpl; lia.
  - vm_compute. split; [discriminate | reflexivity].
  - vm_compute. split; [discriminate | reflexivity].
  - vm_compute. discriminate.
Defined.

(** C7, counterexample: two completed rows with [2^62] slots each, all
    filled.  Both sums are [2^63], one more than a signed 64-bit integer
    holds; the column sums wrap around to [-2^63], the test
    [total_slots > 0] fails and the rate is 0 where the two sums give
    1. *)
Lemma slot_sums_wrap_around :
  let df := [row_slots "c1" (2 ^ 62) (2 ^ 62); row_slots "c2" (2 ^ 62) (2 ^ 62)] in
  let completed := filter (fun r => abandoned r = false) df in
  Forall (fun r => 0 <= slots_total r) df /\
  sum_Z (map slots_total completed) = 2 ^ 63 /\
  sum_Z (map slots_filled completed) = 2 ^ 63 /\
  sum_int64 (map slots_total completed) = - 2 ^ 63 /\
  slot_fill_rate (compute_metrics df) = 0%Q /\
  ~ (slot_fill_rate (compute_metrics df) ==
     div_Q (sum_Z (map slots_filled completed)) (sum_Z (map slots_total completed)))%Q.
Proof.
  cbn zeta. split.
  { repeat constructor; vm_compute; discriminate. }
  repeat split; try (vm_compute; reflexivity).
  vm_compute. discriminate.
Qed.

(** C10: the four boolean rates divide a raw row count by the number of
    distinct [conversation_id]s.  Two rows that share one id and both
    carry [fallback = true] give a fallback rate of 2; when the ids are
    pairwise distinct the four rates lie in [0, 1]. *)
Theorem rates_over_distinct_ids :
  (forall df,
     let m := compute_metrics df in
     let n := nunique (map conversation_id df) in
     fallback_rate m = rate (count_rows fallback df) n /\
     escalation_rate m = rate (count_rows escalated df) n /\
     abandonment_rate m = rate (count_rows abandoned df) n /\
     pct_high_priority m = rate (count_rows (fun r => is_alta (priority r)) df) n) /\
  (forall r1 r2,
     conversation_id r1 = conversation_id r2 ->
     fallback r1 = true -> fallback r2 = true ->
     (fallback_rate (compute_metrics [r1; r2]) == 2)%Q /\
     (1 < fallback_rate (compute_metrics [r1; r2]))%Q) /\
  (forall df,
     NoDup (map conversation_id df) ->
     let m := compute_metrics df in
     (0 <= fallback_rate m <= 1)%Q /\
     (0 <= escalation_rate m <= 1)%Q /\
     (0 <= abandonment_rate m <= 1)%Q /\
     (0 <= pct_high_priority m <= 1)%Q).
Proof.
  split; [|split].
  - intros df. repeat split.
  - intros r1 r2 Hid H1 H2.
    assert (E : fallback_rate (compute_metrics [r1; r2]) = div_Q 2 1).
    { unfold compute_metrics. cbn [fallback_rate].
      rewrite (count_rows_pair fallback r1 r2 H1 H2). cbn [map].
      rewrite Hid, nunique_pair_same. reflexivity. }
    rewrite E. split; reflexivity.
  - intros df Hnd. cbn zeta.
    repeat split; apply (rate_unique_ids _ df Hnd).
Qed.

Lemma rates_over_distinct_ids_witness :
  (fallback_rate (compute_metrics [row_ok; row_ok]) == 2)%Q /\
  (0 <= fallback_rate (compute_metrics [row_ok; row_abandoned]) <= 1)%Q.
Proof.
  destruct rates_over_distinct_ids as (_ & Hdup & Huniq). split.
  - apply (Hdup row_ok row_ok); reflexivity.
  - apply (Huniq [row_ok; row_abandoned]).
    apply (bool_decide_unpack _). vm_compute. exact I.
Defined.

End Metrics.

(** ** Random generators *)

Lemma lcg_next_range s : 0 <= lcg_next s < 2 ^ 64.
Proof. unfold lcg_next. apply Z.mod_pos_bound. lia. Qed.

Lemma lcg_integers_range lo hi s :
  lo < hi -> lo <= fst (lcg_integers lo hi s) < hi.
Proof.
  intros Hlt. unfold lcg_integers. cbn [fst].
  destruct (Z.ltb_spec lo hi); [|lia].
  pose proof (Z.mod_pos_bound (lcg_next s / 2 ^ 33) (hi - lo)). lia.
Qed.

Lemma lcg_random_range s : (0 <= fst (lcg_random s) < 1)%Q.
Proof.
  unfold lcg_random. cbn [fst].
  pose proof (lcg_next_range s) as [Hlo Hhi].
  assert (0 <= lcg_next s / 2 ^ 11 < 2 ^ 53).
  { split; [apply Z.div_pos; lia|].
    apply Z.div_lt_upper_bound; [lia|]. exact Hhi. }
  unfold Qle, Qlt. cbn [Qnum Qden]. lia.
Qed.

#[global] Instance lcg_generator : Generator Z := {|
  default_rng := fun seed => seed;
  integers := lcg_integers;
  random := lcg_random;
  integers_range := lcg_integers_range;
  random_range := lcg_random_range
|}.

Example strftime_epoch : strftime_Ymd 0 = "19700101".
Proof. reflexivity. Qed.

Example strftime_leap_day : strftime_Ymd (19782 * day + 23 * hour) = "20240229".
Proof. vm_compute. reflexivity. Qed.

Example strftime_2026 : strftime_Ymd (1793664000 * 1000000000) = "20261103".
Proof. vm_compute. reflexivity. Qed.

(** ** Synthetic Generator *)

Section SyntheticProps.
Context {S : Type} `{Generator S}.

Lemma post_ret {A} (a : A) (P : A -> Prop) : P a -> post (S := S) (rand_ret a) P.
Proof. intros Ha s. exact Ha. Qed.

Lemma post_bind {A B} (m : Rand S A) (k : A -> Rand S B) (P : A -> Prop) (Q : B -> Prop) :
  post m P -> (forall a, P a -> post (k a) Q) -> post (rand_bind m k) Q.
Proof.
  intros Hm Hk s. unfold rand_bind.
  specialize (Hm s). destruct (m s) as [a s1]. apply (Hk a Hm).
Qed.

Lemma post_trivial {A} (m : Rand S A) : post m (fun _ => True).
Proof. intros s. exact I. Qed.

Lemma post_integers lo hi : lo < hi -> post (integers lo hi) (fun x => lo <= x < hi).
Proof. intros Hlt s. apply integers_range, Hlt. Qed.

Lemma post_rand_map_length {A B} (f : A -> Rand S B) (l : list A) :
  post (rand_map f l) (fun ys => length ys = length l).
Proof.
  induction l as [|x l IH]; cbn [rand_map].
  - apply post_ret. reflexivity.
  - eapply post_bind; [apply post_trivial | intros y _].
    eapply post_bind; [apply IH | intros ys Hys].
    apply post_ret. cbn [length]. congruence.
Qed.

Lemma post_rand_map_Forall {A B} (P : B -> Prop) (f : A -> Rand S B) (l : list A) :
  (forall x, post (f x) P) -> post (rand_map f l) (Forall P).
Proof.
  intros Hf. induction l as [|x l IH]; cbn [rand_map].
  - apply post_ret. constructor.
  - eapply post_bind; [apply Hf | intros y Hy].
    eapply post_bind; [apply IH | intros ys Hys].
    apply post_ret. constructor; assumption.
Qed.

(** Step over a draw whose value the property does not depend on. *)
Ltac any_draw := eapply post_bind; [apply post_trivial | intros ? _].

Lemma synthetic_row_spec start i :
  post (synthetic_row start i) synthetic_row_ok.
Proof.
  unfold synthetic_row.
  do 4 any_draw.
  eapply post_bind; [apply post_trivial | intros pr _].
  eapply post_bind with (P := fun delay => delay <> None -> pr = "Alta").
  { destruct (String.eqb_spec pr "Alta") as [->|Hne].
    - intros s _. reflexivity.
    - apply post_ret. congruence. }
  intros delay Hdelay.
  eapply post_bind; [apply post_trivial | intros ab _].
  eapply post_bind with
    (P := fun filled => if ab then 0 <= filled < 6 else 3 <= filled < 6 + 1).
  { destruct ab; apply post_integers; lia. }
  intros filled Hfilled.
  eapply post_bind; [apply post_trivial | intros fb _].
  eapply post_bind; [apply post_trivial | intros phrase _].
  eapply post_bind with (P := fun esc => esc = true -> pr = "Alta").
  { destruct (String.eqb_spec pr "Alta") as [->|Hne].
    - intros s _. reflexivity.
    - apply post_ret. discriminate. }
  intros esc Hesc.
  do 2 any_draw.
  apply post_ret. unfold synthetic_row_ok. cbn.
  repeat split.
  - destruct ab; [lia | discriminate].
  - destruct ab; [reflexivity | discriminate].
  - destruct ab; [discriminate | lia].
  - destruct ab; [discriminate | lia].
  - intros He. f_equal. apply Hesc, He.
  - intros Hn. f_equal. apply Hdelay. intros ->. apply Hn. reflexivity.
Qed.

Lemma synthetic_row_completion start i :
  post (synthetic_row start i)
       (fun r => abandoned r = true <-> completed_at r = None).
Proof.
  unfold synthetic_row.
  do 6 any_draw.
  eapply post_bind; [apply post_trivial | intros ab _].
  do 6 any_draw.
  apply post_ret. cbn. destruct ab; split; congruence.
Qed.

Lemma generate_synthetic_data_completion (now num_rows : Z) :
  Forall (fun r => abandoned r = true <-> completed_at r = None)
         (generate_synthetic_data now num_rows).
Proof.
  unfold generate_synthetic_data.
  apply post_rand_map_Forall. intros i. apply synthetic_row_completion.
Qed.

Lemma generate_synthetic_data_length (now num_rows : Z) :
  length (generate_synthetic_data now num_rows) = Z.to_nat num_rows.
Proof.
  unfold generate_synthetic_data. rewrite post_rand_map_length. apply length_seq.
Qed.

(** C8: the Synthetic Generator is a total function that returns exactly
    [num_rows] rows, and every row satisfies: abandoned rows have
    [slots_filled < slots_total] and a null [completed_at]; non-abandoned
    rows have [3 <= slots_filled <= slots_total]; [escalated] holds only
    for priority ["Alta"]; [notification_sent_at] is non-null only for
    priority ["Alta"]. *)
Theorem generate_synthetic_data_spec (now num_rows : Z) :
  0 <= num_rows ->
  Z.of_nat (length (generate_synthetic_data now num_rows)) = num_rows /\
  Forall synthetic_row_ok (generate_synthetic_data now num_rows).
Proof.
  intros Hn. split.
  - rewrite generate_synthetic_data_length. lia.
  - unfold generate_synthetic_data.
    apply post_rand_map_Forall. intros i. apply synthetic_row_spec.
Qed.
End SyntheticProps.

Lemma generate_synthetic_data_spec_witness :
  Z.of_nat (length (generate_synthetic_data (S := Z) (1793664000 * 1000000000) 500)) = 500 /\
  Forall synthetic_row_ok (generate_synthetic_data (S := Z) (1793664000 * 1000000000) 500).
Proof. apply generate_synthetic_data_spec. lia. Defined.

(** ** Session Aggregator: the records of a batch *)

Lemma result_map_Ok {A B} (f : A -> result B) (l : list A) (out : list B) :
  result_map f l = Ok out -> Forall2 (fun x y => f x = Ok y) l out.
Proof.
  revert out. induction l as [|x l IH]; intros out Hout; cbn in Hout.
  - injection Hout as <-. constructor.
  - destruct (f x) as [y|e] eqn:Ex; cbn in Hout; [|discriminate].
    destruct (result_map f l) as [ys|e]; cbn in Hout; [|discriminate].
    injection Hout as <-. constructor; [exact Ex | apply IH; reflexivity].
Qed.

Lemma result_map_total {A B} (f : A -> result B) (l : list A) :
  (forall x, x ∈ l -> exists y, f x = Ok y) -> exists out, result_map f l = Ok out.
Proof.
  induction l as [|x l IH]; intros Hf; cbn.
  - eexists; reflexivity.
  - destruct (Hf x) as [y Hy]; [left|]. rewrite Hy. cbn.
    destruct IH as [ys Hys]; [intros z Hz; apply Hf; right; exact Hz|].
    rewrite Hys. cbn. eexists; reflexivity.
Qed.

(** The summary of a group: when it is built, and what it records about
    completion and its key. *)
Lemma summarize_session_Ok df key grp :
  has_col df "message" = true -> has_col df "component" = true ->
  exists r, summarize_session df key grp = Ok r.
Proof.
  intros Hm Hc. unfold summarize_session. rewrite Hm, Hc. cbn [negb].
  destruct (has_col df "intentName" && existsb is_fallback_intent grp);
    [|destruct (existsb _ grp)]; eexists; reflexivity.
Qed.

Lemma summarize_session_fields df key grp r :
  summarize_session df key grp = Ok r ->
  conversation_id r = key /\
  (abandoned r = true <-> completed_at r = None) /\
  (escalated r = true <-> notification_sent_at r <> None) /\
  slots_filled r = 6 /\ slots_total r = 6.
Proof.
  unfold summarize_session.
  destruct (has_col df "message"); cbn [negb]; [|discriminate].
  destruct (has_col df "component"); cbn [negb].
  2: { destruct (has_col df "intentName" && existsb is_fallback_intent grp);
         [|destruct (existsb _ grp)]; discriminate. }
  assert (Hopt : forall o : option Z, bool_decide (is_Some o) = true <-> o <> None).
  { intros o. rewrite bool_decide_eq_true. rewrite <- not_eq_None_Some. reflexivity. }
  destruct (has_col df "intentName" && existsb is_fallback_intent grp);
    [|destruct (existsb _ grp)];
    intros [= <-]; cbn; rewrite bool_decide_eq_true, Hopt; tauto.
Qed.

Lemma transform_fields f out :
  transform_logs_to_sessions f = Ok out ->
  Forall (fun r => (abandoned r = true <-> completed_at r = None) /\
                   slots_filled r = 6 /\ slots_total r = 6) out.
Proof.
  unfold transform_logs_to_sessions.
  destruct (has_col _ "timestamp"); cbn [negb]; [|discriminate].
  intros Hout. apply result_map_Ok in Hout.
  induction Hout as [|key r keys rs Hr _ IH]; constructor; [|exact IH].
  apply summarize_session_fields in Hr. tauto.
Qed.

(** ** Sorting by timestamp *)

Lemma insert_by_ts_front r l :
  Forall (fun x => ts_le (timestamp r) x = true) (map timestamp l) ->
  insert_by_ts r l = r :: l.
Proof.
  destruct l as [|x l]; [reflexivity|]. cbn. intros Hall.
  apply Forall_cons_1 in Hall as [-> _]. reflexivity.
Qed.

Lemma sort_by_ts_sorted l : ts_sorted (map timestamp l) -> sort_by_ts l = l.
Proof.
  induction l as [|r l IH]; [reflexivity|]. cbn [map]. intros Hs.
  apply StronglySorted_inv in Hs as [Hl Hr]. cbn [sort_by_ts foldr].
  fold (sort_by_ts l). rewrite (IH Hl). apply insert_by_ts_front, Hr.
Qed.

(** ** The three-entry scenario *)

Lemma scenario_ordered c t0 t1 t2 :
  c ∈ possible_session_cols -> t0 <= t1 -> t1 <= t2 ->
  scenario_outcome t2 (transform_logs_to_sessions (scenario_logs c t0 t1 t2)).
Proof.
  intros Hc H01 H12. unfold transform_logs_to_sessions.
  set (df := normalize_context (with_session_id (scenario_logs c t0 t1 t2))).
  assert (Hts : map timestamp (rows df) = [Some t0; Some t1; Some t2]).
  { subst df. unfold possible_session_cols in Hc.
    repeat (apply elem_of_cons in Hc as [->|Hc]); [..|inversion Hc];
      vm_compute; reflexivity. }
  rewrite sort_by_ts_sorted.
  2: { rewrite Hts. unfold ts_sorted.
       repeat constructor; cbn; apply Z.leb_le; lia. }
  subst df. clear Hts. unfold possible_session_cols in Hc.
  repeat (apply elem_of_cons in Hc as [->|Hc]); [..|inversion Hc];
    vm_compute; repeat split.
Qed.

(** On a batch that also carries a [component] column (null in the
    three entries) the scenario gives the record it describes: exactly
    one record, for ["s1"], with [fallback = true],
    [fallback_phrase = "não entendi"], [completed_at = T0 + 10 min] and
    [abandoned = false], whichever of the candidate columns carries the
    session identifier. *)
Lemma scenario_with_component (T0 : Z) :
  Forall (fun c =>
            scenario_outcome (T0 + 10 * minute)
              (transform_logs_to_sessions
                 (scenario_logs c T0 (T0 + 5 * minute) (T0 + 10 * minute))))
         possible_session_cols.
Proof.
  apply Forall_forall. intros c Hc.
  apply scenario_ordered; [exact Hc | unfold minute; lia ..].
Qed.

Lemma scenario_documents_raise c t0 t1 t2 :
  c ∈ possible_session_cols -> t0 <= t1 -> t1 <= t2 ->
  transform_logs_to_sessions (scenario_documents c t0 t1 t2) = Raise no_astype.
Proof.
  intros Hc H01 H12. unfold transform_logs_to_sessions.
  set (df := normalize_context (with_session_id (scenario_documents c t0 t1 t2))).
  assert (Hts : map timestamp (rows df) = [Some t0; Some t1; Some t2]).
  { subst df. unfold possible_session_cols in Hc.
    repeat (apply elem_of_cons in Hc as [->|Hc]); [..|inversion Hc];
      vm_compute; reflexivity. }
  rewrite sort_by_ts_sorted.
  2: { rewrite Hts. unfold ts_sorted.
       repeat constructor; cbn; apply Z.leb_le; lia. }
  subst df. clear Hts. unfold possible_session_cols in Hc.
  repeat (apply elem_of_cons in Hc as [->|Hc]); [..|inversion Hc];
    vm_compute; reflexivity.
Qed.

(** C5, at the failing input: the three entries of session ["s1"] (at
    [T0] with message "iniciado", at [T0 + 5 min] with the fallback
    intent and query text "não entendi", at [T0 + 10 min] with message
    "Fluxo concluído"), read from documents that hold just these fields.
    Whichever candidate column carries the session identifier, the
    Session Aggregator raises [AttributeError] at the notification
    lookup ([grp.get('component', '')] is the [str] default, which has
    no [astype]) and returns no record, where the scenario expects the
    record of ["s1"]. *)
Theorem scenario_fallback_then_completed (T0 : Z) :
  Forall (fun c =>
            transform_logs_to_sessions
              (scenario_documents c T0 (T0 + 5 * minute) (T0 + 10 * minute))
            = Raise no_astype /\
            ~ scenario_outcome (T0 + 10 * minute)
                (transform_logs_to_sessions
                   (scenario_documents c T0 (T0 + 5 * minute) (T0 + 10 * minute))))
         possible_session_cols.
Proof.
  apply Forall_forall. intros c Hc.
  assert (E : transform_logs_to_sessions
                (scenario_documents c T0 (T0 + 5 * minute) (T0 + 10 * minute))
              = Raise no_astype).
  { apply scenario_documents_raise; [exact Hc | unfold minute; lia ..]. }
  split; [exact E|]. rewrite E. intros H. exact H.
Qed.

Example scenario_at_zero :
  transform_logs_to_sessions (scenario_logs "dialogflowSessionId" 0 (5 * minute) (10 * minute)) =
  Ok [ {| conversation_id := "s1"; channel := "web"; uf := Some "sp";
          priority := Some "Média"; created_at := Some 0;
          completed_at := Some (10 * minute); notification_sent_at := None;
          fallback := true; fallback_phrase := Some "não entendi";
          slots_filled := 6; slots_total := 6; escalated := false;
          abandoned := false; intent_final := "AbrirChamadoSuporte";
          protocol := "MONGO-s1" |} ].
Proof. vm_compute. reflexivity. Qed.

(** ** Reconciler: the structured path *)

Lemma open_case_base p : open_case (base_record p).
Proof. split; reflexivity. Qed.

Lemma open_case_set_fallback fb ph r : open_case r -> open_case (set_fallback fb ph r).
Proof. intros H. exact H. Qed.

Lemma open_case_set_notification t r : open_case r -> open_case (set_notification t r).
Proof. intros H. exact H. Qed.

Lemma uniform_5_15 {L} `{Generator L} :
  post (uniform (S := L) 5 15) (fun m => (5 <= m < 15)%Q).
Proof.
  intros s. unfold uniform, rand_bind, rand_ret.
  pose proof (random_range s) as Hu. destruct (random s) as [u s']. cbn [fst] in *.
  split; lra.
Qed.

(** A flag of [choice([True, False], p=[0.1, 0.9])] is true exactly when
    its uniform sample falls below 0.1. *)
Lemma fallback_draw_threshold {L} `{Generator L} (s : L) :
  fst (choice_p [(true, 1 # 10); (false, 9 # 10)]%Q false s) = true <->
  (fst (random s) < 1 # 10)%Q.
Proof.
  unfold choice_p, rand_bind, rand_ret.
  pose proof (random_range s) as [_ Hu].
  destruct (random s) as [u s']. cbn [fst pick_cdf] in *.
  destruct (Qlt_le_dec u (0 + (1 # 10))) as [Hlt|Hge].
  - split; [intros _; lra | reflexivity].
  - destruct (Qlt_le_dec u (0 + (1 # 10) + (9 # 10))) as [_|Hge'].
    + split; [discriminate | intros Hlt; lra].
    + lra.
Qed.

Lemma to_timedelta_minutes_range (m : Q) :
  (5 <= m < 15)%Q -> 5 * minute <= to_timedelta_minutes m <= 15 * minute.
Proof.
  intros [Hlo Hhi]. unfold to_timedelta_minutes.
  assert (Hmin : (0 < inject_Z minute)%Q) by reflexivity.
  split.
  - rewrite <- (Qfloor_Z (5 * minute)). apply Qfloor_resp_le.
    rewrite inject_Z_mult. apply Qmult_le_compat_r; [exact Hlo | apply Qlt_le_weak, Hmin].
  - rewrite <- (Qfloor_Z (15 * minute)). apply Qfloor_resp_le.
    rewrite inject_Z_mult. apply Qmult_le_compat_r; [apply Qlt_le_weak, Hhi | apply Qlt_le_weak, Hmin].
Qed.

Lemma assign_notifications_spec base :
  forall flags ms,
    length flags = length base ->
    length ms = length (filter (fun r => is_alta (priority r) = true) base) ->
    Forall (fun m => (5 <= m < 15)%Q) ms ->
    let out := assign_notifications
                 (zip_with (fun fb r => set_fallback fb None r) flags base) ms in
    map fallback out = flags /\ Forall2 simulated_from base out.
Proof.
  induction base as [|b base IH]; intros flags ms Hf Hm Hr.
  - destruct flags; [|discriminate]. split; [reflexivity | constructor].
  - destruct flags as [|fb flags]; [discriminate|].
    injection Hf as Hf. cbn [zip_with assign_notifications set_fallback priority].
    destruct (is_alta (priority b)) eqn:Ha.
    + rewrite filter_cons_True in Hm by exact Ha.
      destruct ms as [|m ms]; [discriminate|]. injection Hm as Hm.
      apply Forall_cons_1 in Hr as [Hm0 Hr].
      destruct (IH flags ms Hf Hm Hr) as [IH1 IH2].
      split; [cbn; f_equal; exact IH1|].
      constructor; [|exact IH2].
      unfold simulated_from. cbn. rewrite Ha.
      repeat split. exists (to_timedelta_minutes m).
      split; [apply to_timedelta_minutes_range, Hm0 | reflexivity].
    + rewrite filter_cons_False in Hm by (rewrite Ha; discriminate).
      destruct (IH flags ms Hf Hm Hr) as [IH1 IH2].
      split; [cbn; f_equal; exact IH1|].
      constructor; [|exact IH2].
      unfold simulated_from. cbn. rewrite Ha. repeat split.
Qed.

Section ReconcilerProps.
Context {L : Type} {legacy : Generator L}.
Context {S : Type} {pcg : Generator S}.

Lemma enrich_simulated_draws base :
  enrich_simulated (L := L) base =
  (let* flags := fallback_draws (length base) in
   let* notif_minutes :=
     rand_repeat (uniform 5 15)
       (length (filter (fun r => is_alta (priority r) = true) base)) in
   rand_ret (assign_notifications
               (zip_with (fun fb r => set_fallback fb None r) flags base)
               notif_minutes)).
Proof.
  unfold enrich_simulated, fallback_draws.
  destruct (length (filter _ base)); reflexivity.
Qed.

Lemma enrich_simulated_spec base (g : L) :
  let out := fst (enrich_simulated base g) in
  map fallback out = fst (fallback_draws (length base) g) /\
  Forall2 simulated_from base out.
Proof.
  rewrite enrich_simulated_draws. unfold fallback_draws, rand_repeat, rand_bind.
  pose proof (post_rand_map_length
                (fun _ : nat => choice_p [(true, 1 # 10); (false, 9 # 10)]%Q false)
                (seq 0 (length base)) g) as Hlen.
  destruct (rand_map _ (seq 0 (length base)) g) as [flags g1].
  cbn [fst] in *. rewrite length_seq in Hlen.
  set (n_alta := length (filter (fun r => is_alta (priority r) = true) base)).
  pose proof (post_rand_map_length (fun _ : nat => uniform 5 15) (seq 0 n_alta) g1) as H1.
  pose proof (post_rand_map_Forall (fun m => (5 <= m < 15)%Q)
                (fun _ : nat => uniform 5 15) (seq 0 n_alta)
                (fun _ => uniform_5_15) g1) as H2.
  destruct (rand_map _ (seq 0 n_alta) g1) as [ms g2].
  cbn [fst] in *. rewrite length_seq in H1.
  unfold rand_ret. cbn [fst].
  apply assign_notifications_spec; assumption.
Qed.

Lemma enrich_from_logs_open logs base :
  Forall open_case base ->
  post (enrich_from_logs (L := L) logs base)
       (fun res => match res with
                   | Ok rs => Forall open_case rs /\ length rs = length base
                   | Raise _ => True
                   end).
Proof.
  intros Hbase. unfold enrich_from_logs.
  destruct (has_col logs "message"); cbn [negb]; [|apply post_ret; exact I].
  eapply post_bind with
    (P := fun rs => Forall open_case rs /\ length rs = length base).
  { intros s. split.
    - clear -Hbase. revert s.
      induction Hbase as [|b base Hb _ IH]; intros s; cbn [rand_map].
      + constructor.
      + unfold rand_bind at 1.
        destruct (bool_decide _).
        * unfold rand_bind at 1, choice, rand_bind at 1, rand_ret at 1.
          destruct (integers _ _ s) as [i s1]. unfold rand_ret at 1.
          unfold rand_bind. specialize (IH s1).
          destruct (rand_map _ base s1) as [ys s2]. cbn [fst] in *.
          constructor; [apply open_case_set_fallback, Hb | exact IH].
        * unfold rand_ret at 1. unfold rand_bind. specialize (IH s).
          destruct (rand_map _ base s) as [ys s2]. cbn [fst] in *.
          constructor; [apply open_case_set_fallback, Hb | exact IH].
    - apply post_rand_map_length. }
  intros rs [Hrs Hlen].
  destruct (has_col logs "component"); cbn [negb]; [|apply post_ret; exact I].
  apply post_ret. split.
  - apply Forall_map. eapply Forall_impl; [exact Hrs|].
    intros r Hr. apply open_case_set_notification, Hr.
  - rewrite length_map. exact Hlen.
Qed.
End ReconcilerProps.

(** ** Reconciler: the three states *)

Section ReconcilerStates.
Context {L : Type} {legacy : Generator L}.
Context {S : Type} {pcg : Generator S}.

Implicit Types (database : Source (list PgRow)) (mongo : Source LogFrame) (g : L).

Lemma simulated_open base out :
  Forall open_case base -> Forall2 simulated_from base out -> Forall open_case out.
Proof.
  intros Hbase H2. induction H2 as [|b r base out Hbr _ IH]; [constructor|].
  apply Forall_cons_1 in Hbase as [[Hb1 Hb2] Hbase].
  constructor; [|apply IH, Hbase].
  destruct Hbr as (_ & _ & _ & Ha & Hc & _). split; congruence.
Qed.

Lemma base_records_open (ps : list PgRow) : Forall open_case (map base_record ps).
Proof. apply Forall_map, Forall_true. intros p. apply open_case_base. Qed.

(** C1, as the code has it: on the logs-only and synthetic paths every
    returned row has [abandoned = true] exactly when [completed_at] is
    null; on the structured path every returned row has
    [abandoned = false] and a null [completed_at] (so there only
    "abandoned implies a null [completed_at]" holds). *)
Theorem abandoned_vs_completed_at now database mongo g out :
  fst (combine_postgres_and_mongo_data (S := S) now database mongo g) = Ok out ->
  match load_denuncias_from_postgres database with
  | [] => Forall (fun r => abandoned r = true <-> completed_at r = None) (records out)
  | _ :: _ => Forall (fun r => abandoned r = false /\ completed_at r = None) (records out)
  end.
Proof.
  unfold combine_postgres_and_mongo_data.
  destruct (load_denuncias_from_postgres database) as [|p ps].
  - destruct (frame_empty (load_mongodb_logs mongo)); cbn [negb].
    + intros [= <-]. apply generate_synthetic_data_completion.
    + destruct (transform_logs_to_sessions _) as [[|r rs]|e] eqn:Et.
      * intros [= <-]. apply generate_synthetic_data_completion.
      * intros [= <-]. cbn [records].
        eapply Forall_impl; [apply (transform_fields _ _ Et)|].
        intros x Hx. apply Hx.
      * discriminate.
  - set (base := map base_record (p :: ps)).
    assert (Hbase : Forall open_case base) by apply base_records_open.
    destruct (frame_empty (load_mongodb_logs mongo)); cbn [negb].
    + unfold rand_bind.
      pose proof (enrich_simulated_spec base g) as [_ H2].
      destruct (enrich_simulated base g) as [rs g1]. cbn [fst] in *.
      intros [= <-]. apply (simulated_open base rs Hbase H2).
    + unfold rand_bind.
      pose proof (enrich_from_logs_open (load_mongodb_logs mongo) base Hbase g) as He.
      destruct (enrich_from_logs _ base g) as [[rs|e] g1]; cbn [fst] in *.
      * intros [= <-]. apply He.
      * discriminate.
Qed.

(** The Reconciler has no handler of its own.  The readers turn every
    failure into an empty result.  With no structured row and a non-empty
    log frame, an exception of the Session Aggregator is the outcome of
    the Reconciler, an empty aggregation leads to the synthetic rows and
    a non-empty one is returned; with structured rows and a non-empty
    log frame the enrichment raises exactly when the [message] or the
    [component] column is missing.  Whatever is returned has at least one
    row. *)
Lemma reconciler_has_no_handler now database mongo g :
  let logs := load_mongodb_logs mongo in
  let res := fst (combine_postgres_and_mongo_data (S := S) now database mongo g) in
  let synthetic := mkReconciled (generate_synthetic_data (S := S) now 500) None in
  (load_denuncias_from_postgres Unconfigured = [] /\
   load_denuncias_from_postgres QueryFailed = [] /\
   load_mongodb_logs Unconfigured = empty_frame /\
   load_mongodb_logs QueryFailed = empty_frame) /\
  (load_denuncias_from_postgres database = [] -> frame_empty logs = false ->
   (forall e, transform_logs_to_sessions logs = Raise e -> res = Raise e) /\
   (transform_logs_to_sessions logs = Ok [] -> res = Ok synthetic) /\
   (forall out, transform_logs_to_sessions logs = Ok out -> out <> [] ->
                res = Ok (mkReconciled out None))) /\
  (load_denuncias_from_postgres database = [] -> frame_empty logs = true ->
   res = Ok synthetic) /\
  (load_denuncias_from_postgres database <> [] -> frame_empty logs = false ->
   has_col logs "message" = false \/ has_col logs "component" = false ->
   res = Raise no_astype) /\
  (load_denuncias_from_postgres database <> [] ->
   frame_empty logs = true \/
   (has_col logs "message" = true /\ has_col logs "component" = true) ->
   exists out, res = Ok out /\
               length (records out) = length (load_denuncias_from_postgres database)) /\
  (forall out, res = Ok out -> records out <> []).
Proof.
  intros logs res synthetic. split; [repeat split|].
  assert (Hsyn : generate_synthetic_data (S := S) now 500 <> []).
  { intros E. pose proof (generate_synthetic_data_length (S := S) now 500) as Hl.
    rewrite E in Hl. discriminate Hl. }
  subst res synthetic. unfold combine_postgres_and_mongo_data. fold logs.
  destruct (load_denuncias_from_postgres database) as [|p ps] eqn:Epg.
  - split; [|split; [|split; [|split]]]; try (intros; congruence).
    + intros _ He. rewrite He. cbn [negb]. split; [|split].
      * intros e ->. reflexivity.
      * intros ->. reflexivity.
      * intros out -> Hne. destruct out; [congruence | reflexivity].
    + intros _ He. rewrite He. reflexivity.
    + intros out. destruct (frame_empty logs); cbn [negb].
      * intros [= <-]. exact Hsyn.
      * destruct (transform_logs_to_sessions logs) as [[|r rs]|e]; cbn.
        -- intros [= <-]. exact Hsyn.
        -- intros [= <-]. discriminate.
        -- discriminate.
  - set (base := map base_record (p :: ps)).
    assert (Hb : length base = length (p :: ps)) by (subst base; apply length_map).
    pose proof (enrich_simulated_spec base g) as [_ Hsim].
    apply Forall2_length in Hsim.
    pose proof (enrich_from_logs_open logs base (base_records_open _) g) as Hopen.
    assert (Hraise : has_col logs "message" = false \/ has_col logs "component" = false ->
                     fst (enrich_from_logs logs base g) = Raise no_astype).
    { unfold enrich_from_logs. intros Hmiss.
      destruct (has_col logs "message"); cbn [negb]; [|reflexivity].
      destruct Hmiss as [Hm|Hc]; [discriminate|]. rewrite Hc. cbn [negb].
      unfold rand_bind. destruct (rand_map _ base g). reflexivity. }
    assert (Hret : has_col logs "message" = true -> has_col logs "component" = true ->
                   exists rs, fst (enrich_from_logs logs base g) = Ok rs).
    { unfold enrich_from_logs. intros -> ->. cbn [negb].
      unfold rand_bind. destruct (rand_map _ base g). eexists. reflexivity. }
    split; [intros; congruence|]. split; [intros; congruence|]. split; [|split].
    + intros _ He Hmiss. rewrite He. cbn [negb]. unfold rand_bind.
      specialize (Hraise Hmiss).
      destruct (enrich_from_logs logs base g) as [r g1]. cbn [fst] in *. subst r.
      reflexivity.
    + intros _ [He|[Hm Hc]].
      * rewrite He. cbn [negb]. unfold rand_bind.
        destruct (enrich_simulated base g) as [rs g1]. cbn [fst] in *.
        eexists. split; [reflexivity|]. cbn [records]. congruence.
      * destruct (frame_empty logs); cbn [negb]; unfold rand_bind.
        -- destruct (enrich_simulated base g) as [rs g1]. cbn [fst] in *.
           eexists. split; [reflexivity|]. cbn [records]. congruence.
        -- destruct (Hret Hm Hc) as [rs Hrs].
           destruct (enrich_from_logs logs base g) as [r g1]. cbn [fst] in *. subst r.
           eexists. split; [reflexivity|]. cbn [records].
           destruct Hopen as [_ Hl]. congruence.
    + intros out. destruct (frame_empty logs); cbn [negb]; unfold rand_bind.
      * destruct (enrich_simulated base g) as [rs g1]. cbn [fst] in *.
        intros [= <-]. cbn [records]. intros ->. discriminate Hsim.
      * destruct (enrich_from_logs logs base g) as [[rs|e] g1]; cbn [fst] in *;
          unfold rand_ret; cbn [result_bind fst]; [|discriminate].
        intros [= <-]. cbn [records]. destruct Hopen as [_ Hl]. intros ->. discriminate Hl.
Qed.

Lemma choice_p_run {A} (items : list (A * Q)) (dflt : A) (g : L) :
  choice_p items dflt g = (pick_cdf 0%Q items (fst (random g)) dflt, snd (random g)).
Proof. unfold choice_p, rand_bind, rand_ret. destruct (random g); reflexivity. Qed.

(** The three flags come from three successive uniform samples. *)
Lemma fallback_draws_three g :
  let g1 := snd (random g) in
  let g2 := snd (random g1) in
  Forall2 (fun u (b : bool) => b = true <-> (u < 1 # 10)%Q)
          [fst (random g); fst (random g1); fst (random g2)]
          (fst (fallback_draws 3 g)).
Proof.
  cbn zeta. unfold fallback_draws, rand_repeat. cbn [seq rand_map].
  unfold rand_bind, rand_ret. rewrite !choice_p_run. cbn [fst snd].
  constructor; [|constructor; [|constructor; [|constructor]]].
  - rewrite <- (fallback_draw_threshold g), choice_p_run. reflexivity.
  - rewrite <- (fallback_draw_threshold (snd (random g))), choice_p_run. reflexivity.
  - rewrite <- (fallback_draw_threshold (snd (random (snd (random g))))), choice_p_run.
    reflexivity.
Qed.

Lemma is_alta_true (p : option string) : is_alta p = true <-> p = Some "Alta".
Proof.
  destruct p as [s|]; cbn; [|split; discriminate].
  rewrite String.eqb_eq. split; congruence.
Qed.

(** C6: three structured rows and no log row.  The Reconciler returns
    exactly three rows on the structured path, each with
    [channel = "web"] and [slots_total = 6]; the three fallback flags
    follow three successive uniform samples of the global generator, a
    flag being true exactly when its sample lies below 0.1; a row of
    priority ["Alta"] gets as [notification_sent_at] a time between 5 and
    15 minutes after its [created_at] (none when [created_at] is null),
    any other row gets none; the (empty) log frame is attached. *)
Theorem structured_rows_without_logs now (pg_rows : list PgRow) mongo g :
  length pg_rows = 3%nat ->
  rows (load_mongodb_logs mongo) = [] ->
  let g1 := snd (random g) in
  let g2 := snd (random g1) in
  exists out,
    fst (combine_postgres_and_mongo_data (S := S) now (Loaded pg_rows) mongo g) = Ok out /\
    mongo_logs_attr out = Some (load_mongodb_logs mongo) /\
    length (records out) = 3%nat /\
    Forall (fun r => channel r = "web" /\ slots_total r = 6) (records out) /\
    Forall2 (fun u r => fallback r = true <-> (u < 1 # 10)%Q)
            [fst (random g); fst (random g1); fst (random g2)] (records out) /\
    Forall2 (fun p r =>
               conversation_id r = pg_protocolo p /\
               created_at r = pg_created_at p /\
               (pg_prioridade p = Some "Alta" ->
                match created_at r with
                | Some c => exists t, notification_sent_at r = Some t /\
                                      5 * minute <= t - c <= 15 * minute
                | None => notification_sent_at r = None
                end) /\
               (pg_prioridade p <> Some "Alta" -> notification_sent_at r = None))
            pg_rows (records out).
Proof.
  intros Hlen Hlogs g1 g2. unfold combine_postgres_and_mongo_data.
  cbn [load_denuncias_from_postgres].
  destruct pg_rows as [|p ps]; [discriminate|].
  assert (He : frame_empty (load_mongodb_logs mongo) = true).
  { unfold frame_empty. rewrite Hlogs. reflexivity. }
  rewrite He. cbn [negb]. unfold rand_bind.
  set (base := map base_record (p :: ps)).
  pose proof (enrich_simulated_spec base g) as [Hfb H2].
  destruct (enrich_simulated base g) as [rs g']. cbn [fst] in *.
  assert (Hb : length base = 3%nat) by (subst base; rewrite length_map; exact Hlen).
  exists (mkReconciled rs (Some (load_mongodb_logs mongo))). cbn [records mongo_logs_attr].
  split; [reflexivity|]. split; [reflexivity|].
  split; [rewrite <- (Forall2_length _ _ _ H2); exact Hb|].
  split; [|split].
  - clear -H2. subst base. remember (p :: ps) as l eqn:El. clear El.
    revert rs H2. induction l as [|q l IH]; intros rs H2; inversion H2; subst;
      constructor; [|apply IH; assumption].
    match goal with H : simulated_from _ _ |- _ => destruct H as (_ & Hc & Ht & _) end.
    rewrite Hc, Ht. split; reflexivity.
  - rewrite Hb in Hfb. pose proof (fallback_draws_three g) as H3. cbn zeta in H3.
    rewrite <- Hfb in H3. fold g1 in H3. fold g2 in H3.
    clear -H3. revert H3. generalize [fst (random g); fst (random g1); fst (random g2)].
    induction rs as [|r rs IH]; intros us H3; inversion H3; subst; constructor;
      [assumption | apply IH; assumption].
  - clear -H2. subst base. remember (p :: ps) as l eqn:El. clear El.
    revert rs H2. induction l as [|q l IH]; intros rs H2; inversion H2; subst;
      constructor; [|apply IH; assumption].
    match goal with H : simulated_from _ _ |- _ =>
      destruct H as (Hid & _ & _ & _ & _ & _ & Hcr & Hn) end.
    cbn [base_record conversation_id created_at priority notification_sent_at] in *.
    split; [exact Hid|]. split; [exact Hcr|]. split.
    + intros Ha. apply is_alta_true in Ha. rewrite Ha in Hn.
      destruct Hn as (d & Hd & Hn). rewrite Hcr, Hn.
      destruct (pg_created_at q) as [c|]; cbn [add_delta]; [|reflexivity].
      exists (c + d). split; [reflexivity | lia].
    + intros Ha. destruct (is_alta (pg_prioridade q)) eqn:E; [|exact Hn].
      apply is_alta_true in E. contradiction.
Qed.
End ReconcilerStates.

(** ** The Reconciler on concrete inputs *)

(** C1, counterexample: one structured row and no logs.  The returned row
    has [abandoned = false] although its [completed_at] is null. *)
Lemma structured_row_breaks_equivalence :
  exists r,
    fst (combine_postgres_and_mongo_data (L := Z) (S := Z) 0
           (Loaded [case_row "SUP-1" "Baixa" 0]) Unconfigured 1)
    = Ok (mkReconciled [r] (Some empty_frame)) /\
    abandoned r = false /\ completed_at r = None /\
    ~ (abandoned r = true <-> completed_at r = None).
Proof.
  exists (base_record (case_row "SUP-1" "Baixa" 0)).
  split; [vm_compute; reflexivity|].
  split; [reflexivity|]. split; [reflexivity|].
  cbn. intros [_ H]. discriminate (H eq_refl).
Qed.

Lemma abandoned_vs_completed_at_witness :
  Forall (fun r => abandoned r = true <-> completed_at r = None)
         (records logs_only_result).
Proof.
  apply (abandoned_vs_completed_at (L := Z) (S := Z) 0 Unconfigured
           (Loaded (scenario_logs "dialogflowSessionId" 0 (5 * minute) (10 * minute)))
           1 logs_only_result).
  vm_compute. reflexivity.
Defined.

(** C2, at the failing input: no structured source, and a log batch of
    one document that has no [message] field.  The frame is not empty;
    the Session Aggregator raises [AttributeError]
    ([grp.get('message', '')] is the [str] default, which has no
    [astype]), and that exception is the outcome of the Reconciler, where
    the claim expects the synthetic rows.  With a structured row the
    enrichment step raises in the same way. *)
Theorem reconciler_raises :
  frame_empty (load_mongodb_logs (Loaded logs_without_message)) = false /\
  transform_logs_to_sessions logs_without_message = Raise no_astype /\
  fst (combine_postgres_and_mongo_data (L := Z) (S := Z) 0
         Unconfigured (Loaded logs_without_message) 1)
  = Raise no_astype /\
  fst (combine_postgres_and_mongo_data (L := Z) (S := Z) 0
         (Loaded [case_row "SUP-1" "Alta" 0]) (Loaded logs_without_message) 1)
  = Raise no_astype.
Proof. repeat split; vm_compute; reflexivity. Qed.

Lemma structured_rows_without_logs_witness :
  exists out,
    fst (combine_postgres_and_mongo_data (L := Z) (S := Z) 0
           (Loaded [case_row "SUP-1" "Alta" 0; case_row "SUP-2" "Baixa" 0;
                    case_row "SUP-3" "Alta" 0])
           (Loaded (mkLogFrame ["timestamp"; "message"] [])) 1) = Ok out /\
    mongo_logs_attr out = Some empty_frame /\
    length (records out) = 3%nat /\
    Forall (fun r => channel r = "web" /\ slots_total r = 6) (records out).
Proof.
  destruct (structured_rows_without_logs (L := Z) (S := Z) 0
              [case_row "SUP-1" "Alta" 0; case_row "SUP-2" "Baixa" 0;
               case_row "SUP-3" "Alta" 0]
              (Loaded (mkLogFrame ["timestamp"; "message"] [])) 1
              eq_refl eq_refl)
    as (out & H1 & H2 & H3 & H4 & _).
  exists out. repeat split; assumption.
Defined.

(** The three rows on the generator of the model: the flags, and the
    notification times of the two rows of priority ["Alta"]. *)
Example structured_rows_notifications :
  map notification_sent_at
      match fst (combine_postgres_and_mongo_data (L := Z) (S := Z) 0
                   (Loaded [case_row "SUP-1" "Alta" 0; case_row "SUP-2" "Baixa" 0;
                            case_row "SUP-3" "Alta" 0]) Unconfigured 1) with
      | Ok out => records out
      | Raise _ => []
      end
  = [Some 529718034304; None; Some 777268649552] /\
  5 * minute <= 529718034304 <= 15 * minute /\
  5 * minute <= 777268649552 <= 15 * minute.
Proof. split; [vm_compute; reflexivity | unfold minute; lia]. Qed.

(** ** Sorting by timestamp is a sorted permutation *)

Lemma ts_le_total a b : ts_le a b = true \/ ts_le b a = true.
Proof.
  destruct a as [x|], b as [y|]; cbn; auto.
  destruct (Z.leb_spec x y); [left; reflexivity | right; apply Z.leb_le; lia].
Qed.

Lemma ts_le_trans a b c : ts_le a b = true -> ts_le b c = true -> ts_le a c = true.
Proof.
  destruct a as [x|], b as [y|], c as [z|]; cbn; try congruence.
  rewrite !Z.leb_le. lia.
Qed.

Lemma ts_le_antisym a b : ts_le a b = true -> ts_le b a = true -> a = b.
Proof.
  destruct a as [x|], b as [y|]; cbn; try congruence.
  rewrite !Z.leb_le. intros. f_equal. lia.
Qed.

#[local] Instance row_le_trans : Transitive row_le.
Proof. intros a b c. apply ts_le_trans. Qed.

Lemma insert_by_ts_Permutation r l : insert_by_ts r l ≡ₚ r :: l.
Proof.
  induction l as [|x l IH]; [reflexivity|]. cbn.
  destruct (ts_le (timestamp r) (timestamp x)); [reflexivity|].
  rewrite IH. apply Permutation_swap.
Qed.

Lemma sort_by_ts_Permutation l : sort_by_ts l ≡ₚ l.
Proof.
  induction l as [|x l IH]; [reflexivity|]. cbn [sort_by_ts foldr].
  fold (sort_by_ts l). rewrite insert_by_ts_Permutation, IH. reflexivity.
Qed.

Lemma insert_by_ts_Sorted r l : Sorted row_le l -> Sorted row_le (insert_by_ts r l).
Proof.
  induction l as [|x l IH]; intros Hs; cbn.
  - repeat constructor.
  - destruct (ts_le (timestamp r) (timestamp x)) eqn:E.
    + constructor; [exact Hs | constructor; exact E].
    + apply Sorted_inv in Hs as [Hs Hhd].
      constructor; [apply IH, Hs|].
      assert (Hxr : row_le x r).
      { destruct (ts_le_total (timestamp r) (timestamp x)); [congruence | assumption]. }
      destruct l as [|y l]; cbn.
      * constructor; exact Hxr.
      * destruct (ts_le (timestamp r) (timestamp y)); constructor;
          [exact Hxr | inversion Hhd; assumption].
Qed.

Lemma sort_by_ts_Sorted l : Sorted row_le (sort_by_ts l).
Proof.
  induction l as [|x l IH]; [constructor|]. cbn [sort_by_ts foldr].
  apply insert_by_ts_Sorted, IH.
Qed.

Lemma NoDup_map_inj_on {A B} (f : A -> B) (l : list A) x y :
  NoDup (map f l) -> x ∈ l -> y ∈ l -> f x = f y -> x = y.
Proof.
  induction l as [|a l IH]; cbn [map]; intros Hnd Hx Hy Hf; [inversion Hx|].
  apply NoDup_cons in Hnd as [Hna Hnd].
  apply elem_of_cons in Hx as [->|Hx]; apply elem_of_cons in Hy as [->|Hy].
  - reflexivity.
  - exfalso. apply Hna. rewrite Hf. apply list_elem_of_fmap_2, Hy.
  - exfalso. apply Hna. rewrite <- Hf. apply list_elem_of_fmap_2, Hx.
  - apply IH; assumption.
Qed.

(** With pairwise distinct timestamps the sorted frame does not depend on
    the order of the input rows. *)
Lemma sort_by_ts_perm l1 l2 :
  l1 ≡ₚ l2 -> NoDup (map timestamp l1) -> sort_by_ts l1 = sort_by_ts l2.
Proof.
  intros Hp Hnd.
  apply (Sorted_unique_strong row_le).
  - intros x1 x2 H1 H2 H12 H21.
    rewrite sort_by_ts_Permutation in H1.
    rewrite sort_by_ts_Permutation, <- Hp in H2.
    apply (NoDup_map_inj_on timestamp l1); [assumption..|].
    apply ts_le_antisym; assumption.
  - apply sort_by_ts_Sorted.
  - apply sort_by_ts_Sorted.
  - rewrite !sort_by_ts_Permutation. exact Hp.
Qed.

(** ** The preparation of the frame acts row by row *)

Lemma session_of_set_cell dst v r :
  dst <> "session_id" -> session_of (set_cell dst v r) = session_of r.
Proof.
  intros Hne. unfold session_of, set_cell. cbn [cells].
  destruct v; [apply lookup_delete_ne | apply lookup_delete_ne | apply lookup_insert_ne];
    exact Hne.
Qed.

Lemma session_of_set_session s r : session_of (set_cell "session_id" (PStr s) r) = Some s.
Proof. unfold session_of, set_cell. cbn [cells]. apply lookup_insert_eq. Qed.

Lemma session_of_copy c r : session_of (set_cell "session_id" (get_cell r c) r) = cells r !! c.
Proof.
  unfold session_of, set_cell, get_cell. cbn [cells].
  destruct (cells r !! c) as [s|]; [apply lookup_insert_eq|].
  destruct (bool_decide _); apply lookup_delete_eq.
Qed.

Lemma elem_of_add_col c col cols : c ∈ cols -> c ∈ add_col col cols.
Proof.
  intros Hc. unfold add_col. destruct (bool_decide (col ∈ cols)); [exact Hc|].
  apply elem_of_app. left. exact Hc.
Qed.

Lemma rowwise_id : rowwise (fun df => df).
Proof.
  intros cols. exists cols, (fun r => r). repeat split; try tauto.
  intros rs. rewrite map_id. reflexivity.
Qed.

Lemma rowwise_copy_col dst src : dst <> "session_id" -> rowwise (copy_col dst src).
Proof.
  intros Hne cols.
  exists (add_col dst cols), (fun r => set_cell dst (get_cell r src) r).
  repeat split.
  - intros r. apply session_of_set_cell, Hne.
  - intros c. apply elem_of_add_col.
Qed.

Lemma rowwise_flatten flat : flat <> "session_id" -> rowwise (flatten_if_missing flat).
Proof.
  intros Hne cols.
  destruct (bool_decide (flat ∈ cols)) eqn:E1.
  - destruct (rowwise_id cols) as (cols' & h & Hh & Hrest).
    exists cols', h. split; [|exact Hrest]. intros rs. rewrite <- Hh.
    unfold flatten_if_missing, has_col. cbn [columns]. rewrite E1. reflexivity.
  - destruct (bool_decide ("context." +:+ flat ∈ cols)) eqn:E2.
    + destruct (rowwise_copy_col flat ("context." +:+ flat) Hne cols)
        as (cols' & h & Hh & Hrest).
      exists cols', h. split; [|exact Hrest]. intros rs. rewrite <- Hh.
      unfold flatten_if_missing, has_col. cbn [columns]. rewrite E1, E2. reflexivity.
    + destruct (rowwise_id cols) as (cols' & h & Hh & Hrest).
      exists cols', h. split; [|exact Hrest]. intros rs. rewrite <- Hh.
      unfold flatten_if_missing, has_col. cbn [columns]. rewrite E1, E2. reflexivity.
Qed.

Lemma rowwise_compose F G : rowwise F -> rowwise G -> rowwise (fun df => G (F df)).
Proof.
  intros HF HG cols.
  destruct (HF cols) as (cols1 & h1 & HF1 & Ht1 & Hs1 & Hc1).
  destruct (HG cols1) as (cols2 & h2 & HG2 & Ht2 & Hs2 & Hc2).
  exists cols2, (fun r => h2 (h1 r)). repeat split.
  - intros rs. rewrite HF1, HG2, map_map. reflexivity.
  - intros r. rewrite Ht2. apply Ht1.
  - intros r. rewrite Hs2. apply Hs1.
  - intros c Hc. apply Hc2, Hc1, Hc.
Qed.

Lemma rowwise_normalize_context : rowwise normalize_context.
Proof.
  unfold normalize_context. cbn [foldl].
  do 5 (apply (rowwise_compose _ (flatten_if_missing _));
          [|apply rowwise_flatten; discriminate]).
  apply rowwise_flatten. discriminate.
Qed.

(** ** The order of group keys *)

Lemma ascii_compare_refl (a : ascii) : Ascii.compare a a = Eq.
Proof. unfold Ascii.compare. apply N.compare_refl. Qed.

Lemma string_compare_trans_lt (s1 s2 s3 : string) :
  String.compare s1 s2 = Lt -> String.compare s2 s3 = Lt -> String.compare s1 s3 = Lt.
Proof.
  revert s2 s3. induction s1 as [|a s1 IH]; intros [|b s2] [|c s3]; cbn;
    try congruence.
  unfold Ascii.compare.
  destruct (N.compare_spec (N_of_ascii a) (N_of_ascii b)) as [Eab|Lab|Gab];
    destruct (N.compare_spec (N_of_ascii b) (N_of_ascii c)) as [Ebc|Lbc|Gbc];
    try congruence; intros H12 H23.
  - rewrite Eab, Ebc, N.compare_refl. eapply IH; eassumption.
  - rewrite Eab. apply N.compare_lt_iff in Lbc. rewrite Lbc. reflexivity.
  - rewrite <- Ebc. apply N.compare_lt_iff in Lab. rewrite Lab. reflexivity.
  - assert (Hac : (N_of_ascii a < N_of_ascii c)%N) by lia.
    apply N.compare_lt_iff in Hac. rewrite Hac. reflexivity.
Qed.

Lemma str_le_cases (a b : string) : str_le a b <-> a = b \/ String.compare a b = Lt.
Proof.
  unfold str_le, String.leb. split.
  - destruct (String.compare a b) eqn:E; try discriminate.
    + left. apply String.compare_eq_iff, E.
    + right. reflexivity.
  - intros [ -> | -> ]; [|reflexivity].
    assert (E : String.compare b b = Eq).
    { induction b as [|c b IH]; [reflexivity|]. cbn. rewrite ascii_compare_refl. exact IH. }
    rewrite E. reflexivity.
Qed.

#[local] Instance str_le_trans : Transitive str_le.
Proof.
  intros a b c. rewrite !str_le_cases. intros [ -> |Hab] [ -> |Hbc]; auto.
  right. eapply string_compare_trans_lt; eassumption.
Qed.

#[local] Instance str_le_antisym : AntiSymm eq str_le.
Proof. intros a b. apply String.leb_antisym. Qed.

#[local] Instance str_le_total : Total str_le.
Proof. intros a b. apply String.leb_total. Qed.

Lemma remove_dups_perm {A} `{EqDecision A} (l1 l2 : list A) :
  l1 ≡ₚ l2 -> remove_dups l1 ≡ₚ remove_dups l2.
Proof.
  intros Hp. apply NoDup_Permutation; [apply NoDup_remove_dups..|].
  intros x. rewrite !elem_of_remove_dups, Hp. reflexivity.
Qed.

Lemma sorted_unique_perm (l1 l2 : list string) :
  l1 ≡ₚ l2 -> sorted_unique l1 = sorted_unique l2.
Proof.
  intros Hp. unfold sorted_unique.
  apply (Sorted_unique str_le); [apply Sorted_merge_sort, _..|].
  rewrite !merge_sort_Permutation. apply remove_dups_perm, Hp.
Qed.

Lemma sorted_unique_spec (l : list string) :
  Sorted str_le (sorted_unique l) /\ NoDup (sorted_unique l) /\
  forall x, x ∈ sorted_unique l <-> x ∈ l.
Proof.
  unfold sorted_unique. split; [apply Sorted_merge_sort, _|]. split.
  - rewrite merge_sort_Permutation. apply NoDup_remove_dups.
  - intros x. rewrite merge_sort_Permutation. apply elem_of_remove_dups.
Qed.

Lemma StronglySorted_filter {A} (R : relation A) (P : A -> Prop)
    `{forall x, Decision (P x)} (l : list A) :
  StronglySorted R l -> StronglySorted R (filter P l).
Proof.
  induction 1 as [|x l Hs IH Hall]; [constructor|].
  rewrite filter_cons. destruct (decide (P x)); [|exact IH].
  constructor; [exact IH|].
  apply Forall_forall. intros y Hy. apply list_elem_of_filter in Hy as [_ Hy].
  rewrite Forall_forall in Hall. apply Hall, Hy.
Qed.

(** ** The winning column does not depend on the row order *)

Lemma any_notna_perm cols rs1 rs2 col :
  rs1 ≡ₚ rs2 -> any_notna (mkLogFrame cols rs1) col = any_notna (mkLogFrame cols rs2) col.
Proof.
  intros Hp. unfold any_notna. cbn [rows].
  apply eq_true_iff_eq. rewrite !existsb_exists.
  split; intros (r & Hr & Hv); exists r; split; try exact Hv.
  - eapply Permutation_in; [exact Hp | exact Hr].
  - eapply Permutation_in; [symmetry; exact Hp | exact Hr].
Qed.

Lemma find_pointwise {A} (p q : A -> bool) (l : list A) :
  (forall x, p x = q x) -> List.find p l = List.find q l.
Proof.
  intros Hpq. induction l as [|x l IH]; [reflexivity|]. cbn.
  rewrite Hpq, IH. reflexivity.
Qed.

Lemma session_id_col_perm cols rs1 rs2 :
  rs1 ≡ₚ rs2 ->
  session_id_col (mkLogFrame cols rs1) = session_id_col (mkLogFrame cols rs2).
Proof.
  intros Hp. unfold session_id_col. apply find_pointwise. intros col.
  unfold has_col. cbn [columns]. f_equal. apply any_notna_perm, Hp.
Qed.

(** ** The aggregation reads the frame's columns and its sorted rows *)

Lemma result_map_pointwise {A B} (f g : A -> result B) (l : list A) :
  (forall x, f x = g x) -> result_map f l = result_map g l.
Proof.
  intros Hfg. induction l as [|x l IH]; [reflexivity|]. cbn.
  rewrite Hfg, IH. reflexivity.
Qed.

Lemma summarize_session_columns df1 df2 key grp :
  columns df1 = columns df2 ->
  summarize_session df1 key grp = summarize_session df2 key grp.
Proof.
  intros Hc. unfold summarize_session, first_notna, has_col. rewrite Hc. reflexivity.
Qed.

Lemma map_timestamp_preserved (h : LogRow -> LogRow) (l : list LogRow) :
  (forall r, timestamp (h r) = timestamp r) -> map timestamp (map h l) = map timestamp l.
Proof.
  intros Hh. rewrite map_map. apply map_ext. exact Hh.
Qed.

Lemma has_col_frame cols rs col :
  has_col (mkLogFrame cols rs) col = bool_decide (col ∈ cols).
Proof. reflexivity. Qed.

(** ** Row positions as identifiers *)

Lemma pretty_N_char_digit x : is_digit (pretty_N_char x) = true.
Proof. unfold pretty_N_char. repeat case_match; reflexivity. Qed.

Lemma pretty_N_go_digits (x : N) :
  forall s, digits_only s = true -> s <> "" ->
            digits_only (pretty_N_go x s) = true /\ pretty_N_go x s <> "".
Proof.
  induction (N.lt_wf_0 x) as [x _ IH]. intros s Hd Hs.
  assert (x = 0 \/ 0 < x)%N as [->|Hpos] by lia.
  - rewrite pretty_N_go_0. split; assumption.
  - rewrite pretty_N_go_step by exact Hpos. apply IH.
    + apply N.div_lt; [exact Hpos | reflexivity].
    + cbn. rewrite pretty_N_char_digit, Hd. reflexivity.
    + discriminate.
Qed.

Lemma pretty_nat_digits (i : nat) : digits_only (pretty i) = true /\ pretty i <> "".
Proof.
  unfold pretty, pretty_nat, pretty, pretty_N.
  destruct (decide (N.of_nat i = 0%N)) as [_|Hne]; [split; [reflexivity|discriminate]|].
  rewrite pretty_N_go_step by lia. apply pretty_N_go_digits.
  - cbn. rewrite pretty_N_char_digit. reflexivity.
  - discriminate.
Qed.

Lemma pretty_nat_not_skipped (i : nat) : pretty i <> "" /\ pretty i <> "None".
Proof.
  destruct (pretty_nat_digits i) as [Hd Hne]. split; [exact Hne|].
  intros E. rewrite E in Hd. discriminate Hd.
Qed.

(** ** Which sessions a batch yields *)

Lemma elem_of_session_keys l k :
  k ∈ session_keys l <->
  k <> "" /\ k <> "None" /\ exists r, r ∈ l /\ session_of r = Some k.
Proof.
  unfold session_keys, sorted_unique.
  rewrite list_elem_of_filter, merge_sort_Permutation, elem_of_remove_dups,
    list_elem_of_omap.
  tauto.
Qed.

Lemma NoDup_session_keys l : NoDup (session_keys l).
Proof.
  unfold session_keys, sorted_unique. apply NoDup_filter.
  rewrite merge_sort_Permutation. apply NoDup_remove_dups.
Qed.

Lemma find_first {A} (p : A -> bool) (l : list A) x :
  List.find p l = Some x ->
  exists before after,
    l = before ++ x :: after /\ Forall (fun y => p y = false) before /\ p x = true.
Proof.
  induction l as [|a l IH]; cbn; [discriminate|].
  destruct (p a) eqn:Ea.
  - intros [= <-]. exists [], l. repeat split; [constructor | exact Ea].
  - intros Hf. destruct (IH Hf) as (before & after & -> & Hb & Hx).
    exists (a :: before), after. repeat split; [constructor; assumption | exact Hx].
Qed.

Lemma find_nothing {A} (p : A -> bool) (l : list A) :
  List.find p l = None -> Forall (fun y => p y = false) l.
Proof.
  induction l as [|a l IH]; cbn; [constructor|].
  destruct (p a) eqn:Ea; [discriminate|]. intros Hf. constructor; [exact Ea | apply IH, Hf].
Qed.

(** The identifiers of the returned records are the group keys. *)
Lemma transform_ids f out :
  transform_logs_to_sessions f = Ok out ->
  map conversation_id out =
  session_keys (sort_by_ts (rows (normalize_context (with_session_id f)))).
Proof.
  unfold transform_logs_to_sessions.
  destruct (has_col _ "timestamp"); cbn [negb]; [|discriminate].
  intros Hout. apply result_map_Ok in Hout.
  induction Hout as [|key r keys rs Hr _ IH]; [reflexivity|].
  cbn [map]. rewrite IH. f_equal.
  apply summarize_session_fields in Hr. apply Hr.
Qed.

Lemma with_session_id_columns f c :
  has_col f c = true -> has_col (with_session_id f) c = true.
Proof.
  unfold has_col, with_session_id. rewrite !bool_decide_eq_true. intros Hc.
  destruct (session_id_col f); cbn [copy_col index_col columns];
    apply elem_of_add_col, Hc.
Qed.

Lemma normalize_context_columns f c :
  has_col f c = true -> has_col (normalize_context f) c = true.
Proof.
  destruct f as [cols rs]. unfold has_col. rewrite !bool_decide_eq_true. cbn [columns].
  destruct (rowwise_normalize_context cols) as (cols' & h & Hn & _ & _ & Hc).
  rewrite Hn. cbn [columns]. apply Hc.
Qed.

(** With its [timestamp], [message] and [component] columns present the
    aggregation raises nothing. *)
Lemma transform_returns f :
  has_col f "timestamp" = true -> has_col f "message" = true ->
  has_col f "component" = true ->
  exists out, transform_logs_to_sessions f = Ok out.
Proof.
  intros Ht Hm Hc. unfold transform_logs_to_sessions.
  rewrite (normalize_context_columns _ _ (with_session_id_columns _ _ Ht)). cbn [negb].
  apply result_map_total. intros key _.
  apply summarize_session_Ok; apply normalize_context_columns, with_session_id_columns;
    assumption.
Qed.

(** The rows the aggregation groups, seen from the input rows. *)
Lemma prepared_rows_winner f c :
  session_id_col f = Some c ->
  forall k, (exists r, r ∈ rows (normalize_context (with_session_id f)) /\
                       session_of r = Some k) <->
            (exists r, r ∈ rows f /\ cells r !! c = Some k).
Proof.
  intros Hc k. destruct f as [cols rs]. unfold with_session_id. rewrite Hc.
  unfold copy_col. cbn [columns rows].
  destruct (rowwise_normalize_context (add_col "session_id" cols))
    as (cols' & h & Hn & _ & Hs & _).
  rewrite Hn. cbn [rows]. split.
  - intros (r & Hr & Hk).
    apply list_elem_of_fmap in Hr as (r1 & -> & Hr1).
    apply list_elem_of_fmap in Hr1 as (r0 & -> & Hr0).
    rewrite Hs, session_of_copy in Hk. exists r0. split; assumption.
  - intros (r0 & Hr0 & Hk).
    exists (h (set_cell "session_id" (get_cell r0 c) r0)). split.
    + apply list_elem_of_fmap. eexists. split; [reflexivity|].
      apply list_elem_of_fmap. exists r0. split; [reflexivity | exact Hr0].
    + rewrite Hs, session_of_copy. exact Hk.
Qed.

Lemma prepared_rows_index f :
  session_id_col f = None ->
  forall k, (exists r, r ∈ rows (normalize_context (with_session_id f)) /\
                       session_of r = Some k) <->
            (exists i, (i < length (rows f))%nat /\ k = pretty i).
Proof.
  intros Hc k. destruct f as [cols rs]. unfold with_session_id. rewrite Hc.
  unfold index_col. cbn [columns rows].
  destruct (rowwise_normalize_context (add_col "session_id" cols))
    as (cols' & h & Hn & _ & Hs & _).
  rewrite Hn. cbn [rows]. split.
  - intros (r & Hr & Hk).
    apply list_elem_of_fmap in Hr as (r1 & -> & Hr1).
    apply elem_of_lookup_imap in Hr1 as (i & r0 & -> & Hi).
    rewrite Hs, session_of_set_session in Hk. injection Hk as <-.
    exists i. split; [apply lookup_lt_Some in Hi; exact Hi | reflexivity].
  - intros (i & Hi & ->).
    destruct (lookup_lt_is_Some_2 rs i Hi) as [r0 Hr0].
    exists (h (set_cell "session_id" (PStr (pretty i)) r0)). split.
    + apply list_elem_of_fmap. eexists. split; [reflexivity|].
      apply (elem_of_lookup_imap_2
               (fun i r => set_cell "session_id" (PStr (pretty i)) r) rs r0 i Hr0).
    + rewrite Hs, session_of_set_session. reflexivity.
Qed.

(** ** Session Aggregator: identifier resolution *)

(** C3, as the code has it: the aggregation returns a result whenever
    the batch has its [timestamp], [message] and [component] columns,
    and on every batch for which it returns a result the identifiers are
    resolved as follows.  One candidate column wins for the whole batch,
    the first in the fixed order that exists and holds a non-null value.
    The records are then keyed by the distinct values of that column
    (other than [""] and ["None"]): a row without a value in it yields
    no record.  Only when no candidate has a value is every row keyed by
    its position, one record per row. *)
Theorem session_identifier_resolution f :
  (has_col f "timestamp" = true -> has_col f "message" = true ->
   has_col f "component" = true ->
   exists out, transform_logs_to_sessions f = Ok out) /\
  (forall out,
     transform_logs_to_sessions f = Ok out ->
     NoDup (map conversation_id out) /\
     match session_id_col f with
     | Some c =>
         (exists before after,
             possible_session_cols = before ++ c :: after /\
             Forall (fun c' => has_col f c' && any_notna f c' = false) before /\
             has_col f c && any_notna f c = true) /\
         (forall id, id ∈ map conversation_id out <->
                     id <> "" /\ id <> "None" /\
                     exists r, r ∈ rows f /\ cells r !! c = Some id)
     | None =>
         Forall (fun c' => has_col f c' && any_notna f c' = false) possible_session_cols /\
         length out = length (rows f) /\
         (forall id, id ∈ map conversation_id out <->
                     exists i, (i < length (rows f))%nat /\ id = pretty i)
     end).
Proof.
  split; [apply transform_returns|]. intros out Hout.
  pose proof (transform_ids f out Hout) as Hids.
  split; [rewrite Hids; apply NoDup_session_keys|].
  assert (Hmem : forall id,
             id ∈ map conversation_id out <->
             id <> "" /\ id <> "None" /\
             exists r, r ∈ rows (normalize_context (with_session_id f)) /\
                       session_of r = Some id).
  { intros id. rewrite Hids, elem_of_session_keys.
    setoid_rewrite sort_by_ts_Permutation. reflexivity. }
  destruct (session_id_col f) as [c|] eqn:Ec.
  - split; [exact (find_first (fun col => has_col f col && any_notna f col) _ c Ec)|].
    intros id. rewrite Hmem, (prepared_rows_winner f c Ec). reflexivity.
  - assert (Hidx : forall id, id ∈ map conversation_id out <->
                              exists i, (i < length (rows f))%nat /\ id = pretty i).
    { intros id. rewrite Hmem, (prepared_rows_index f Ec). split.
      - intros (_ & _ & H). exact H.
      - intros (i & Hi & ->). destruct (pretty_nat_not_skipped i) as [H1 H2].
        repeat split; [assumption..|]. exists i. split; [exact Hi | reflexivity]. }
    split; [exact (find_nothing (fun col => has_col f col && any_notna f col) _ Ec)|].
    split; [|exact Hidx].
    transitivity (length (map (pretty : nat -> string) (seq 0 (length (rows f))))).
    2: { rewrite length_map. apply length_seq. }
    rewrite <- (length_map conversation_id out).
    apply Permutation_length, NoDup_Permutation.
    + rewrite Hids. apply NoDup_session_keys.
    + apply NoDup_fmap_2; [apply _ | apply NoDup_seq].
    + intros id. rewrite Hidx, list_elem_of_fmap.
      setoid_rewrite elem_of_seq. split.
      * intros (i & Hi & ->). exists i. split; [reflexivity | lia].
      * intros (i & -> & Hi). exists i. split; [lia | reflexivity].
Qed.

Lemma session_identifier_resolution_witness :
  exists out,
    transform_logs_to_sessions logs_missing_session = Ok out /\
    NoDup (map conversation_id out) /\
    (forall id, id ∈ map conversation_id out <->
                id <> "" /\ id <> "None" /\
                exists r, r ∈ rows logs_missing_session /\
                          cells r !! "dialogflowSessionId" = Some id).
Proof.
  destruct (session_identifier_resolution logs_missing_session) as [Hret Hres].
  destruct (Hret eq_refl eq_refl eq_refl) as [out Hout].
  exists out. split; [exact Hout|].
  destruct (Hres out Hout) as [Hnd Hm]. split; [exact Hnd|].
  change (session_id_col logs_missing_session) with (Some "dialogflowSessionId") in Hm.
  apply Hm.
Defined.

(** C3, counterexample: the row at position 1 has no value in the winning
    column; the batch yields the single record of session ["s1"] and no
    record keyed by position 1. *)
Lemma row_without_session_value_dropped :
  session_id_col logs_missing_session = Some "dialogflowSessionId" /\
  (exists r, rows logs_missing_session !! 1%nat = Some r /\
             cells r !! "dialogflowSessionId" = None) /\
  transform_logs_to_sessions logs_missing_session =
  Ok [ {| conversation_id := "s1"; channel := "web"; uf := Some "sp";
          priority := Some "Média"; created_at := Some 0;
          completed_at := None; notification_sent_at := None;
          fallback := false; fallback_phrase := None;
          slots_filled := 6; slots_total := 6; escalated := false;
          abandoned := true; intent_final := "AbrirChamadoSuporte";
          protocol := "MONGO-s1" |} ].
Proof.
  split; [vm_compute; reflexivity|]. split.
  - eexists. split; [reflexivity|]. vm_compute. reflexivity.
  - vm_compute. reflexivity.
Qed.

(** Without any session column each row is its own session. *)
Example rows_keyed_by_position :
  match transform_logs_to_sessions
          (mkLogFrame ["timestamp"; "component"; "message"]
                      [log_row 0 [("message", "a")]; log_row 1 [("message", "b")]]) with
  | Ok out => map conversation_id out = ["0"; "1"]
  | Raise _ => False
  end.
Proof. vm_compute. reflexivity. Qed.

(** ** Session Aggregator: row order *)

Lemma result_map_ext_in {A B} (f g : A -> result B) (l : list A) :
  (forall x, x ∈ l -> f x = g x) -> result_map f l = result_map g l.
Proof.
  induction l as [|x l IH]; intros Hfg; [reflexivity|]. cbn.
  rewrite (Hfg x) by left. rewrite IH; [reflexivity|].
  intros y Hy. apply Hfg. right. exact Hy.
Qed.

Lemma session_keys_perm (l1 l2 : list LogRow) :
  l1 ≡ₚ l2 -> session_keys l1 = session_keys l2.
Proof.
  intros Hp. unfold session_keys. f_equal.
  apply sorted_unique_perm. rewrite Hp. reflexivity.
Qed.

Lemma group_rows_sorted key (l : list LogRow) :
  StronglySorted row_le (group_rows key (sort_by_ts l)).
Proof.
  unfold group_rows. apply StronglySorted_filter, Sorted_StronglySorted.
  - apply _.
  - apply sort_by_ts_Sorted.
Qed.

(** The sorted rows of one session do not depend on the input order when
    no two different rows of that session carry the same timestamp. *)
Lemma group_rows_perm key (l1 l2 : list LogRow) :
  l1 ≡ₚ l2 ->
  (forall x y, x ∈ l1 -> y ∈ l1 -> session_of x = Some key -> session_of y = Some key ->
               timestamp x = timestamp y -> x = y) ->
  group_rows key (sort_by_ts l1) = group_rows key (sort_by_ts l2).
Proof.
  intros Hp Hd. apply (StronglySorted_unique_strong row_le).
  - intros x y Hx Hy Hxy Hyx. unfold group_rows in Hx, Hy.
    apply list_elem_of_filter in Hx as [Hsx Hx].
    apply list_elem_of_filter in Hy as [Hsy Hy].
    rewrite sort_by_ts_Permutation in Hx.
    rewrite sort_by_ts_Permutation, <- Hp in Hy.
    apply Hd; try assumption. apply ts_le_antisym; assumption.
  - apply group_rows_sorted.
  - apply group_rows_sorted.
  - unfold group_rows. rewrite !sort_by_ts_Permutation, Hp. reflexivity.
Qed.

(** C9, as the code has it: the aggregation is a function of its input,
    and two inputs with the same columns and the same rows in different
    orders aggregate to the same result (the same records, or the same
    exception) when a session column is found and, within each session
    that yields a record, no two different rows carry the same
    timestamp; rows of different sessions may share timestamps. *)
Theorem aggregation_independent_of_row_order f1 f2 c :
  columns f1 = columns f2 ->
  rows f1 ≡ₚ rows f2 ->
  session_id_col f1 = Some c ->
  (forall r1 r2 k,
     r1 ∈ rows f1 -> r2 ∈ rows f1 ->
     cells r1 !! c = Some k -> cells r2 !! c = Some k ->
     k <> "" -> k <> "None" ->
     timestamp r1 = timestamp r2 -> r1 = r2) ->
  transform_logs_to_sessions f1 = transform_logs_to_sessions f2.
Proof.
  destruct f1 as [cols rs1], f2 as [cols2 rs2]. cbn [columns rows].
  intros <- Hp Hc Hd.
  assert (Hc2 : session_id_col (mkLogFrame cols rs2) = Some c).
  { rewrite <- (session_id_col_perm cols rs1 rs2 Hp). exact Hc. }
  unfold transform_logs_to_sessions, with_session_id. rewrite Hc, Hc2.
  unfold copy_col. cbn [columns rows].
  destruct (rowwise_normalize_context (add_col "session_id" cols))
    as (cols' & h & Hn & Ht & Hs & _).
  rewrite !Hn, !has_col_frame. cbn [rows].
  destruct (bool_decide ("timestamp" ∈ cols')); cbn [negb]; [|reflexivity].
  set (k := fun r : LogRow => set_cell "session_id" (get_cell r c) r).
  assert (Hpk : map h (map k rs1) ≡ₚ map h (map k rs2)).
  { apply Permutation_map, Permutation_map, Hp. }
  rewrite (session_keys_perm _ _ (sort_by_ts_Permutation (map h (map k rs1)))).
  rewrite (session_keys_perm _ _ (sort_by_ts_Permutation (map h (map k rs2)))).
  rewrite <- (session_keys_perm _ _ Hpk).
  apply result_map_ext_in. intros key Hkey.
  apply elem_of_session_keys in Hkey as (Hk1 & Hk2 & _).
  rewrite (summarize_session_columns (mkLogFrame cols' (map h (map k rs1)))
             (mkLogFrame cols' (map h (map k rs2)))) by reflexivity.
  f_equal. apply group_rows_perm; [exact Hpk|].
  intros x y Hx Hy Hsx Hsy Hxy.
  apply list_elem_of_fmap in Hx as (x1 & -> & Hx).
  apply list_elem_of_fmap in Hx as (x0 & -> & Hx).
  apply list_elem_of_fmap in Hy as (y1 & -> & Hy).
  apply list_elem_of_fmap in Hy as (y0 & -> & Hy).
  rewrite Hs in Hsx, Hsy. subst k. cbn beta in *.
  rewrite session_of_copy in Hsx, Hsy.
  rewrite !Ht in Hxy. cbn [set_cell timestamp] in Hxy.
  rewrite (Hd x0 y0 key); auto.
Qed.

Lemma aggregation_independent_of_row_order_witness :
  transform_logs_to_sessions
    (fallback_logs [fallback_event 0 "não entendi"; fallback_event minute "erro"]) =
  transform_logs_to_sessions
    (fallback_logs [fallback_event minute "erro"; fallback_event 0 "não entendi"]).
Proof.
  apply (aggregation_independent_of_row_order _ _ "session_id").
  - reflexivity.
  - apply perm_swap.
  - vm_compute. reflexivity.
  - intros r1 r2 k H1 H2 _ _ _ _.
    apply elem_of_cons in H1 as [->|H1]; [|apply elem_of_cons in H1 as [->|H1]; [|inversion H1]];
      (apply elem_of_cons in H2 as [->|H2]; [|apply elem_of_cons in H2 as [->|H2]; [|inversion H2]]);
      try reflexivity; vm_compute; intros [= E]; discriminate E.
Defined.

(** Two sessions whose events share their timestamps: the two row orders
    aggregate to the same records. *)
Example ties_across_sessions :
  let cols := ["timestamp"; "component"; "message"; "session_id"] in
  let a := log_row 0 [("session_id", "s1"); ("message", "a")] in
  let b := log_row 0 [("session_id", "s2"); ("message", "Fluxo concluído")] in
  transform_logs_to_sessions (mkLogFrame cols [a; b]) =
  transform_logs_to_sessions (mkLogFrame cols [b; a]).
Proof. vm_compute. reflexivity. Qed.

(** C9, counterexample: two fallback events of one session with the same
    timestamp.  The two row orders give different fallback phrases. *)
Lemma tied_timestamps_depend_on_row_order :
  let f1 := fallback_logs [fallback_event 0 "não entendi"; fallback_event 0 "erro"] in
  let f2 := fallback_logs [fallback_event 0 "erro"; fallback_event 0 "não entendi"] in
  columns f1 = columns f2 /\
  rows f1 ≡ₚ rows f2 /\
  match transform_logs_to_sessions f1, transform_logs_to_sessions f2 with
  | Ok [r1], Ok [r2] =>
      conversation_id r1 = "s1" /\ conversation_id r2 = "s1" /\
      fallback_phrase r1 = Some "não entendi" /\
      fallback_phrase r2 = Some "erro"
  | _, _ => False
  end /\
  transform_logs_to_sessions f1 <> transform_logs_to_sessions f2.
Proof.
  cbn zeta. split; [reflexivity|]. split; [apply perm_swap|].
  split; [vm_compute; repeat split|].
  vm_compute. discriminate.
Qed.

(** Keyed by position, the records also follow the row order. *)
Example positions_depend_on_row_order :
  let cols := ["timestamp"; "component"; "message"] in
  let a := log_row 0 [("message", "a")] in
  let b := log_row minute [("message", "Fluxo concluído")] in
  transform_logs_to_sessions (mkLogFrame cols [a; b]) <>
  transform_logs_to_sessions (mkLogFrame cols [b; a]).
Proof. vm_compute. discriminate. Qed.


(* ===================================================================== *)
(** * Further properties *)
(* ===================================================================== *)

(** ** Metrics Engine: bounds and counts *)

Lemma sum_Z_le (f g : ConversationRecord -> Z) (l : list ConversationRecord) :
  Forall (fun r => f r <= g r) l -> sum_Z (map f l) <= sum_Z (map g l).
Proof. unfold sum_Z. induction 1; cbn in *; lia. Qed.

Lemma slot_fill_rate_of_completed (df : list ConversationRecord) :
  Forall (fun r => 0 <= slots_filled r <= slots_total r)
         (filter (fun r => abandoned r = false) df) ->
  sum_Z (map slots_total (filter (fun r => abandoned r = false) df)) < 2 ^ 63 ->
  (0 <= slot_fill_rate (compute_metrics df) <= 1)%Q.
Proof.
  intros Hc Hfit. rewrite slot_fill_rate_code.
  set (completed := filter (fun r => abandoned r = false) df) in *.
  assert (H0 : 0 <= sum_Z (map slots_filled completed)).
  { apply sum_Z_nonneg, Forall_map. eapply Forall_impl; [exact Hc|].
    intros r Hr. cbn in Hr |- *. lia. }
  assert (Hle : sum_Z (map slots_filled completed) <= sum_Z (map slots_total completed)).
  { apply sum_Z_le. eapply Forall_impl; [exact Hc|].
    intros r Hr. cbn in Hr |- *. lia. }
  rewrite !sum_int64_exact by (unfold in_int64; lia).
  destruct (Z.ltb_spec 0 (sum_Z (map slots_total completed))) as [Hpos|_].
  - apply div_Q_unit_interval; [|exact Hpos]. split; assumption.
  - split; [apply Qle_refl | discriminate].
Qed.

(** X1: when every non-abandoned row has
    [0 <= slots_filled <= slots_total] and the slot totals of those rows
    add up to less than [2^63] (so that the column sums do not wrap
    around), the slot fill rate lies in [0, 1]. *)
Theorem slot_fill_rate_unit_interval (df : list ConversationRecord) :
  Forall (fun r => abandoned r = false -> 0 <= slots_filled r <= slots_total r) df ->
  sum_Z (map slots_total (filter (fun r => abandoned r = false) df)) < 2 ^ 63 ->
  (0 <= slot_fill_rate (compute_metrics df) <= 1)%Q.
Proof.
  intros Hall Hfit. apply slot_fill_rate_of_completed; [|exact Hfit].
  apply Forall_forall. intros r Hr. apply list_elem_of_filter in Hr as [Ha Hr].
  rewrite Forall_forall in Hall. apply Hall; assumption.
Qed.

Lemma slot_fill_rate_unit_interval_witness :
  (0 <= slot_fill_rate (compute_metrics [row_ok; row_abandoned]) <= 1)%Q.
Proof.
  apply slot_fill_rate_unit_interval.
  - repeat constructor; cbn; intros; lia.
  - vm_compute. reflexivity.
Defined.

(** Without the bound the rate can leave the interval: five completed
    rows of [2^62] slots, three of them filled, give sums that wrap to
    [2^62] and [-2^62], and a rate of -1. *)
Example slot_fill_rate_wrapped_negative :
  let full := row_slots "c" (2 ^ 62) (2 ^ 62) in
  let none := row_slots "c" 0 (2 ^ 62) in
  (slot_fill_rate (compute_metrics [full; full; full; none; none]) == -1)%Q.
Proof. vm_compute. reflexivity. Qed.

Lemma length_remove_dups_le {A} `{EqDecision A} (l : list A) :
  (length (remove_dups l) <= length l)%nat.
Proof.
  induction l as [|x l IH]; cbn; [lia|].
  destruct (decide_rel elem_of x l); cbn; lia.
Qed.

Lemma length_remove_dups_eq {A} `{EqDecision A} (l : list A) :
  length (remove_dups l) = length l -> NoDup l.
Proof.
  induction l as [|x l IH]; cbn; [constructor|].
  pose proof (length_remove_dups_le l).
  destruct (decide_rel elem_of x l) as [Hin|Hnin]; cbn; intros Hlen; [lia|].
  constructor; [exact Hnin | apply IH; lia].
Qed.

(** X2: [total_conv] never exceeds the number of rows, it is 0 only on
    the empty record set, and it equals the number of rows exactly when
    the [conversation_id]s are pairwise distinct. *)
Theorem total_conv_bounds (df : list ConversationRecord) :
  let n := total_conv (compute_metrics df) in
  0 <= n <= Z.of_nat (length df) /\
  (n = 0 <-> df = []) /\
  (n = Z.of_nat (length df) <-> NoDup (map conversation_id df)).
Proof.
  cbn. unfold nunique.
  pose proof (length_remove_dups_le (map conversation_id df)) as Hle.
  rewrite length_map in Hle. split; [lia|]. split.
  - split.
    + intros H0. destruct df as [|r df]; [reflexivity|]. exfalso.
      assert (Hin : conversation_id r ∈ remove_dups (map conversation_id (r :: df))).
      { apply elem_of_remove_dups. left. }
      destruct (remove_dups (map conversation_id (r :: df))); [inversion Hin | discriminate].
    + intros ->. reflexivity.
  - split.
    + intros Hn. apply length_remove_dups_eq. rewrite length_map. lia.
    + intros Hnd. rewrite <- (length_map conversation_id df).
      f_equal. apply Permutation_length, NoDup_Permutation;
        [apply NoDup_remove_dups | exact Hnd | apply elem_of_remove_dups].
Qed.

(** ** Metrics Engine: independence of the row order *)

Lemma sum_Z_perm (l1 l2 : list Z) : l1 ≡ₚ l2 -> sum_Z l1 = sum_Z l2.
Proof. unfold sum_Z. induction 1; cbn in *; lia. Qed.

Lemma mean_None (l : list Q) : mean l = None <-> l = [].
Proof. destruct l; cbn; split; congruence. Qed.

Lemma Permutation_nil_iff {A} (l1 l2 : list A) : l1 ≡ₚ l2 -> l1 = [] <-> l2 = [].
Proof.
  intros Hp. apply Permutation_length in Hp.
  destruct l1, l2; try discriminate; split; congruence.
Qed.

Lemma nunique_perm (l1 l2 : list string) : l1 ≡ₚ l2 -> nunique l1 = nunique l2.
Proof.
  intros Hp. unfold nunique. f_equal. apply Permutation_length, remove_dups_perm, Hp.
Qed.

Lemma count_rows_perm p (df1 df2 : list ConversationRecord) :
  df1 ≡ₚ df2 -> count_rows p df1 = count_rows p df2.
Proof. intros Hp. unfold count_rows. rewrite Hp. reflexivity. Qed.

Lemma group_sizes_perm (k1 k2 : list (option string)) :
  k1 ≡ₚ k2 -> group_sizes k1 = group_sizes k2.
Proof.
  intros Hp. unfold group_sizes.
  assert (Ho : omap id k1 ≡ₚ omap id k2) by (rewrite Hp; reflexivity).
  rewrite (sorted_unique_perm _ _ Ho). apply map_ext. intros k.
  rewrite Ho. reflexivity.
Qed.

(** X3: the counts, rates and grouped counts do not depend on the order
    of the rows: for two record sets with the same rows in different
    orders [total_conv], the four boolean rates, the slot fill rate and
    both grouped counts are the same, and each average is NaN in both or
    in neither.  (The value of an average is a float sum taken in row
    order; it is left out.) *)
Theorem compute_metrics_row_order (df1 df2 : list ConversationRecord) :
  df1 ≡ₚ df2 ->
  let m1 := compute_metrics df1 in
  let m2 := compute_metrics df2 in
  total_conv m1 = total_conv m2 /\
  fallback_rate m1 = fallback_rate m2 /\
  slot_fill_rate m1 = slot_fill_rate m2 /\
  escalation_rate m1 = escalation_rate m2 /\
  abandonment_rate m1 = abandonment_rate m2 /\
  pct_high_priority m1 = pct_high_priority m2 /\
  reports_by_channel m1 = reports_by_channel m2 /\
  reports_by_uf m1 = reports_by_uf m2 /\
  (avg_completion_min m1 = None <-> avg_completion_min m2 = None) /\
  (avg_notif_delay_min m1 = None <-> avg_notif_delay_min m2 = None).
Proof.
  intros Hp m1 m2.
  assert (Hn : nunique (map conversation_id df1) = nunique (map conversation_id df2)).
  { apply nunique_perm. rewrite Hp. reflexivity. }
  assert (Hrate : forall p,
             rate (count_rows p df1) (nunique (map conversation_id df1)) =
             rate (count_rows p df2) (nunique (map conversation_id df2))).
  { intros p. rewrite Hn, (count_rows_perm p df1 df2 Hp). reflexivity. }
  split; [exact Hn|]. split; [apply Hrate|]. split.
  { subst m1 m2. rewrite !slot_fill_rate_code, !sum_int64_wrap.
    assert (Hf : filter (fun r => abandoned r = false) df1 ≡ₚ
                 filter (fun r => abandoned r = false) df2) by (rewrite Hp; reflexivity).
    rewrite (sum_Z_perm (map slots_total _) (map slots_total _)) by (rewrite Hf; reflexivity).
    rewrite (sum_Z_perm (map slots_filled _) (map slots_filled _)) by (rewrite Hf; reflexivity).
    reflexivity. }
  split; [apply Hrate|]. split; [apply Hrate|]. split; [apply Hrate|].
  split; [apply group_sizes_perm; rewrite Hp; reflexivity|].
  split; [apply group_sizes_perm; rewrite Hp; reflexivity|].
  subst m1 m2. cbn [compute_metrics avg_completion_min avg_notif_delay_min].
  rewrite !mean_None.
  split; apply Permutation_nil_iff; rewrite Hp; reflexivity.
Qed.

Lemma compute_metrics_row_order_witness :
  fallback_rate (compute_metrics [row_ok; row_abandoned]) =
  fallback_rate (compute_metrics [row_abandoned; row_ok]).
Proof.
  apply (compute_metrics_row_order [row_ok; row_abandoned] [row_abandoned; row_ok]).
  apply perm_swap.
Defined.

(** ** Metrics Engine: grouped counts *)

Lemma sum_counts_cons ks x l : sum_counts ks (x :: l) = sum_counts ks l + hits x ks.
Proof.
  unfold sum_counts, hits, sum_Z. induction ks as [|k ks IH]; [reflexivity|].
  cbn [map foldr]. rewrite IH. rewrite (filter_cons (fun y => y = k) x l).
  rewrite (filter_cons (fun k0 => x = k0) k ks).
  destruct (decide (x = k)) as [->|Hne]; cbn [length]; lia.
Qed.

Lemma filter_none {A} (P : A -> Prop) `{forall x, Decision (P x)} (l : list A) :
  (forall x, x ∈ l -> ~ P x) -> filter P l = [].
Proof.
  induction l as [|a l IH]; intros Hall; [reflexivity|].
  rewrite filter_cons. destruct (decide (P a)) as [Ha|_].
  - exfalso. apply (Hall a); [left | exact Ha].
  - apply IH. intros x Hx. apply Hall. right. exact Hx.
Qed.

Lemma hits_once x ks : NoDup ks -> x ∈ ks -> hits x ks = 1.
Proof.
  unfold hits. induction 1 as [|k ks Hnin Hnd IH]; intros Hx; [inversion Hx|].
  rewrite filter_cons. destruct (decide (x = k)) as [->|Hne].
  - assert (E : filter (fun k0 => k = k0) ks = []).
    { apply filter_none. intros y Hy ->. exact (Hnin Hy). }
    rewrite E. reflexivity.
  - apply elem_of_cons in Hx as [Hx|Hx]; [congruence | apply IH, Hx].
Qed.

Lemma sum_counts_total ks l :
  NoDup ks -> (forall x, x ∈ l -> x ∈ ks) -> sum_counts ks l = Z.of_nat (length l).
Proof.
  intros Hnd. induction l as [|x l IH]; intros Hall.
  - clear. unfold sum_counts, sum_Z. induction ks as [|k ks IHk]; [reflexivity|].
    cbn [map foldr]. rewrite IHk. reflexivity.
  - rewrite sum_counts_cons, IH, (hits_once x ks Hnd).
    + cbn [length]. lia.
    + apply Hall. left.
    + intros y Hy. apply Hall. right. exact Hy.
Qed.

Lemma group_sizes_spec (keys : list (option string)) :
  let g := group_sizes keys in
  Sorted str_le (map fst g) /\
  NoDup (map fst g) /\
  (forall k, k ∈ map fst g <-> Some k ∈ keys) /\
  Forall (fun kc => 1 <= snd kc) g /\
  sum_Z (map snd g) = Z.of_nat (length (omap id keys)).
Proof.
  cbn. unfold group_sizes. set (present := omap id keys).
  destruct (sorted_unique_spec present) as (Hs & Hnd & Hin).
  assert (Hfst : map fst (map (fun k => (k, Z.of_nat (length (filter (fun x => x = k) present))))
                              (sorted_unique present)) = sorted_unique present).
  { rewrite map_map. cbn. apply map_id. }
  rewrite Hfst. split; [exact Hs|]. split; [exact Hnd|]. split; [|split].
  - intros k. rewrite Hin. unfold present. rewrite list_elem_of_omap. split.
    + intros (o & Ho & Hk). cbn in Hk. subst o. exact Ho.
    + intros Hk. exists (Some k). split; [exact Hk | reflexivity].
  - apply Forall_map, Forall_forall. intros k Hk. cbn.
    apply Hin in Hk.
    assert (Hk' : k ∈ filter (fun x => x = k) present).
    { apply list_elem_of_filter. split; [reflexivity | exact Hk]. }
    destruct (filter (fun x => x = k) present); [inversion Hk' | cbn; lia].
  - rewrite map_map. cbn.
    apply (sum_counts_total (sorted_unique present) present Hnd).
    intros x Hx. apply Hin, Hx.
Qed.

(** X4: the grouped counts.  [reports_by_channel] lists each channel
    that occurs exactly once, in sorted order, with a count of at least
    1, and its counts add up to the number of rows; the counts of
    [reports_by_uf] add up to the number of rows whose [uf] is not
    null. *)
Theorem reports_by_channel_counts (df : list ConversationRecord) :
  let m := compute_metrics df in
  Sorted str_le (map fst (reports_by_channel m)) /\
  NoDup (map fst (reports_by_channel m)) /\
  (forall c, c ∈ map fst (reports_by_channel m) <-> exists r, r ∈ df /\ channel r = c) /\
  Forall (fun kc => 1 <= snd kc) (reports_by_channel m) /\
  sum_Z (map snd (reports_by_channel m)) = Z.of_nat (length df) /\
  sum_Z (map snd (reports_by_uf m)) =
    Z.of_nat (length (filter (fun r => uf r <> None) df)).
Proof.
  cbn zeta. cbn [compute_metrics reports_by_channel reports_by_uf].
  destruct (group_sizes_spec (map (fun r => Some (channel r)) df))
    as (H1 & H2 & H3 & H4 & H5).
  destruct (group_sizes_spec (map uf df)) as (_ & _ & _ & _ & U5).
  cbn zeta in *.
  split; [exact H1|]. split; [exact H2|]. split; [|split; [exact H4|split]].
  - intros c. rewrite H3, list_elem_of_fmap. split.
    + intros (r & [= ->] & Hr). exists r. split; [exact Hr | reflexivity].
    + intros (r & Hr & <-). exists r. split; [reflexivity | exact Hr].
  - rewrite H5. f_equal. clear. induction df as [|r df IH]; [reflexivity|].
    cbn in *. f_equal. exact IH.
  - rewrite U5. f_equal. clear. induction df as [|r df IH]; [reflexivity|].
    rewrite filter_cons. destruct (decide (uf r <> None)) as [Hu|Hu].
    + destruct (uf r) as [u|] eqn:Eu; [|congruence].
      cbn in *. rewrite Eu. cbn. f_equal. exact IH.
    + destruct (uf r) as [u|] eqn:Eu; [exfalso; apply Hu; discriminate|].
      cbn in *. rewrite Eu. cbn. exact IH.
Qed.

(** ** Metrics Engine: the averages *)

Lemma omap_nil {A B} (f : A -> option B) (l : list A) :
  omap f l = [] <-> forall x, x ∈ l -> f x = None.
Proof.
  induction l as [|a l IH]; cbn.
  - split; [intros _ x Hx; inversion Hx | reflexivity].
  - destruct (f a) as [b|] eqn:Ea.
    + split; [discriminate|]. intros H. specialize (H a (list_elem_of_here a l)). congruence.
    + rewrite IH. split.
      * intros H x Hx. apply elem_of_cons in Hx as [->|Hx]; [exact Ea | apply H, Hx].
      * intros H x Hx. apply H. right. exact Hx.
Qed.

Lemma sum_Q_nonneg (l : list Q) :
  Forall (fun q => (0 <= q)%Q) l -> (0 <= foldr Qplus 0 l)%Q.
Proof.
  induction 1 as [|q l Hq _ IH]; cbn; lra.
Qed.

Lemma mean_nonneg (l : list Q) q :
  Forall (fun x => (0 <= x)%Q) l -> mean l = Some q -> (0 <= q)%Q.
Proof.
  intros Hall. destruct l as [|x l]; [discriminate|]. intros [= <-].
  apply Qle_shift_div_l.
  - rewrite <- (Zlt_Qlt 0). cbn [length]. lia.
  - rewrite Qmult_0_l. exact (sum_Q_nonneg (x :: l) Hall).
Qed.

Lemma minutes_between_nonneg a b q :
  a <= b -> minutes_between (Some a) (Some b) = Some q -> (0 <= q)%Q.
Proof.
  intros Hab [= <-]. unfold div_Q. apply Qle_shift_div_l; [reflexivity|].
  rewrite Qmult_0_l. rewrite <- (Zle_Qle 0). lia.
Qed.

(** X5: the average completion time is NaN exactly when no non-abandoned
    row has both [created_at] and [completed_at]; the average
    notification delay is NaN exactly when no row has both [created_at]
    and [notification_sent_at]; and when no row is completed before it
    was created the average completion time is not negative. *)
Theorem averages_defined (df : list ConversationRecord) :
  let m := compute_metrics df in
  (avg_completion_min m = None <->
   forall r, r ∈ df -> abandoned r = false ->
             created_at r = None \/ completed_at r = None) /\
  (avg_notif_delay_min m = None <->
   forall r, r ∈ df -> created_at r = None \/ notification_sent_at r = None) /\
  (forall q,
     avg_completion_min m = Some q ->
     (forall r a b, r ∈ df -> created_at r = Some a -> completed_at r = Some b -> a <= b) ->
     (0 <= q)%Q).
Proof.
  cbn zeta. cbn [compute_metrics avg_completion_min avg_notif_delay_min].
  split; [|split].
  - rewrite mean_None, omap_nil. split.
    + intros H r Hr Ha.
      destruct (completed_at r) as [b|] eqn:Eb; [|right; reflexivity].
      destruct (created_at r) as [a|] eqn:Ea; [|left; reflexivity].
      exfalso. specialize (H r). rewrite Ea, Eb in H. cbn in H.
      assert (Hin : r ∈ filter (fun r => is_Some (completed_at r))
                        (filter (fun r => negb (abandoned r) = true) df)).
      { apply list_elem_of_filter. split; [rewrite Eb; eauto|].
        apply list_elem_of_filter. split; [rewrite Ha; reflexivity | exact Hr]. }
      discriminate (H Hin).
    + intros H r Hr. apply list_elem_of_filter in Hr as [_ Hr].
      apply list_elem_of_filter in Hr as [Ha Hr].
      destruct (abandoned r) eqn:Eab; [discriminate|].
      destruct (H r Hr Eab) as [-> | ->]; [reflexivity|].
      destruct (created_at r); reflexivity.
  - rewrite mean_None, omap_nil. split.
    + intros H r Hr.
      destruct (notification_sent_at r) as [b|] eqn:Eb; [|right; reflexivity].
      destruct (created_at r) as [a|] eqn:Ea; [|left; reflexivity].
      exfalso. specialize (H r). rewrite Ea, Eb in H. cbn in H.
      assert (Hin : r ∈ filter (fun r => is_Some (notification_sent_at r)) df).
      { apply list_elem_of_filter. split; [rewrite Eb; eauto | exact Hr]. }
      discriminate (H Hin).
    + intros H r Hr. apply list_elem_of_filter in Hr as [_ Hr].
      destruct (H r Hr) as [-> | ->]; [reflexivity|].
      destruct (created_at r); reflexivity.
  - intros q Hq Hord. eapply mean_nonneg; [|exact Hq].
    apply Forall_forall. intros x Hx.
    apply list_elem_of_omap in Hx as (r & Hr & Hx).
    apply list_elem_of_filter in Hr as [_ Hr].
    apply list_elem_of_filter in Hr as [_ Hr].
    destruct (created_at r) as [a|] eqn:Ea; [|discriminate].
    destruct (completed_at r) as [b|] eqn:Eb; [|discriminate].
    eapply minutes_between_nonneg; [|exact Hx]. eapply Hord; eassumption.
Qed.

(** ** Session Aggregator: when it raises *)

(** Decide a closed membership or distinctness fact by evaluation. *)
Ltac by_evaluation := apply (bool_decide_unpack _); vm_compute; exact I.

Lemma elem_of_add_col_iff c col cols : c ∈ add_col col cols <-> c = col \/ c ∈ cols.
Proof.
  unfold add_col. destruct (bool_decide (col ∈ cols)) eqn:E.
  - apply bool_decide_eq_true in E. split; [auto|]. intros [->|H]; assumption.
  - rewrite elem_of_app, list_elem_of_singleton. tauto.
Qed.

Lemma has_col_copy_col dst src f c :
  c <> dst -> has_col (copy_col dst src f) c = has_col f c.
Proof.
  intros Hne. unfold has_col, copy_col. cbn [columns].
  apply bool_decide_ext. rewrite elem_of_add_col_iff. tauto.
Qed.

Lemma has_col_index_col dst f c :
  c <> dst -> has_col (index_col dst f) c = has_col f c.
Proof.
  intros Hne. unfold has_col, index_col. cbn [columns].
  apply bool_decide_ext. rewrite elem_of_add_col_iff. tauto.
Qed.

Lemma has_col_flatten flat f c :
  c <> flat -> has_col (flatten_if_missing flat f) c = has_col f c.
Proof.
  intros Hne. unfold flatten_if_missing.
  destruct (has_col f flat); [reflexivity|].
  destruct (has_col f _); [apply has_col_copy_col, Hne | reflexivity].
Qed.

(** The preparation adds only the session, intent, query and business
    columns: any other column is there afterwards exactly when it was
    there before. *)
Lemma has_col_prepared f c :
  c ∉ ["session_id"; "intentName"; "queryText"; "protocolo"; "prioridade"; "uf"; "channel"] ->
  has_col (normalize_context (with_session_id f)) c = has_col f c.
Proof.
  intros Hc.
  assert (Hne : forall x, x ∈ ["session_id"; "intentName"; "queryText"; "protocolo";
                               "prioridade"; "uf"; "channel"] -> c <> x).
  { intros x Hx ->. exact (Hc Hx). }
  unfold normalize_context. cbn [foldl].
  rewrite !has_col_flatten by (apply Hne; by_evaluation).
  unfold with_session_id.
  destruct (session_id_col f);
    [apply has_col_copy_col | apply has_col_index_col]; apply Hne; by_evaluation.
Qed.

Lemma has_session_keys f :
  has_session f <->
  session_keys (sort_by_ts (rows (normalize_context (with_session_id f)))) <> [].
Proof.
  set (keys := session_keys _).
  assert (Hk : keys <> [] <-> exists k, k ∈ keys).
  { destruct keys as [|k ks]; split.
    - congruence.
    - intros [k Hk]. inversion Hk.
    - intros _. exists k. left.
    - discriminate. }
  rewrite Hk. subst keys. setoid_rewrite elem_of_session_keys.
  setoid_rewrite sort_by_ts_Permutation.
  unfold has_session. destruct (session_id_col f) as [c|] eqn:Ec.
  - setoid_rewrite (prepared_rows_winner f c Ec). split.
    + intros (r & k & Hr & Hv & H1 & H2). exists k. eauto.
    + intros (k & H1 & H2 & r & Hr & Hv). exists r, k. eauto.
  - setoid_rewrite (prepared_rows_index f Ec). split.
    + intros Hne. exists (pretty 0%nat).
      destruct (pretty_nat_not_skipped 0) as [H1 H2].
      repeat split; [assumption..|]. exists 0%nat. split; [|reflexivity].
      destruct (rows f); [congruence | cbn; lia].
    + intros (k & _ & _ & i & Hi & _) E. rewrite E in Hi. cbn in Hi. lia.
Qed.

Lemma summarize_session_no_message df key grp :
  has_col df "message" = false -> summarize_session df key grp = Raise no_astype.
Proof. intros Hm. unfold summarize_session. rewrite Hm. reflexivity. Qed.

Lemma summarize_session_no_component df key grp :
  has_col df "message" = true -> has_col df "component" = false ->
  summarize_session df key grp = Raise no_astype.
Proof.
  intros Hm Hc. unfold summarize_session. rewrite Hm, Hc. cbn [negb].
  destruct (has_col df "intentName" && existsb is_fallback_intent grp);
    [|destruct (existsb _ grp)]; reflexivity.
Qed.

Lemma transform_without_session (f : LogFrame) :
  has_col f "timestamp" = true -> ~ has_session f ->
  transform_logs_to_sessions f = Ok [].
Proof.
  intros Ht Hno. unfold transform_logs_to_sessions.
  rewrite has_col_prepared, Ht by by_evaluation. cbn [negb].
  destruct (session_keys _) as [|k ks] eqn:Ek; [reflexivity|].
  exfalso. apply Hno, has_session_keys. rewrite Ek. discriminate.
Qed.

Lemma transform_with_columns (f : LogFrame) :
  has_col f "timestamp" = true ->
  has_col f "message" = true -> has_col f "component" = true ->
  exists out, transform_logs_to_sessions f = Ok out /\
              (out <> [] <-> has_session f).
Proof.
  intros Ht Hm Hc. destruct (transform_returns f Ht Hm Hc) as [out Hout].
  exists out. split; [exact Hout|].
  rewrite has_session_keys, <- (transform_ids f out Hout).
  destruct out; cbn; split; congruence.
Qed.

(** X6: when the aggregation raises.  Without a [timestamp] column it
    raises [KeyError]; with one, a batch without any usable session
    yields the empty result; with a usable session it raises
    [AttributeError] when the [message] or the [component] column is
    missing, and returns its records when both are there. *)
Theorem transform_error_behaviour (f : LogFrame) :
  (has_col f "timestamp" = false ->
   transform_logs_to_sessions f = Raise (KeyError "timestamp")) /\
  (has_col f "timestamp" = true -> ~ has_session f ->
   transform_logs_to_sessions f = Ok []) /\
  (has_col f "timestamp" = true -> has_session f ->
   has_col f "message" = false \/ has_col f "component" = false ->
   transform_logs_to_sessions f = Raise no_astype) /\
  (has_col f "timestamp" = true ->
   has_col f "message" = true -> has_col f "component" = true ->
   exists out, transform_logs_to_sessions f = Ok out /\
               (out <> [] <-> has_session f)).
Proof.
  split; [|split; [apply transform_without_session|split; [|apply transform_with_columns]]].
  - intros Ht. unfold transform_logs_to_sessions.
    rewrite has_col_prepared, Ht by by_evaluation. reflexivity.
  - intros Ht Hs Hmiss. unfold transform_logs_to_sessions.
    rewrite has_col_prepared, Ht by by_evaluation. cbn [negb].
    apply has_session_keys in Hs.
    destruct (session_keys _) as [|k ks]; [congruence|]. cbn [result_map].
    destruct (has_col f "message") eqn:Em.
    + destruct Hmiss as [Hm|Hc]; [discriminate|].
      rewrite summarize_session_no_component; [reflexivity|..];
        rewrite has_col_prepared by by_evaluation; assumption.
    + rewrite summarize_session_no_message; [reflexivity|].
      rewrite has_col_prepared by by_evaluation. exact Em.
Qed.

Lemma transform_error_behaviour_witness :
  transform_logs_to_sessions logs_without_message = Raise no_astype.
Proof.
  destruct (transform_error_behaviour logs_without_message) as (_ & _ & H & _).
  apply H.
  - reflexivity.
  - exists (log_row 0 [("_id", "65f0"); ("dialogflowSessionId", "s1")]), "s1".
    repeat split; [left | discriminate | discriminate].
  - left. reflexivity.
Defined.

(** ** Session Aggregator: the fields of a record *)

Lemma ts_min_cons (o : option Z) (l : list (option Z)) :
  ts_min (o :: l) =
  match o, ts_min l with
  | Some a, Some b => Some (Z.min a b)
  | Some a, None => Some a
  | None, acc => acc
  end.
Proof. reflexivity. Qed.

Lemma ts_min_None (l : list (option Z)) : ts_min l = None -> forall x, Some x ∉ l.
Proof.
  induction l as [|o l IH]; intros Hn x Hx; [inversion Hx|].
  rewrite ts_min_cons in Hn.
  destruct o as [a|]; [destruct (ts_min l); discriminate|].
  apply elem_of_cons in Hx as [Hx|Hx]; [discriminate | exact (IH Hn x Hx)].
Qed.

Lemma ts_min_Some (l : list (option Z)) m :
  ts_min l = Some m -> Some m ∈ l /\ forall x, Some x ∈ l -> m <= x.
Proof.
  revert m. induction l as [|o l IH]; intros m; [discriminate|].
  rewrite ts_min_cons. destruct o as [a|].
  - destruct (ts_min l) as [b|] eqn:Eb.
    + intros [= <-]. destruct (IH b eq_refl) as [Hin Hmin]. split.
      * destruct (Z.min_spec a b) as [[_ ->]|[_ ->]]; [left | right; exact Hin].
      * intros x Hx. apply elem_of_cons in Hx as [[= ->]|Hx]; [lia|].
        specialize (Hmin x Hx). lia.
    + intros [= <-]. split; [left|].
      intros x Hx. apply elem_of_cons in Hx as [[= ->]|Hx]; [lia|].
      exfalso. exact (ts_min_None l Eb x Hx).
  - intros Hm. destruct (IH m Hm) as [Hin Hmin]. split; [right; exact Hin|].
    intros x Hx. apply elem_of_cons in Hx as [Hx|Hx]; [discriminate | apply Hmin, Hx].
Qed.

(** The minimum over some of the rows is not before the minimum over all
    of them. *)
Lemma ts_min_filter (P : LogRow -> Prop) `{forall r, Decision (P r)} (grp : list LogRow) :
  match ts_min (map timestamp grp), ts_min (map timestamp (filter P grp)) with
  | Some a, Some b => a <= b
  | None, Some _ => False
  | _, None => True
  end.
Proof.
  destruct (ts_min (map timestamp (filter P grp))) as [b|] eqn:Eb;
    [|destruct (ts_min (map timestamp grp)); exact I].
  apply ts_min_Some in Eb as [Hb _].
  apply list_elem_of_fmap in Hb as (r & Hr & Hin).
  apply list_elem_of_filter in Hin as [_ Hin].
  assert (Hall : Some b ∈ map timestamp grp).
  { rewrite Hr. apply list_elem_of_fmap. exists r. split; [reflexivity | exact Hin]. }
  destruct (ts_min (map timestamp grp)) as [a|] eqn:Ea.
  - apply ts_min_Some in Ea as [_ Hmin]. apply Hmin, Hall.
  - exact (ts_min_None _ Ea b Hall).
Qed.


Lemma ascii_lower_idem c : ascii_lower (ascii_lower c) = ascii_lower c.
Proof.
  destruct c as [[] [] [] [] [] [] [] []]; reflexivity.
Qed.

Lemma str_lower_idem s : str_lower (str_lower s) = str_lower s.
Proof.
  induction s as [|c s IH]; [reflexivity|]. cbn. rewrite ascii_lower_idem, IH. reflexivity.
Qed.


(** The record of a group, field by field. *)
Lemma summarize_session_record df key grp r :
  summarize_session df key grp = Ok r ->
  created_at r = ts_min (map timestamp grp) /\
  completed_at r =
    ts_min (map timestamp
              (filter (fun r => str_contains_any_ci completion_patterns
                                  (cell_str r "message") = true) grp)) /\
  notification_sent_at r =
    ts_min (map timestamp
              (filter (fun r => cell_contains "SendGrid" "component" r = true) grp)) /\
  channel r = or_default (first_notna df "channel" grp) "web" /\
  priority r = Some (or_default (first_notna df "prioridade" grp) "Média") /\
  uf r = Some (if truthy (first_notna df "uf" grp)
               then str_lower (or_default (first_notna df "uf" grp) "") else "sp") /\
  intent_final r = "AbrirChamadoSuporte" /\
  (fallback_phrase r <> None -> fallback r = true).
Proof.
  unfold summarize_session.
  destruct (has_col df "message"); cbn [negb]; [|discriminate].
  destruct (has_col df "component"); cbn [negb].
  2: { destruct (has_col df "intentName" && existsb is_fallback_intent grp);
         [|destruct (existsb _ grp)]; discriminate. }
  assert (Hm : forall l : list LogRow,
             match l with [] => None | _ => ts_min (map timestamp l) end =
             ts_min (map timestamp l)).
  { intros [|x l]; reflexivity. }
  destruct (has_col df "intentName" && existsb is_fallback_intent grp);
    [|destruct (existsb _ grp)];
    intros [= <-]; cbn; rewrite !Hm; repeat split; congruence.
Qed.

Lemma transform_records f out :
  transform_logs_to_sessions f = Ok out ->
  forall r, r ∈ out ->
            exists df key grp, summarize_session df key grp = Ok r.
Proof.
  unfold transform_logs_to_sessions.
  destruct (has_col _ "timestamp"); cbn [negb]; [|discriminate].
  intros Hout. apply result_map_Ok in Hout.
  induction Hout as [|key r keys rs Hr _ IH]; intros x Hx; [inversion Hx|].
  apply elem_of_cons in Hx as [->|Hx]; [eauto | apply IH, Hx].
Qed.

(** X7: in every aggregated record the session opens first: a non-null
    [completed_at] or [notification_sent_at] is never before
    [created_at], and both are null when [created_at] is. *)
Theorem session_opens_first (f : LogFrame) (out : list ConversationRecord) :
  transform_logs_to_sessions f = Ok out ->
  Forall (fun r =>
            match created_at r with
            | Some a =>
                (forall b, completed_at r = Some b -> a <= b) /\
                (forall b, notification_sent_at r = Some b -> a <= b)
            | None => completed_at r = None /\ notification_sent_at r = None
            end) out.
Proof.
  intros Hout. apply Forall_forall. intros r Hr.
  destruct (transform_records f out Hout r Hr) as (df & key & grp & Hs).
  apply summarize_session_record in Hs as (Hc & Hd & Hn & _).
  rewrite Hc, Hd, Hn.
  pose proof (ts_min_filter
                (fun r => str_contains_any_ci completion_patterns
                            (cell_str r "message") = true) grp) as H1.
  pose proof (ts_min_filter (fun r => cell_contains "SendGrid" "component" r = true) grp) as H2.
  destruct (ts_min (map timestamp grp)) as [a|].
  - split; intros b Hb; [rewrite Hb in H1; exact H1 | rewrite Hb in H2; exact H2].
  - split.
    + destruct (ts_min (map timestamp (filter _ grp))); [contradiction | reflexivity].
    + destruct (ts_min (map timestamp (filter (fun r => cell_contains _ _ r = true) grp)));
        [contradiction | reflexivity].
Qed.

Lemma session_opens_first_witness :
  Forall (fun r =>
            match created_at r with
            | Some a =>
                (forall b, completed_at r = Some b -> a <= b) /\
                (forall b, notification_sent_at r = Some b -> a <= b)
            | None => completed_at r = None /\ notification_sent_at r = None
            end) (records logs_only_result).
Proof.
  apply (session_opens_first
           (scenario_logs "dialogflowSessionId" 0 (5 * minute) (10 * minute))).
  vm_compute. reflexivity.
Defined.

(** ** Session Aggregator: where the business fields come from *)
















Lemma is_ascii_lower_default : str_lower "sp" = "sp".
Proof. reflexivity. Qed.



(** Two events of one session: the region comes from the earlier one,
    lower-cased, and the channel, which no event gives, is the
    default. *)
Example business_fields_first_value :
  match transform_logs_to_sessions
          (mkLogFrame ["timestamp"; "component"; "message"; "session_id"; "context.uf"]
             [ log_row minute [("session_id", "s1"); ("context.uf", "RJ")];
               log_row 0 [("session_id", "s1"); ("context.uf", "MG")] ]) with
  | Ok [r] => uf r = Some "mg" /\ channel r = "web"
  | _ => False
  end.
Proof. vm_compute. split; reflexivity. Qed.

(** ** Session Aggregator: the identifiers *)

Lemma session_keys_sorted (l : list LogRow) : StronglySorted str_le (session_keys l).
Proof.
  unfold session_keys, sorted_unique.
  apply StronglySorted_filter, StronglySorted_merge_sort; apply _.
Qed.

(** X9: the identifiers of the aggregated records are pairwise distinct,
    come in ascending order, and are never the empty string nor the
    literal "None". *)
Theorem aggregated_identifiers (f : LogFrame) (out : list ConversationRecord) :
  transform_logs_to_sessions f = Ok out ->
  NoDup (map conversation_id out) /\
  StronglySorted str_le (map conversation_id out) /\
  Forall (fun r => conversation_id r <> "" /\ conversation_id r <> "None") out.
Proof.
  intros Hout. rewrite (transform_ids f out Hout).
  split; [apply NoDup_session_keys|]. split; [apply session_keys_sorted|].
  apply Forall_forall. intros r Hr.
  assert (Hin : conversation_id r ∈ map conversation_id out).
  { apply list_elem_of_fmap. exists r. split; [reflexivity | exact Hr]. }
  rewrite (transform_ids f out Hout) in Hin.
  apply elem_of_session_keys in Hin as (H1 & H2 & _). split; assumption.
Qed.

Lemma aggregated_identifiers_witness :
  NoDup (map conversation_id (records logs_only_result)).
Proof.
  apply (aggregated_identifiers
           (scenario_logs "dialogflowSessionId" 0 (5 * minute) (10 * minute))).
  vm_compute. reflexivity.
Defined.

(** ** Synthetic Generator: ranges, vocabularies, identifiers *)

Lemma pick_cdf_in {A} (items : list (A * Q)) :
  forall acc u last, pick_cdf acc items u last ∈ last :: map fst items.
Proof.
  induction items as [|[a p] items IH]; intros acc u last; cbn.
  - left.
  - destruct (Qlt_le_dec u (acc + p)); [right; left|].
    specialize (IH (acc + p)%Q u a).
    apply elem_of_cons in IH as [->|IH]; [right; left | right; right; exact IH].
Qed.

Section SyntheticRanges.
Context {S : Type} `{Generator S}.

Lemma post_choice {A} (items : list A) (dflt : A) :
  items <> [] -> post (S := S) (choice items dflt) (fun x => x ∈ items).
Proof.
  intros Hne. unfold choice.
  eapply post_bind; [apply post_integers|].
  - destruct items; [congruence | cbn [length]; lia].
  - intros i Hi. apply post_ret. cbn beta in Hi.
    apply list_elem_of_In, nth_In. lia.
Qed.

Lemma post_choice_p {A} (items : list (A * Q)) (dflt : A) :
  post (S := S) (choice_p items dflt) (fun x => x ∈ dflt :: map fst items).
Proof.
  unfold choice_p. eapply post_bind; [apply post_trivial | intros u _].
  apply post_ret, pick_cdf_in.
Qed.

Lemma post_rand_map_Forall2 {A B} (R : A -> B -> Prop) (f : A -> Rand S B) (l : list A) :
  (forall x, post (f x) (R x)) -> post (rand_map f l) (Forall2 R l).
Proof.
  intros Hf. induction l as [|x l IH]; cbn [rand_map].
  - apply post_ret. constructor.
  - eapply post_bind; [apply Hf | intros y Hy].
    eapply post_bind; [apply IH | intros ys Hys].
    apply post_ret. constructor; assumption.
Qed.

Ltac skip_draw := eapply post_bind; [apply post_trivial | intros ? _].

Lemma synthetic_row_times now i :
  post (synthetic_row (now - 90 * day) i) (synthetic_times_ok now).
Proof.
  unfold synthetic_row.
  eapply post_bind; [apply post_integers; lia | intros d Hd].
  eapply post_bind; [apply post_integers; lia | intros h Hh].
  eapply post_bind; [apply post_integers; lia | intros m Hm].
  eapply post_bind; [apply post_integers; lia | intros dur Hdur].
  eapply post_bind; [apply post_trivial | intros pr _].
  eapply post_bind with
    (P := fun delay => forall x, delay = Some x -> minute <= x < 6 * hour).
  { destruct (String.eqb pr "Alta"); [|apply post_ret; discriminate].
    eapply post_bind; [apply post_trivial | intros fast _].
    destruct fast.
    - eapply post_bind; [apply post_integers; lia | intros n Hn].
      apply post_ret. intros x [= <-]. cbn beta in Hn. unfold hour, minute. lia.
    - eapply post_bind; [apply post_integers; lia | intros n Hn].
      apply post_ret. intros x [= <-]. cbn beta in Hn. unfold hour, minute. lia. }
  intros delay Hdelay.
  eapply post_bind; [apply post_trivial | intros ab _].
  do 6 skip_draw.
  apply post_ret. unfold synthetic_times_ok. cbn.
  eexists. split; [reflexivity|]. cbn beta in Hd, Hh, Hm, Hdur.
  split; [unfold day, hour, minute in *; lia|]. split.
  - intros x Hx. destruct ab; [discriminate|]. injection Hx as <-.
    unfold day, hour, minute in *. lia.
  - intros t Ht. destruct delay as [x|]; [|discriminate].
    specialize (Hdelay x eq_refl).
    destruct (x =? 0); [discriminate|]. injection Ht as <-. lia.
Qed.

Lemma synthetic_row_vocabulary start i :
  post (synthetic_row start i) synthetic_vocabulary_ok.
Proof.
  unfold synthetic_row.
  do 4 skip_draw.
  eapply post_bind; [apply post_choice_p | intros pr Hpr].
  do 3 skip_draw.
  eapply post_bind; [apply post_trivial | intros fb _].
  eapply post_bind with
    (P := fun ph => match ph with
                    | Some p => fb = true /\ p ∈ sample_fallbacks
                    | None => fb = false
                    end).
  { destruct fb; [|apply post_ret; reflexivity].
    eapply post_bind; [apply post_choice; discriminate | intros p Hp].
    apply post_ret. split; [reflexivity | exact Hp]. }
  intros phrase Hphrase.
  skip_draw.
  eapply post_bind; [apply post_choice; discriminate | intros ch Hch].
  eapply post_bind; [apply post_choice; discriminate | intros u Hu].
  apply post_ret. unfold synthetic_vocabulary_ok. cbn.
  split; [exact Hch|]. split; [eauto|]. split.
  { eexists. split; [reflexivity|]. cbn in Hpr.
    apply elem_of_cons in Hpr as [->|Hpr]; [by_evaluation | exact Hpr]. }
  split; [reflexivity|]. split; [exact Hphrase|].
  match goal with |- context [if ?b then _ else _] => destruct b end; reflexivity.
Qed.

Lemma synthetic_row_id start i :
  post (synthetic_row start i) (fun r => conversation_id r = "conv_" +:+ pretty i).
Proof.
  unfold synthetic_row. do 13 skip_draw. apply post_ret. reflexivity.
Qed.

(** X10: every generated row is opened within the 90 days before [now];
    a completed row is completed between 1 minute and 48 hours after it
    was opened; a notification is sent between 1 minute and 6 hours
    after. *)
Theorem generate_synthetic_data_times (now num_rows : Z) :
  Forall (synthetic_times_ok now) (generate_synthetic_data now num_rows).
Proof.
  unfold generate_synthetic_data.
  apply post_rand_map_Forall. intros i. apply synthetic_row_times.
Qed.

(** X11: every generated row draws [channel], [uf] and [priority] from
    the fixed vocabularies, has 6 slots in total, carries a fallback
    phrase (from the fixed vocabulary) exactly when it is flagged as
    fallback, and has [intent_final] "fallback" when abandoned and
    "create_report" otherwise. *)
Theorem generate_synthetic_data_vocabulary (now num_rows : Z) :
  Forall synthetic_vocabulary_ok (generate_synthetic_data now num_rows).
Proof.
  unfold generate_synthetic_data.
  apply post_rand_map_Forall. intros i. apply synthetic_row_vocabulary.
Qed.

Lemma generate_synthetic_data_ids (now num_rows : Z) :
  map conversation_id (generate_synthetic_data now num_rows) =
  map (fun i : nat => "conv_" +:+ pretty i) (seq 0 (Z.to_nat num_rows)).
Proof.
  unfold generate_synthetic_data.
  pose proof (post_rand_map_Forall2
                (fun (i : nat) r => conversation_id r = "conv_" +:+ pretty i)
                (synthetic_row (now - 90 * day)) (seq 0 (Z.to_nat num_rows))
                (synthetic_row_id (now - 90 * day)) (default_rng 42)) as H2.
  induction H2 as [|i r l rs Hr _ IH]; [reflexivity|].
  cbn [map]. rewrite Hr, IH. reflexivity.
Qed.

Lemma conv_ids_NoDup (n : nat) :
  NoDup (map (fun i : nat => "conv_" +:+ pretty i) (seq 0 n)).
Proof.
  apply NoDup_fmap_2_strong; [|apply NoDup_seq].
  intros i j _ _ Hij. cbn in Hij. injection Hij as Hij.
  exact (pretty_nat_inj _ _ Hij).
Qed.

Lemma sum_Z_constant (f : ConversationRecord -> Z) (c : Z) (l : list ConversationRecord) :
  Forall (fun r => f r = c) l -> sum_Z (map f l) = c * Z.of_nat (length l).
Proof. unfold sum_Z. induction 1 as [|r l Hr _ IH]; cbn [map foldr length]; [lia|]. rewrite IH, Hr. lia. Qed.

(** X12: the metrics of a generated record set of at least one row (and
    fewer than [2^60] rows, so that the slot sums fit in 64 bits) are
    well formed: the identifiers are ["conv_0"], ["conv_1"], ... and
    pairwise distinct, [total_conv] is the number of rows, and the four
    boolean rates and the slot fill rate lie in [0, 1]. *)
Theorem synthetic_metrics_well_formed (now num_rows : Z) :
  0 < num_rows < 2 ^ 60 ->
  let df := generate_synthetic_data now num_rows in
  let m := compute_metrics df in
  map conversation_id df =
    map (fun i : nat => "conv_" +:+ pretty i) (seq 0 (Z.to_nat num_rows)) /\
  total_conv m = num_rows /\
  (0 <= fallback_rate m <= 1)%Q /\
  (0 <= escalation_rate m <= 1)%Q /\
  (0 <= abandonment_rate m <= 1)%Q /\
  (0 <= pct_high_priority m <= 1)%Q /\
  (0 <= slot_fill_rate m <= 1)%Q.
Proof.
  intros Hn df m.
  pose proof (generate_synthetic_data_ids now num_rows) as Hids. fold df in Hids.
  assert (Hnd : NoDup (map conversation_id df)) by (rewrite Hids; apply conv_ids_NoDup).
  assert (Hlen : Z.of_nat (length df) = num_rows).
  { subst df. rewrite generate_synthetic_data_length. lia. }
  split; [exact Hids|]. split.
  { subst m. cbn [compute_metrics total_conv]. rewrite (nunique_NoDup _ Hnd), length_map.
    exact Hlen. }
  do 4 (split; [apply (rate_unique_ids _ df Hnd)|]).
  assert (Hok : Forall (fun r => synthetic_row_ok r /\ synthetic_vocabulary_ok r) df).
  { subst df. unfold generate_synthetic_data.
    apply post_rand_map_Forall. intros i s.
    split; [apply synthetic_row_spec | apply synthetic_row_vocabulary]. }
  rewrite Forall_forall in Hok.
  apply slot_fill_rate_of_completed.
  - apply Forall_forall. intros r Hr. apply list_elem_of_filter in Hr as [Ha Hr].
    destruct (Hok r Hr) as ((_ & Hna & _) & _). specialize (Hna Ha). lia.
  - rewrite (sum_Z_constant slots_total 6).
    + pose proof (length_filter (fun r => abandoned r = false) df). lia.
    + apply Forall_forall. intros r Hr. apply list_elem_of_filter in Hr as [_ Hr].
      destruct (Hok r Hr) as (_ & _ & _ & _ & H6 & _). exact H6.
Qed.
End SyntheticRanges.

Lemma synthetic_metrics_well_formed_witness :
  total_conv (compute_metrics (generate_synthetic_data (S := Z) 0 20)) = 20.
Proof.
  apply (synthetic_metrics_well_formed (S := Z) 0 20). lia.
Defined.

(** ** Reconciler: the structured rows *)

Lemma maps_case_base p : maps_case p (base_record p).
Proof. repeat split. Qed.

Lemma maps_case_set_fallback p fb ph r : maps_case p r -> maps_case p (set_fallback fb ph r).
Proof. intros H. exact H. Qed.

Lemma maps_case_set_notification p t r : maps_case p r -> maps_case p (set_notification t r).
Proof. intros H. exact H. Qed.

Lemma assign_notifications_cases (ps : list PgRow) :
  forall rs ms,
    Forall2 maps_case ps rs -> Forall2 maps_case ps (assign_notifications rs ms).
Proof.
  induction ps as [|p ps IH]; intros rs ms H2; inversion H2 as [|? r ? rs' Hr Hrs]; subst.
  - constructor.
  - cbn [assign_notifications]. destruct (is_alta (priority r)).
    + destruct ms as [|m ms]; (constructor; [exact Hr | apply IH, Hrs]).
    + constructor; [exact Hr | apply IH, Hrs].
Qed.

Lemma zip_set_fallback_cases (ps : list PgRow) :
  forall flags,
    length flags = length ps ->
    Forall2 maps_case ps
            (zip_with (fun fb r => set_fallback fb None r) flags (map base_record ps)).
Proof.
  induction ps as [|p ps IH]; intros [|fb flags] Hl; try discriminate; cbn.
  - constructor.
  - constructor; [apply maps_case_base | apply IH; cbn in Hl; lia].
Qed.

(** What [log.get('protocolo') or log.get('context.protocolo')] yields,
    read off the cells. *)
Lemma log_protocol_names (logs : LogFrame) (l : LogRow) (p : string) :
  log_protocol logs l = PStr p /\ p <> "" <-> names_protocol logs l p.
Proof.
  unfold names_protocol, log_protocol, series_get, get_cell.
  destruct (has_col logs "protocolo") eqn:Hp; cbn [py_truthy].
  - destruct (cells l !! "protocolo") as [s|] eqn:Es; cbn [py_truthy].
    + destruct (String.eqb_spec s "") as [->|Hs]; cbn [negb].
      * split.
        -- intros [Hq Hne]. split; [exact Hne|]. right.
           destruct (has_col logs "context.protocolo"); [|discriminate].
           destruct (cells l !! "context.protocolo") as [q|];
             [|destruct (bool_decide _); discriminate].
           injection Hq as ->. auto.
        -- intros [Hne [[_ [= <-]]|[_ [-> ->]]]]; [congruence|]. split; [reflexivity | exact Hne].
      * split.
        -- intros [[= ->] Hne]. split; [exact Hne|]. left. auto.
        -- intros [Hne [[_ [= ->]]|[[?|[[= ?]|[? _]]] _]]]; try congruence.
           split; [reflexivity | exact Hne].
    + destruct (bool_decide ("protocolo" ∈ none_cells l)) eqn:En; cbn [py_truthy].
      * apply bool_decide_eq_true in En. split.
        -- intros [Hq Hne]. split; [exact Hne|]. right.
           destruct (has_col logs "context.protocolo"); [|discriminate].
           destruct (cells l !! "context.protocolo") as [q|];
             [|destruct (bool_decide _); discriminate].
           injection Hq as ->. auto.
        -- intros [Hne [[_ ?]|[_ [-> ->]]]]; [congruence|]. split; [reflexivity | exact Hne].
      * apply bool_decide_eq_false in En. split.
        -- intros [? _]. discriminate.
        -- intros [_ [[_ ?]|[[?|[?|[_ ?]]] _]]]; congruence || contradiction.
  - split.
    + intros [Hq Hne]. split; [exact Hne|]. right.
      destruct (has_col logs "context.protocolo"); [|discriminate].
      destruct (cells l !! "context.protocolo") as [q|];
        [|destruct (bool_decide _); discriminate].
      injection Hq as ->. auto.
    + intros [Hne [[? _]|[_ [-> ->]]]]; [discriminate|]. split; [reflexivity | exact Hne].
Qed.

Section ReconcilerRows.
Context {L : Type} {legacy : Generator L}.
Context {S : Type} {pcg : Generator S}.

(** The rows of the enrichment from logs, against the structured rows. *)
Lemma enrich_from_logs_rows (logs : LogFrame) (ps : list PgRow) (g : L) rs :
  fst (enrich_from_logs logs (map base_record ps) g) = Ok rs ->
  Forall2 (fun p r =>
             maps_case p r /\
             (fallback r = true <->
              exists l, l ∈ rows logs /\ is_fallback_log logs l /\
                        log_protocol logs l = PStr (pg_protocolo p) /\
                        pg_protocolo p <> "") /\
             match fallback_phrase r with
             | Some ph => fallback r = true /\ ph ∈ sample_phrases
             | None => fallback r = false
             end /\
             notification_sent_at r =
               ts_min (map (log_timestamp logs)
                           (filter (fun l => log_protocol logs l = PStr (pg_protocolo p) /\
                                             pg_protocolo p <> "")
                                   (filter (fun l => cell_contains "SendGrid" "component" l = true)
                                           (rows logs)))))
          ps rs.
Proof.
  unfold enrich_from_logs.
  destruct (has_col logs "message"); cbn [negb]; [|discriminate].
  set (fallback_logs := filter _ (rows logs)).
  set (fps := filter (fun p => py_truthy p = true) (map (log_protocol logs) fallback_logs)).
  assert (Hfps : forall p,
             PStr p ∈ fps <->
             exists l, l ∈ rows logs /\ is_fallback_log logs l /\
                       log_protocol logs l = PStr p /\ p <> "").
  { intros p. subst fps fallback_logs.
    rewrite list_elem_of_filter, list_elem_of_fmap. split.
    - intros (Ht & l & Hp & Hl). apply list_elem_of_filter in Hl as [Hf Hl].
      exists l. split; [exact Hl|]. split; [|split; [congruence|]].
      + unfold is_fallback_log. apply orb_true_iff in Hf as [Hf|Hf]; [left; exact Hf|].
        right. apply andb_true_iff in Hf as [H1 H2]. split; [exact H1|].
        unfold is_fallback_intent in H2. apply bool_decide_eq_true in H2. exact H2.
      + cbn in Ht. destruct (String.eqb_spec p ""); [discriminate | assumption].
    - intros (l & Hl & Hf & Hp & Hne). split.
      + cbn. destruct (String.eqb_spec p ""); [contradiction | reflexivity].
      + exists l. split; [congruence|]. apply list_elem_of_filter. split; [|exact Hl].
        apply orb_true_iff. destruct Hf as [Hf|[H1 H2]]; [left; exact Hf|].
        right. apply andb_true_iff. split; [exact H1|].
        unfold is_fallback_intent. apply bool_decide_eq_true. exact H2. }
  unfold rand_bind.
  assert (Hwf : forall s : L,
             Forall2 (fun p r =>
                        maps_case p r /\
                        (fallback r = true <-> PStr (pg_protocolo p) ∈ fps) /\
                        match fallback_phrase r with
                        | Some ph => fallback r = true /\ ph ∈ sample_phrases
                        | None => fallback r = false
                        end)
                     ps
                     (fst (rand_map
                             (fun r =>
                                if bool_decide (PStr (protocol r) ∈ fps)
                                then rand_bind (choice (S := L) sample_phrases "")
                                       (fun phrase => rand_ret (set_fallback true (Some phrase) r))
                                else rand_ret (set_fallback false None r))
                             (map base_record ps) s))).
  { induction ps as [|p ps IH]; intros s; [constructor|].
    cbn [map rand_map]. unfold rand_bind at 1.
    cbn [base_record protocol].
    destruct (bool_decide (PStr (pg_protocolo p) ∈ fps)) eqn:Ein.
    - unfold rand_bind at 1.
      pose proof (post_choice (S := L) sample_phrases "" ltac:(discriminate) s) as Hph.
      destruct (choice sample_phrases "" s) as [ph s1]. cbn [fst] in Hph.
      unfold rand_ret at 1. unfold rand_bind at 1. specialize (IH s1).
      destruct (rand_map _ (map base_record ps) s1) as [ys s2]. cbn [fst] in *.
      constructor; [|exact IH]. apply bool_decide_eq_true in Ein.
      split; [apply maps_case_set_fallback, maps_case_base|]. cbn.
      split; [tauto|]. split; [reflexivity | exact Hph].
    - unfold rand_ret at 1. unfold rand_bind at 1. specialize (IH s).
      destruct (rand_map _ (map base_record ps) s) as [ys s2]. cbn [fst] in *.
      constructor; [|exact IH]. apply bool_decide_eq_false in Ein.
      split; [apply maps_case_set_fallback, maps_case_base|]. cbn.
      split; [split; [discriminate | contradiction] | reflexivity]. }
  specialize (Hwf g).
  destruct (rand_map _ (map base_record ps) g) as [wf g1]. cbn [fst] in Hwf.
  destruct (has_col logs "component"); cbn [negb]; [|discriminate].
  unfold rand_ret. cbn [fst]. intros [= <-].
  clear -Hwf Hfps. induction Hwf as [|p r ps wf (Hc & Hf & Hph) _ IH]; [constructor|].
  cbn [map]. constructor; [|exact IH].
  split; [apply maps_case_set_notification, Hc|].
  cbn [set_notification fallback fallback_phrase notification_sent_at protocol].
  split; [rewrite Hf; apply Hfps|]. split; [exact Hph|].
  destruct Hc as (_ & -> & _). reflexivity.
Qed.

Lemma enrich_simulated_cases (ps : list PgRow) (g : L) :
  Forall2 maps_case ps (fst (enrich_simulated (map base_record ps) g)).
Proof.
  rewrite enrich_simulated_draws. unfold fallback_draws, rand_repeat, rand_bind.
  pose proof (post_rand_map_length
                (fun _ : nat => choice_p [(true, 1 # 10); (false, 9 # 10)]%Q false)
                (seq 0 (length (map base_record ps))) g) as Hlen.
  destruct (rand_map _ (seq 0 (length (map base_record ps))) g) as [flags g1].
  cbn [fst] in Hlen. rewrite length_seq, length_map in Hlen.
  destruct (rand_map _ (seq 0 _) g1) as [ms g2]. unfold rand_ret. cbn [fst].
  apply assign_notifications_cases, zip_set_fallback_cases, Hlen.
Qed.

(** X13: the structured path maps the cases one to one.  Whenever the
    structured source returns rows and the Reconciler returns, with or
    without logs, there is one returned row per case, in order: its
    identifier and protocol are the case's [protocolo], its priority,
    region and opening time are the case's, the channel is "web", the
    slots are 6 of 6, it is escalated exactly when the priority is
    "Alta", it is never abandoned; the log frame is attached. *)
Theorem structured_path_maps_cases now (ps : list PgRow) mongo (g : L) out :
  ps <> [] ->
  fst (combine_postgres_and_mongo_data (S := S) now (Loaded ps) mongo g) = Ok out ->
  Forall2 maps_case ps (records out) /\
  mongo_logs_attr out = Some (load_mongodb_logs mongo).
Proof.
  intros Hne. unfold combine_postgres_and_mongo_data. cbn [load_denuncias_from_postgres].
  destruct ps as [|p ps]; [congruence|].
  destruct (frame_empty (load_mongodb_logs mongo)); cbn [negb]; unfold rand_bind.
  - pose proof (enrich_simulated_cases (p :: ps) g) as Hc.
    destruct (enrich_simulated _ g) as [rs g1]. unfold rand_ret. cbn [fst] in *.
    intros [= <-]. split; [exact Hc | reflexivity].
  - pose proof (enrich_from_logs_rows (load_mongodb_logs mongo) (p :: ps) g) as Hc.
    destruct (enrich_from_logs _ _ g) as [[rs|e] g1]; unfold rand_ret; cbn [fst result_bind] in *;
      [|discriminate].
    intros [= <-]. split; [|reflexivity]. cbn [records].
    eapply Forall2_impl; [apply Hc; reflexivity|]. intros q r Hq. apply Hq.
Qed.

(** X14: the fallback flags of the enrichment from logs.  With
    structured rows and a non-empty log frame, a returned row is flagged
    as fallback exactly when some fallback log row names its protocol;
    the rows flagged, and only they, carry a phrase, taken from the
    three sample phrases. *)
Theorem enrichment_fallback_flags now (ps : list PgRow) mongo (g : L) out :
  ps <> [] ->
  frame_empty (load_mongodb_logs mongo) = false ->
  fst (combine_postgres_and_mongo_data (S := S) now (Loaded ps) mongo g) = Ok out ->
  Forall2 (fun p r =>
             (fallback r = true <->
              exists l, l ∈ rows (load_mongodb_logs mongo) /\
                        is_fallback_log (load_mongodb_logs mongo) l /\
                        names_protocol (load_mongodb_logs mongo) l (pg_protocolo p)) /\
             match fallback_phrase r with
             | Some ph => fallback r = true /\ ph ∈ sample_phrases
             | None => fallback r = false
             end)
          ps (records out).
Proof.
  intros Hne He. unfold combine_postgres_and_mongo_data. cbn [load_denuncias_from_postgres].
  destruct ps as [|p ps]; [congruence|]. rewrite He. cbn [negb]. unfold rand_bind.
  pose proof (enrich_from_logs_rows (load_mongodb_logs mongo) (p :: ps) g) as Hc.
  destruct (enrich_from_logs _ _ g) as [[rs|e] g1]; unfold rand_ret; cbn [fst result_bind] in *;
    [|discriminate].
  intros [= <-]. cbn [records].
  eapply Forall2_impl; [apply Hc; reflexivity|]. intros q r (_ & H1 & H2 & _).
  split; [|exact H2]. rewrite H1.
  split; intros (l & Hl & Hf & Hn); exists l; (split; [exact Hl|]); (split; [exact Hf|]).
  - apply log_protocol_names. exact Hn.
  - apply log_protocol_names in Hn. exact Hn.
Qed.

(** X15: the notification times of the enrichment from logs.  A returned
    row's [notification_sent_at] is the earliest timestamp among the log
    rows of the notification component that name its protocol: it is the
    timestamp of one of them and not after any other; it is null exactly
    when no such row has a timestamp. *)
Theorem enrichment_notification_times now (ps : list PgRow) mongo (g : L) out :
  ps <> [] ->
  frame_empty (load_mongodb_logs mongo) = false ->
  fst (combine_postgres_and_mongo_data (S := S) now (Loaded ps) mongo g) = Ok out ->
  Forall2 (fun p r =>
             let logs := load_mongodb_logs mongo in
             match notification_sent_at r with
             | Some t =>
                 (exists l, is_notification_of logs (pg_protocolo p) l /\
                            log_timestamp logs l = Some t) /\
                 (forall l t', is_notification_of logs (pg_protocolo p) l ->
                               log_timestamp logs l = Some t' -> t <= t')
             | None =>
                 forall l, is_notification_of logs (pg_protocolo p) l ->
                           log_timestamp logs l = None
             end)
          ps (records out).
Proof.
  intros Hne He. unfold combine_postgres_and_mongo_data. cbn [load_denuncias_from_postgres].
  destruct ps as [|p ps]; [congruence|]. rewrite He. cbn [negb]. unfold rand_bind.
  set (logs := load_mongodb_logs mongo).
  pose proof (enrich_from_logs_rows logs (p :: ps) g) as Hc.
  destruct (enrich_from_logs _ _ g) as [[rs|e] g1]; unfold rand_ret; cbn [fst result_bind] in *;
    [|discriminate].
  intros [= <-]. cbn [records].
  eapply Forall2_impl; [apply Hc; reflexivity|]. intros q r (_ & _ & _ & Hn).
  cbn zeta. rewrite Hn.
  set (src := filter _ (filter _ (rows logs))).
  assert (Hsrc : forall l, l ∈ src <-> is_notification_of logs (pg_protocolo q) l).
  { intros l. subst src. rewrite !list_elem_of_filter. unfold is_notification_of.
    rewrite <- log_protocol_names. tauto. }
  destruct (ts_min (map (log_timestamp logs) src)) as [t|] eqn:Et.
  - apply ts_min_Some in Et as [Hin Hmin]. split.
    + apply list_elem_of_fmap in Hin as (l & Hl & Hin). exists l.
      split; [apply Hsrc, Hin | congruence].
    + intros l t' Hl Ht'. apply Hmin. rewrite <- Ht'.
      apply list_elem_of_fmap. exists l. split; [reflexivity | apply Hsrc, Hl].
  - intros l Hl. destruct (log_timestamp logs l) as [t|] eqn:Ht; [|reflexivity].
    exfalso. apply (ts_min_None _ Et t). rewrite <- Ht.
    apply list_elem_of_fmap. exists l. split; [reflexivity | apply Hsrc, Hl].
Qed.
End ReconcilerRows.

(** ** Reconciler: without structured rows *)

Section ReconcilerChain.
Context {L : Type} {legacy : Generator L}.
Context {S : Type} {pcg : Generator S}.

(** X16: the chain behind an empty structured source.  The global
    generator is left untouched.  When the log frame is empty, or has no
    usable session, the result is the 500 synthetic rows without attached
    logs; when it has a usable session (and the columns the aggregation
    reads), the result is exactly the aggregated records, again without
    attached logs. *)
Theorem chain_without_structured_rows now database mongo (g : L) :
  load_denuncias_from_postgres database = [] ->
  let logs := load_mongodb_logs mongo in
  let run := combine_postgres_and_mongo_data (S := S) now database mongo g in
  snd run = g /\
  (frame_empty logs = true \/ (has_col logs "timestamp" = true /\ ~ has_session logs) ->
   fst run = Ok (mkReconciled (generate_synthetic_data (S := S) now 500) None) /\
   length (generate_synthetic_data (S := S) now 500) = 500%nat) /\
  (frame_empty logs = false ->
   has_col logs "timestamp" = true ->
   has_col logs "message" = true -> has_col logs "component" = true ->
   has_session logs ->
   exists out, transform_logs_to_sessions logs = Ok out /\ out <> [] /\
               fst run = Ok (mkReconciled out None)).
Proof.
  intros Hpg logs run. subst run. unfold combine_postgres_and_mongo_data.
  rewrite Hpg. fold logs. split; [|split].
  - destruct (frame_empty logs); cbn [negb]; [reflexivity|].
    destruct (transform_logs_to_sessions logs) as [[|r rs]|e]; reflexivity.
  - intros Hcase. split; [|rewrite generate_synthetic_data_length; reflexivity].
    destruct (frame_empty logs) eqn:He; cbn [negb]; [reflexivity|].
    destruct Hcase as [Hc|[Ht Hno]]; [discriminate|].
    rewrite (transform_without_session logs Ht Hno). reflexivity.
  - intros He Ht Hm Hc Hs. rewrite He. cbn [negb].
    destruct (transform_with_columns logs Ht Hm Hc) as (out & Hout & Hne).
    exists out. apply Hne in Hs. split; [exact Hout|]. split; [exact Hs|].
    rewrite Hout. destruct out; [congruence | reflexivity].
Qed.
End ReconcilerChain.

Lemma chain_without_structured_rows_witness :
  fst (combine_postgres_and_mongo_data (L := Z) (S := Z) 0 QueryFailed Unconfigured 1)
  = Ok (mkReconciled (generate_synthetic_data (S := Z) 0 500) None).
Proof.
  destruct (chain_without_structured_rows (L := Z) (S := Z) 0 QueryFailed Unconfigured 1 eq_refl)
    as (_ & H & _).
  apply H. left. reflexivity.
Defined.

(** ** The structured path on a sample *)

Definition support_logs : LogFrame :=
  mkLogFrame ["timestamp"; "component"; "level"; "message"; "protocolo"; "intentName"]
    [ log_row (7 * minute) [("component", "SendGridService"); ("message", "E-mail enviado");
                            ("protocolo", "SUP-1")];
      log_row (3 * minute) [("component", "SendGridService"); ("message", "E-mail enviado");
                            ("protocolo", "SUP-1")];
      log_row minute [("component", "Webhook"); ("message", "Fallback detectado");
                      ("protocolo", "SUP-1")];
      log_row (2 * minute) [("component", "Webhook"); ("message", "ok");
                            ("protocolo", "SUP-2")] ].

Definition support_cases : list PgRow :=
  [case_row "SUP-1" "Alta" 0; case_row "SUP-2" "Baixa" 0].

Definition support_result : Reconciled :=
  Eval vm_compute in
    match fst (combine_postgres_and_mongo_data (L := Z) (S := Z) 0
                 (Loaded support_cases) (Loaded support_logs) 1) with
    | Ok out => out
    | Raise _ => mkReconciled [] None
    end.

Example support_result_rows :
  map (fun r => (conversation_id r, fallback r, notification_sent_at r))
      (records support_result) =
  [("SUP-1", true, Some (3 * minute)); ("SUP-2", false, None)].
Proof. vm_compute. reflexivity. Qed.

Lemma structured_path_maps_cases_witness :
  Forall2 maps_case support_cases (records support_result).
Proof.
  apply (structured_path_maps_cases (L := Z) (S := Z) 0 support_cases
           (Loaded support_logs) 1 support_result).
  - discriminate.
  - vm_compute. reflexivity.
Defined.

Lemma enrichment_fallback_flags_witness :
  Forall2 (fun p r =>
             match fallback_phrase r with
             | Some ph => fallback r = true /\ ph ∈ sample_phrases
             | None => fallback r = false
             end)
          support_cases (records support_result).
Proof.
  eapply Forall2_impl.
  - apply (enrichment_fallback_flags (L := Z) (S := Z) 0 support_cases
             (Loaded support_logs) 1 support_result).
    + discriminate.
    + reflexivity.
    + vm_compute. reflexivity.
  - intros p r [_ H]. exact H.
Defined.

Lemma enrichment_notification_times_witness :
  Forall2 (fun p r =>
             match notification_sent_at r with
             | Some t =>
                 exists l, is_notification_of support_logs (pg_protocolo p) l /\
                           log_timestamp support_logs l = Some t
             | None => True
             end)
          support_cases (records support_result).
Proof.
  eapply Forall2_impl.
  - apply (enrichment_notification_times (L := Z) (S := Z) 0 support_cases
             (Loaded support_logs) 1 support_result).
    + discriminate.
    + reflexivity.
    + vm_compute. reflexivity.
  - intros p r H. cbn beta zeta in H.
    destruct (notification_sent_at r); [exact (proj1 H) | exact I].
Defined.

(** A notification row whose [protocolo] is a stored [None] names the
    protocol of its [context.protocolo] cell; the same row with a NaN
    there names none. *)
Example stored_none_reads_context :
  let cols := ["timestamp"; "component"; "message"; "protocolo"; "context.protocolo"] in
  let sent (nones : gset string) :=
    mkLogRow (Some minute)
             (list_to_map [("component", "SendGridService"); ("message", "E-mail enviado");
                           ("context.protocolo", "SUP-1")])
             nones in
  let notified (l : LogRow) :=
    match fst (combine_postgres_and_mongo_data (L := Z) (S := Z) 0
                 (Loaded [case_row "SUP-1" "Alta" 0]) (Loaded (mkLogFrame cols [l])) 1) with
    | Ok out => map notification_sent_at (records out)
    | Raise _ => []
    end in
  notified (sent {["protocolo"]}) = [Some minute] /\
  notified (sent ∅) = [None].
Proof. split; vm_compute; reflexivity. Qed.

(** ** Configuration *)

Lemma nested_get_first (key : string) (items : list (string * ConfigValue)) :
  forall pre name entries post v,
    items = pre ++ (name, CfgSection entries) :: post ->
    Forall (fun it => forall e, it.2 = CfgSection e -> dict_get key e = None) pre ->
    dict_get key entries = Some v ->
    nested_get key items = Some v.
Proof.
  intros pre name entries post v -> Hpre Hv.
  induction Hpre as [|[n [s|e]] pre Hit _ IH]; cbn [app nested_get].
  - rewrite Hv. reflexivity.
  - exact IH.
  - rewrite (Hit e eq_refl). exact IH.
Qed.

Lemma nested_get_none (key : string) (items : list (string * ConfigValue)) :
  (forall name e, (name, CfgSection e) ∈ items -> dict_get key e = None) ->
  nested_get key items = None.
Proof.
  induction items as [|[n [s|e]] items IH]; intros Hall; cbn [nested_get].
  - reflexivity.
  - apply IH. intros name e' Hin. apply (Hall name). right. exact Hin.
  - rewrite (Hall n e) by left.
    apply IH. intros name e' Hin. apply (Hall name). right. exact Hin.
Qed.

Lemma dict_get_first {A} (key : string) (items : list (string * A)) :
  forall pre v post,
    items = pre ++ (key, v) :: post ->
    Forall (fun it => it.1 <> key) pre ->
    dict_get key items = Some v.
Proof.
  intros pre v post -> Hpre.
  induction Hpre as [|[k a] pre Hk _ IH]; cbn [app dict_get].
  - rewrite String.eqb_refl. reflexivity.
  - cbn in Hk. destruct (String.eqb_spec k key); [contradiction | exact IH].
Qed.

Lemma dict_get_none {A} (key : string) (items : list (string * A)) :
  Forall (fun it => it.1 <> key) items -> dict_get key items = None.
Proof.
  induction 1 as [|[k a] items Hk _ IH]; cbn [dict_get]; [reflexivity|].
  cbn in Hk. destruct (String.eqb_spec k key); [contradiction | exact IH].
Qed.

(** X17: the precedence of [get_config].  A non-empty environment
    variable wins over everything.  Otherwise (the variable is unset or
    set to the empty string) the secrets decide: the default when they
    cannot be read; the top-level entry under the key when there is
    one, whatever the sections hold; failing that the entry of the first
    section, in order, that has the key; and the default when neither
    the top level nor any section has it. *)
Theorem get_config_precedence (environ : gmap string string) (key : string)
    (default : option ConfigValue) :
  (forall secrets v,
     environ !! key = Some v -> v <> "" ->
     get_config environ secrets key default = Some (CfgStr v)) /\
  (environ !! key = None \/ environ !! key = Some "" ->
   get_config environ None key default = default /\
   (forall items pre v post,
      items = pre ++ (key, v) :: post ->
      Forall (fun it => it.1 <> key) pre ->
      get_config environ (Some items) key default = Some v) /\
   (forall items pre name entries post v,
      Forall (fun it => it.1 <> key) items ->
      items = pre ++ (name, CfgSection entries) :: post ->
      Forall (fun it => forall e, it.2 = CfgSection e -> dict_get key e = None) pre ->
      dict_get key entries = Some v ->
      get_config environ (Some items) key default = Some (CfgStr v)) /\
   (forall items,
      Forall (fun it => it.1 <> key) items ->
      (forall name e, (name, CfgSection e) ∈ items -> dict_get key e = None) ->
      get_config environ (Some items) key default = default)).
Proof.
  split.
  - intros secrets v Hv Hne. unfold get_config. rewrite Hv.
    destruct (String.eqb_spec v ""); [contradiction | reflexivity].
  - intros Henv.
    assert (E : forall secrets,
               get_config environ secrets key default =
               match secrets with
               | Some items =>
                   match dict_get key items with
                   | Some v => Some v
                   | None =>
                       match nested_get key items with
                       | Some v => Some (CfgStr v)
                       | None => default
                       end
                   end
               | None => default
               end).
    { intros secrets. unfold get_config. destruct Henv as [-> | ->]; reflexivity. }
    split; [apply E|]. split; [|split].
    + intros items pre v post Hit Hpre. rewrite E.
      rewrite (dict_get_first key items pre v post Hit Hpre). reflexivity.
    + intros items pre name entries post v Htop Hit Hpre Hv. rewrite E.
      rewrite (dict_get_none key items Htop).
      rewrite (nested_get_first key items pre name entries post v Hit Hpre Hv). reflexivity.
    + intros items Htop Hall. rewrite E.
      rewrite (dict_get_none key items Htop), (nested_get_none key items Hall). reflexivity.
Qed.

Lemma get_config_precedence_witness :
  get_config {["MONGO_URI" := ""]}
             (Some [("general", CfgSection [("DATABASE_URL", "postgres://x")]);
                    ("mongo", CfgSection [("MONGO_URI", "mongodb://a/logs?x=1")]);
                    ("backup", CfgSection [("MONGO_URI", "mongodb://b/logs?x=1")])])
             "MONGO_URI" None
  = Some (CfgStr "mongodb://a/logs?x=1").
Proof.
  destruct (get_config_precedence {["MONGO_URI" := ""]} "MONGO_URI" None) as (_ & H).
  destruct (H (or_intror eq_refl)) as (_ & _ & Hnested & _).
  apply (Hnested _ [("general", CfgSection [("DATABASE_URL", "postgres://x")])]
                 "mongo" [("MONGO_URI", "mongodb://a/logs?x=1")]
                 [("backup", CfgSection [("MONGO_URI", "mongodb://b/logs?x=1")])]).
  - repeat constructor; discriminate.
  - reflexivity.
  - repeat constructor. cbn. intros e [= <-]. reflexivity.
  - reflexivity.
Defined.

(** ** The log database name *)

Lemma split_on_nonempty sep s : split_on sep s <> [].
Proof.
  destruct s as [|c s]; cbn [split_on]; [discriminate|].
  destruct (Ascii.eqb c sep); [discriminate|].
  destruct (split_on sep s); discriminate.
Qed.

Lemma split_on_app sep a b :
  split_on sep (a +:+ String sep b) = split_on sep a ++ split_on sep b.
Proof.
  induction a as [|c a IH]; simpl.
  - rewrite Ascii.eqb_refl. reflexivity.
  - destruct (Ascii.eqb c sep); [rewrite IH; reflexivity|].
    rewrite IH. pose proof (split_on_nonempty sep a) as Hne.
    destruct (split_on sep a) as [|seg rest]; [congruence | reflexivity].
Qed.

Lemma split_on_single sep s : has_char sep s = false -> split_on sep s = [s].
Proof.
  induction s as [|c s IH]; cbn [split_on has_char]; [reflexivity|].
  intros Hc. apply orb_false_iff in Hc as [Hc Hs].
  rewrite Hc, (IH Hs). reflexivity.
Qed.

Lemma has_char_app c a b : has_char c (a +:+ b) = has_char c a || has_char c b.
Proof.
  induction a as [|d a IH]; simpl; [reflexivity|].
  rewrite IH, orb_assoc. reflexivity.
Qed.

Lemma str_contains_char c s : str_contains (String c "") s = has_char c s.
Proof.
  induction s as [|d s IH]; cbn [str_contains has_char String.prefix]; [reflexivity|].
  rewrite IH. destruct (ascii_dec c d) as [->|Hne].
  - rewrite Ascii.eqb_refl. destruct s; reflexivity.
  - assert (E : Ascii.eqb d c = false) by (apply Ascii.eqb_neq; congruence).
    rewrite E. reflexivity.
Qed.

Lemma last_app_nonempty {A} (l1 l2 : list A) d : l2 <> [] -> List.last (l1 ++ l2) d = List.last l2 d.
Proof.
  intros Hne. induction l1 as [|x l1 IH]; [reflexivity|].
  cbn [app]. destruct (l1 ++ l2) eqn:E.
  - destruct l1; [cbn in E; congruence | discriminate].
  - cbn [List.last]. exact IH.
Qed.

(** X18: the database name read from the connection URI.  For a URI
    that ends in [/name?options] (no ['/'] in the name or the options,
    no ['?'] in the name) it is [name], or ["logs_sprint4"] when the
    name is empty; a URI without ['?'] or without ['/'] gives
    ["logs_sprint4"], whatever its path; the name is never empty. *)
Theorem mongo_db_name_spec :
  (forall pre name opts,
     has_char "/" name = false -> has_char "?" name = false ->
     has_char "/" opts = false ->
     mongo_db_name (pre +:+ "/" +:+ name +:+ "?" +:+ opts) =
     if String.eqb name "" then "logs_sprint4" else name) /\
  (forall uri,
     has_char "/" uri = false \/ has_char "?" uri = false ->
     mongo_db_name uri = "logs_sprint4") /\
  (forall uri, mongo_db_name uri <> "").
Proof.
  split; [|split].
  - intros pre name opts Hn1 Hn2 Ho. unfold mongo_db_name.
    rewrite !str_contains_char.
    change (pre +:+ "/" +:+ name +:+ "?" +:+ opts)
      with (pre +:+ String "/" (name +:+ String "?" opts)).
    assert (H1 : has_char "/" (pre +:+ String "/" (name +:+ String "?" opts)) = true).
    { rewrite has_char_app. cbn. apply orb_true_r. }
    assert (H2 : has_char "?" (pre +:+ String "/" (name +:+ String "?" opts)) = true).
    { rewrite has_char_app. cbn [has_char]. rewrite has_char_app. cbn.
      rewrite !orb_true_r. reflexivity. }
    rewrite H1, H2. cbn [andb].
    rewrite split_on_app, last_app_nonempty by apply split_on_nonempty.
    rewrite (split_on_single "/" (name +:+ String "?" opts)).
    2: { rewrite has_char_app. cbn [has_char]. rewrite Hn1, Ho. reflexivity. }
    cbn [List.last]. rewrite split_on_app, (split_on_single "?" name Hn2). cbn [app hd].
    destruct (String.eqb name ""); reflexivity.
  - intros uri Hno. unfold mongo_db_name. rewrite !str_contains_char.
    destruct Hno as [-> | ->]; [reflexivity | rewrite andb_false_r; reflexivity].
  - intros uri. unfold mongo_db_name.
    destruct (_ && _); [|discriminate].
    destruct (String.eqb_spec (hd "" (split_on "?" (List.last (split_on "/" uri) ""))) "");
      [discriminate | assumption].
Qed.

Lemma mongo_db_name_spec_witness :
  mongo_db_name "mongodb+srv://user:pw@cluster0.example.net/denuncias?retryWrites=true"
  = "denuncias".
Proof.
  destruct mongo_db_name_spec as (H & _).
  apply (H "mongodb+srv://user:pw@cluster0.example.net" "denuncias" "retryWrites=true");
    reflexivity.
Defined.

Example mongo_db_name_without_options :
  mongo_db_name "mongodb://localhost:27017/denuncias" = "logs_sprint4".
Proof. reflexivity. Qed.

(** ** Cleaning *)

Lemma clean_text_not_blank fill o : fill ∉ blank_texts -> clean_text fill o ∉ blank_texts.
Proof.
  intros Hf. unfold clean_text. fold blank_texts.
  destruct (bool_decide (astype_str o ∈ blank_texts)) eqn:E; [exact Hf|].
  apply bool_decide_eq_false in E. exact E.
Qed.

Lemma clean_text_fixed fill s : s ∉ blank_texts -> clean_text fill (Some s) = s.
Proof.
  intros Hs. unfold clean_text. fold blank_texts. cbn [astype_str default].
  rewrite bool_decide_eq_false_2 by exact Hs. reflexivity.
Qed.

Lemma clean_record_fixed r : cleaned r -> clean_record r = r.
Proof.
  intros (Hid & Hch & (u & Hu & Hub) & (p & Hp & Hpb)).
  destruct r; cbn in *. subst. unfold clean_record. cbn.
  rewrite !clean_text_fixed by assumption. reflexivity.
Qed.

Lemma clean_record_cleaned r : cleaned (clean_record r).
Proof.
  unfold cleaned, clean_record. cbn.
  split; [apply clean_text_not_blank; by_evaluation|].
  split; [apply clean_text_not_blank; by_evaluation|].
  split; eexists; (split; [reflexivity | apply clean_text_not_blank; by_evaluation]).
Qed.

(** X19: [clean_dataframe] keeps the rows and their order, leaves no
    text column null or blank ("nan", "None" or empty), changes nothing
    in a row that is already clean, and is therefore idempotent. *)
Theorem clean_dataframe_spec (df : list ConversationRecord) :
  length (clean_dataframe df) = length df /\
  Forall cleaned (clean_dataframe df) /\
  Forall2 (fun r c => cleaned r -> c = r) df (clean_dataframe df) /\
  clean_dataframe (clean_dataframe df) = clean_dataframe df.
Proof.
  unfold clean_dataframe. split; [apply length_map|]. split; [|split].
  - apply Forall_map, Forall_true, clean_record_cleaned.
  - induction df as [|r df IH]; cbn [map]; constructor; [|exact IH].
    apply clean_record_fixed.
  - rewrite map_map. apply map_ext. intros r.
    apply clean_record_fixed, clean_record_cleaned.
Qed.

Section CleanSynthetic.
Context {S : Type} `{Generator S}.

Lemma conv_id_not_blank (i : nat) : "conv_" +:+ pretty i ∉ blank_texts.
Proof.
  unfold blank_texts. intros Hin.
  repeat (apply elem_of_cons in Hin as [Hin|Hin]; [cbn in Hin; discriminate Hin|]).
  inversion Hin.
Qed.

(** X20: cleaning changes nothing in a generated record set, so the
    metrics of the cleaned synthetic data are those of the generated
    data. *)
Theorem clean_dataframe_synthetic (now num_rows : Z) :
  clean_dataframe (generate_synthetic_data now num_rows) =
    generate_synthetic_data now num_rows /\
  compute_metrics (clean_dataframe (generate_synthetic_data now num_rows)) =
    compute_metrics (generate_synthetic_data now num_rows).
Proof.
  assert (E : clean_dataframe (generate_synthetic_data now num_rows) =
              generate_synthetic_data now num_rows).
  { unfold clean_dataframe.
    transitivity (map (fun r : ConversationRecord => r) (generate_synthetic_data now num_rows));
      [|apply map_id].
    apply map_ext_in. intros r Hr. apply clean_record_fixed.
    assert (Hboth : Forall (fun r => synthetic_vocabulary_ok r /\
                                     exists i : nat, conversation_id r = "conv_" +:+ pretty i)
                           (generate_synthetic_data now num_rows)).
    { unfold generate_synthetic_data. apply post_rand_map_Forall. intros i s.
      split; [apply synthetic_row_vocabulary|].
      exists i. apply synthetic_row_id. }
    rewrite Forall_forall in Hboth. apply list_elem_of_In in Hr.
    destruct (Hboth r Hr) as ((Hch & (u & Hu & Hub) & (p & Hp & Hpb) & _) & i & Hi).
    unfold cleaned. split; [rewrite Hi; apply conv_id_not_blank|].
    split; [|split].
    - intros Hb. unfold channels, blank_texts in *.
      repeat (apply elem_of_cons in Hch as [Hch|Hch];
              [rewrite Hch in Hb; revert Hb; by_evaluation|]).
      inversion Hch.
    - exists u. split; [exact Hu|]. intros Hb. unfold ufs, blank_texts in *.
      repeat (apply elem_of_cons in Hub as [Hub|Hub];
              [rewrite Hub in Hb; revert Hb; by_evaluation|]).
      inversion Hub.
    - exists p. split; [exact Hp|]. intros Hb. unfold blank_texts in *.
      repeat (apply elem_of_cons in Hpb as [Hpb|Hpb];
              [rewrite Hpb in Hb; revert Hb; by_evaluation|]).
      inversion Hpb. }
  split; [exact E | rewrite E; reflexivity].
Qed.
End CleanSynthetic.
